(** * The Hugging Face inference client: retry pipeline and response reshaping

    A shallow embedding of [internal/ai] (the service: [makeRequest],
    [GenerateText], [GenerateCompletion], [AnalyzeSentiment],
    [SummarizeText]) and of [internal/model] ([AIRequest.Validate] and
    the result records), followed by the properties the specification
    states about them.

    Conventions of the embedding.
    - A Go [string] or [[]byte] is a Rocq [string] (a sequence of bytes);
      [len] counts bytes.  A nil byte slice is the empty string: the code
      hands response bodies to [json.Unmarshal] only, which treats both
      alike.
    - A Go [int] is a [Z] kept inside 64 bits by [GoInt.wrap].
    - A [float32]/[float64] that is only stored and compared
      ([Temperature], [TopP], [Score]) is the rational it denotes;
      [Compression], which the code computes by a floating-point
      division, is a binary64 [float].
    - A [map[string]interface{}] is a [gmap string value]; a nil map is
      the empty map (the code only ranges over, writes to a non-nil, or
      marshals them).
    - What the code does to the outside (log lines, the inter-retry wait,
      HTTP exchanges) is recorded as a list of [Event]s; what the outside
      answers is read from a [World].
    - [encoding/json] and [net/url] are not part of the repository: they
      are taken as a [Runtime] of functions. *)

From Stdlib Require Import ZArith QArith.
From Stdlib Require Import Floats.PrimFloat Numbers.Cyclic.Int63.Uint63.
From stdpp Require Import strings gmap list sorting pretty.

Local Open Scope Z_scope.

(** ** Go integers *)

Module GoInt.

Definition min_int : Z := - 2 ^ 63.
Definition max_int : Z := 2 ^ 63 - 1.

Definition in_range (z : Z) : Prop := min_int <= z <= max_int.

(** Two's complement wrap-around of a mathematical integer into [int]. *)
Definition wrap (z : Z) : Z := (z + 2 ^ 63) mod 2 ^ 64 - 2 ^ 63.

Definition add (a b : Z) : Z := wrap (a + b).
Definition sub (a b : Z) : Z := wrap (a - b).
(** Go's [/] truncates toward zero. *)
Definition div (a b : Z) : Z := wrap (Z.quot a b).

End GoInt.

(** ** Go strings: the functions of [strings] and the slices the code uses *)

Definition len (s : string) : Z := Z.of_nat (String.length s).

(** [s[n:]] *)
Fixpoint slice_from (n : nat) (s : string) : string :=
  match n, s with
  | O, _ => s
  | S n', String _ rest => slice_from n' rest
  | S _, EmptyString => EmptyString
  end.

(** [s[:n]] *)
Fixpoint slice_to (n : nat) (s : string) : string :=
  match n, s with
  | O, _ => EmptyString
  | S n', String c rest => String c (slice_to n' rest)
  | S _, EmptyString => EmptyString
  end.

Module GoStrings.

(** [strings.HasPrefix]: [len(s) >= len(prefix) && s[:len(prefix)] == prefix]. *)
Definition HasPrefix (s prefix : string) : bool :=
  (String.length prefix <=? String.length s)%nat
  && String.eqb (slice_to (String.length prefix) s) prefix.

(** [strings.TrimPrefix]: [s] without the leading [prefix], or [s] itself. *)
Definition TrimPrefix (s prefix : string) : string :=
  if HasPrefix s prefix then slice_from (String.length prefix) s else s.

End GoStrings.

(** ** Dynamic values ([interface{}]) *)

#[local] Unset Elimination Schemes.
Inductive value : Type :=
| VNil
| VBool (b : bool)
| VInt (n : Z)
| VInt64 (n : Z)
| VFloat32 (x : Q)
| VFloat64 (x : Q)
| VString (s : string)
| VArray (xs : list value)
| VObject (fields : list (string * value)).
#[local] Set Elimination Schemes.

(** ** [internal/model] *)

Module ErrorResponse.
Record t : Type := mk {
  Code : Z;
  Message : string;
  Type_ : string;
  Details : value
}.
End ErrorResponse.

(** Go [error] values, as far as the service creates or forwards them. *)
Inductive error : Type :=
| context_Canceled
| context_DeadlineExceeded
| Foreign (msg : string)              (* made by net/http, net/url, io or encoding/json *)
| Errorf (msg : string)               (* fmt.Errorf without %w *)
| Wrapf (prefix : string) (cause : error)   (* fmt.Errorf(prefix + "%w", cause) *)
| Validation (e : ErrorResponse.t).   (* *model.ErrorResponse *)

(** The [Error()] method. *)
Fixpoint Error (e : error) : string :=
  match e with
  | context_Canceled => "context canceled"
  | context_DeadlineExceeded => "context deadline exceeded"
  | Foreign msg => msg
  | Errorf msg => msg
  | Wrapf prefix cause => prefix +:+ Error cause
  | Validation e => ErrorResponse.Message e
  end.

Inductive result (A : Type) : Type :=
| Ok (a : A)
| Err (e : error).
Arguments Ok {A} a.
Arguments Err {A} e.

Module AIRequest.
Record t : Type := mk {
  ID : string;
  Model : string;
  Prompt : string;
  MaxTokens : Z;
  Temperature : Q;
  TopP : Q;
  Parameters : gmap string value;
  CreatedAt : Z
}.
End AIRequest.

Module Choice.
Record t : Type := mk {
  Index : Z;
  Text : string;
  FinishReason : string;
  LogProbs : option Q
}.
(** The zero value, as [make([]model.Choice, n)] fills the slice. *)
Definition zero : t := mk 0 "" "" None.
End Choice.

Module Usage.
Record t : Type := mk {
  PromptTokens : Z;
  CompletionTokens : Z;
  TotalTokens : Z
}.
End Usage.

Module AIResponse.
Record t : Type := mk {
  ID : string;
  Model : string;
  Choices : list Choice.t;
  Usage : Usage.t;
  GeneratedAt : Z;
  ProcessingMs : Z
}.
End AIResponse.

Module SentimentResponse.
Record t : Type := mk {
  Text : string;
  Sentiment : string;
  Score : Q;
  Confidence : Q
}.
End SentimentResponse.

Module SummaryResponse.
Record t : Type := mk {
  OriginalText : string;
  Summary : string;
  Compression : float
}.
End SummaryResponse.

(** [r.Temperature < 0], [r.Temperature > 1] and [result.Score >
    bestResult.Score]: comparison of finite floats is comparison of the
    rationals they denote.  The values are finite: they are decoded from
    JSON, which has no notation for NaN or infinities, and
    [encoding/json] refuses a number outside the range of the field. *)
Definition Qltb (x y : Q) : bool :=
  match Qcompare x y with Lt => true | _ => false end.
Definition Qgtb (x y : Q) : bool := Qltb y x.

Definition validation_error (message : string) : ErrorResponse.t :=
  ErrorResponse.mk 400 message "validation_error" VNil.

(** [func (r *AIRequest) Validate() error]; [None] is the nil error. *)
Definition Validate (r : AIRequest.t) : option ErrorResponse.t :=
  if String.eqb (AIRequest.Prompt r) "" then
    Some (validation_error "prompt is required")
  else if String.eqb (AIRequest.Model r) "" then
    Some (validation_error "model is required")
  else if AIRequest.MaxTokens r <? 0 then
    Some (validation_error "max_tokens must be positive")
  else if Qltb (AIRequest.Temperature r) 0 || Qgtb (AIRequest.Temperature r) 1 then
    Some (validation_error "temperature must be between 0 and 1")
  else None.

(** ** [internal/config] *)

Module HuggingFaceConfig.
Record t : Type := mk {
  APIKey : string;
  BaseURL : string;
  DefaultModel : string;
  Timeout : Z;
  RetryAttempts : Z;
  RetryDelay : Z;
  MaxTokens : Z;
  Temperature : Q;
  RateLimitRPM : Z;
  RateLimitTPM : Z
}.
End HuggingFaceConfig.

(** ** [internal/ai]: wire records *)

Module HuggingFaceRequest.
Record t : Type := mk {
  Inputs : string;
  Parameters : gmap string value;
  Options : gmap string value
}.
End HuggingFaceRequest.

Module HuggingFaceResponse.
Record t : Type := mk {
  GeneratedText : string;
  Score : Q;
  Label : string;
  SummaryText : string
}.
End HuggingFaceResponse.

Module HuggingFaceError.
Record t : Type := mk {
  Error : string;
  Message : string
}.
End HuggingFaceError.

(** An outgoing [*http.Request]. *)
Module Request.
Record t : Type := mk {
  Method : string;
  URL : string;
  Header : gmap string string;
  Body : string
}.
Definition Header_Set (key val : string) (r : t) : t :=
  mk (Method r) (URL r) (<[key := val]> (Header r)) (Body r).
End Request.

(** ** The outside world *)

(** The library functions the service calls and the repository does not
    define.  [url_Parse] is the one way
    [http.NewRequestWithContext(ctx, "POST", url, body)] fails for a
    non-nil context. *)
Record Runtime : Type := {
  json_Marshal : HuggingFaceRequest.t -> result string;
  json_Unmarshal_responses : string -> result (list HuggingFaceResponse.t);
  json_Unmarshal_nested : string -> result (list (list HuggingFaceResponse.t));
  json_Unmarshal_error : string -> result HuggingFaceError.t;
  url_Parse : string -> option error
}.

(** The value of [ctx.Err()] once [ctx.Done()] is closed. *)
Inductive ctxErr : Type := Canceled | DeadlineExceeded.

Definition ctx_Err (c : ctxErr) : error :=
  match c with
  | Canceled => context_Canceled
  | DeadlineExceeded => context_DeadlineExceeded
  end.

(** Which case of the [select] before a retry is taken. *)
Inductive SelectOutcome : Type :=
| TimerFired
| CtxDone (c : ctxErr).

(** What one call of [s.httpClient.Do] followed by [io.ReadAll] gives. *)
Inductive DoOutcome : Type :=
| DoFailed (err : error)
| ReadFailed (StatusCode : Z) (err : error)
| Responded (StatusCode : Z) (body : string).

(** The answers of the outside to one call of the service: the upstream
    and the context, by attempt number, and the successive readings of
    the clock in nanoseconds. *)
Record World : Type := {
  Do : Z -> DoOutcome;
  Select : Z -> SelectOutcome;
  Now : nat -> Z
}.

Inductive LogLevel : Type := DebugLevel | InfoLevel | WarnLevel | ErrorLevel.

(** What the service does to the outside, in order. *)
Inductive Event : Type :=
| Logged (level : LogLevel) (message : string) (fields : gmap string value)
| Waited (d : Z)        (* the retry delay elapsed *)
| Interrupted (d : Z)   (* the context was done before the delay elapsed *)
| Sent (req : Request.t).

Definition is_Sent (e : Event) : bool :=
  match e with Sent _ => true | _ => false end.

(** Number of HTTP attempts in a trace. *)
Definition attempts (tr : list Event) : nat := length (filter is_Sent tr).

(** One pass through the body of the retry loop ends in one of three ways. *)
Inductive Step : Type :=
| Return (ev : list Event) (body : string) (err : option error)
| Continue (ev : list Event) (lastErr : error)
| Break (ev : list Event) (lastErr : error).

Module HuggingFaceService.
Record t : Type := mk {
  config : HuggingFaceConfig.t
}.
End HuggingFaceService.

Section Service.

Variable rt : Runtime.
Variable s : HuggingFaceService.t.

Local Abbreviation cfg := (HuggingFaceService.config s).

(** [http.NewRequestWithContext(ctx, "POST", url, bytes.NewBuffer(requestBody))] *)
Definition NewRequest (url requestBody : string) : result Request.t :=
  match url_Parse rt url with
  | Some e => Err e
  | None => Ok (Request.mk "POST" url ∅ requestBody)
  end.

Definition setHeaders (httpReq : Request.t) : Request.t :=
  Request.Header_Set "User-Agent" "go-ai-huggingface/1.0"
    (Request.Header_Set "Content-Type" "application/json"
      (Request.Header_Set "Authorization" ("Bearer " +:+ HuggingFaceConfig.APIKey cfg)
        httpReq)).

(** The error built from a response whose status is not 200. *)
Definition apiError (StatusCode : Z) (body : string) : error :=
  match json_Unmarshal_error rt body with
  | Ok hfError =>
      Errorf ("API error (" +:+ pretty StatusCode +:+ "): "
              +:+ HuggingFaceError.Error hfError +:+ " - "
              +:+ HuggingFaceError.Message hfError)
  | Err _ =>
      Errorf ("API error (" +:+ pretty StatusCode +:+ "): " +:+ body)
  end.

Definition retryEvents (modelName : string) (attempt : Z) : list Event :=
  if 0 <? attempt then
    [ Waited (HuggingFaceConfig.RetryDelay cfg);
      Logged InfoLevel "Retrying request"
        (<["attempt" := VInt attempt]> (<["model" := VString modelName]> ∅)) ]
  else [].

(** The body of [for attempt := 0; attempt <= s.config.RetryAttempts; attempt++]. *)
Definition iteration (w : World) (modelName url requestBody : string)
    (attempt : Z) : Step :=
  match (if 0 <? attempt then Select w attempt else TimerFired) with
  | CtxDone c =>
      Return [Interrupted (HuggingFaceConfig.RetryDelay cfg)] "" (Some (ctx_Err c))
  | TimerFired =>
      let pre := retryEvents modelName attempt in
      match NewRequest url requestBody with
      | Err e => Return pre "" (Some (Wrapf "failed to create request: " e))
      | Ok httpReq =>
          let ev := pre ++ [Sent (setHeaders httpReq)] in
          match Do w attempt with
          | DoFailed e => Continue ev (Wrapf "HTTP request failed: " e)
          | ReadFailed _ e => Continue ev (Wrapf "failed to read response: " e)
          | Responded StatusCode body =>
              if StatusCode =? 200 then Return ev body None
              else
                let lastErr := apiError StatusCode body in
                if (400 <=? StatusCode) && (StatusCode <? 500)
                then Break ev lastErr
                else Continue ev lastErr
          end
      end
  end.

(** The retry loop from [attempt] on; [None] when [fuel] passes do not
    reach the end of the loop. *)
Fixpoint retryLoop (fuel : nat) (w : World) (modelName url requestBody : string)
    (attempt : Z) (lastErr : option error)
    : option (list Event * (string * option error)) :=
  match fuel with
  | O => None
  | S fuel' =>
      if attempt <=? HuggingFaceConfig.RetryAttempts cfg then
        match iteration w modelName url requestBody attempt with
        | Return ev body err => Some (ev, (body, err))
        | Break ev e => Some (ev, ("", Some e))
        | Continue ev e =>
            match retryLoop fuel' w modelName url requestBody
                    (GoInt.add attempt 1) (Some e) with
            | Some (tr, r) => Some (ev ++ tr, r)
            | None => None
            end
        end
      else Some ([], ("", lastErr))
  end.

(** [func (s *HuggingFaceService) makeRequest(ctx, modelName, req) ([]byte, error)] *)
Definition makeRequest (fuel : nat) (w : World) (modelName : string)
    (req : HuggingFaceRequest.t)
    : option (list Event * (string * option error)) :=
  match json_Marshal rt req with
  | Err e => Some ([], ("", Some (Wrapf "failed to marshal request: " e)))
  | Ok requestBody =>
      let url := HuggingFaceConfig.BaseURL cfg +:+ "/models/" +:+ modelName in
      match NewRequest url requestBody with
      | Err e => Some ([], ("", Some (Wrapf "failed to create request: " e)))
      | Ok _ => retryLoop fuel w modelName url requestBody 0 None
      end
  end.

(** The [Parameters] literal of [hfReq] in [GenerateText]. *)
Definition baseParameters (req : AIRequest.t) : gmap string value :=
  <["max_new_tokens" := VInt (AIRequest.MaxTokens req)]>
    (<["temperature" := VFloat32 (AIRequest.Temperature req)]>
      (<["top_p" := VFloat32 (AIRequest.TopP req)]> ∅)).

(** The [Options] literal of [hfReq] in [GenerateText]. *)
Definition baseOptions : gmap string value :=
  <["wait_for_model" := VBool true]> ∅.

(** [for k, v := range extra { params[k] = v }] *)
Definition mergeParameters (params extra : gmap string value) : gmap string value :=
  map_fold (fun k v params => <[k := v]> params) params extra.

(** The upstream payload of a generation request: the [hfReq] literal of
    [GenerateText] followed by the loop that merges [req.Parameters]. *)
Definition generationPayload (req : AIRequest.t) : HuggingFaceRequest.t :=
  HuggingFaceRequest.mk (AIRequest.Prompt req)
    (mergeParameters (baseParameters req) (AIRequest.Parameters req))
    baseOptions.

(** The parameters as the specification words them: the same overlay, on
    a base set that also holds [wait_for_model: true]. *)
Definition specParameters (req : AIRequest.t) : gmap string value :=
  AIRequest.Parameters req
  ∪ <["wait_for_model" := VBool true]> (baseParameters req).

(** [(len(req.Prompt) + len(generatedText)) / 4] *)
Definition estimate (prompt generatedText : string) : Z :=
  GoInt.div (GoInt.add (len prompt) (len generatedText)) 4.

(** [for i, hfResp := range hfResponses], from index [i] on. *)
Fixpoint fillChoices (prompt : string) (hfResponses : list HuggingFaceResponse.t)
    (i : nat) (choices : list Choice.t) (totalTokens : Z) : list Choice.t * Z :=
  match hfResponses with
  | [] => (choices, totalTokens)
  | hfResp :: rest =>
      let generatedText :=
        GoStrings.TrimPrefix (HuggingFaceResponse.GeneratedText hfResp) prompt in
      fillChoices prompt rest (S i)
        (<[i := Choice.mk (Z.of_nat i) generatedText "stop" None]> choices)
        (GoInt.add totalTokens (estimate prompt generatedText))
  end.

(** [time.Since(startTime).Milliseconds()] for two clock readings. *)
Definition Milliseconds (startTime now : Z) : Z := Z.quot (now - startTime) 1000000.

(** [func (s *HuggingFaceService) GenerateText(ctx, req)], returning a [model.AIResponse] or an error. *)
Definition GenerateText (fuel : nat) (w : World) (req : AIRequest.t)
    : option (list Event * result AIResponse.t) :=
  match Validate req with
  | Some err => Some ([], Err (Validation err))
  | None =>
      let prompt := AIRequest.Prompt req in
      let startTime := Now w 0 in
      let started :=
        Logged InfoLevel "Starting text generation"
          (<["request_id" := VString (AIRequest.ID req)]>
            (<["model" := VString (AIRequest.Model req)]>
              (<["prompt" :=
                   VString (slice_to (Nat.min (String.length prompt) 100) prompt
                            +:+ "...")]> ∅))) in
      match makeRequest fuel w (AIRequest.Model req) (generationPayload req) with
      | None => None
      | Some (tr, (_, Some err)) =>
          Some (started :: tr ++
                [Logged ErrorLevel "Failed to generate text"
                   (<["request_id" := VString (AIRequest.ID req)]>
                     (<["error" := VString (Error err)]> ∅))],
                Err err)
      | Some (tr, (response, None)) =>
          let processingMs := Milliseconds startTime (Now w 1) in
          match json_Unmarshal_responses rt response with
          | Err err => Some (started :: tr, Err (Wrapf "failed to parse response: " err))
          | Ok [] => Some (started :: tr, Err (Errorf "no response generated"))
          | Ok hfResponses =>
              let '(choices, totalTokens) :=
                fillChoices prompt hfResponses 0
                  (replicate (length hfResponses) Choice.zero) 0 in
              let usage :=
                Usage.mk (GoInt.div (len prompt) 4)
                         (GoInt.sub totalTokens (GoInt.div (len prompt) 4))
                         totalTokens in
              Some (started :: tr ++
                    [Logged InfoLevel "Text generation completed"
                       (<["request_id" := VString (AIRequest.ID req)]>
                         (<["processing_ms" := VInt64 processingMs]>
                           (<["total_tokens" := VInt totalTokens]> ∅)))],
                    Ok (AIResponse.mk (AIRequest.ID req) (AIRequest.Model req)
                          choices usage (Now w 2) processingMs))
          end
      end
  end.

(** [func (s *HuggingFaceService) GenerateCompletion(ctx, req)], returning a [model.AIResponse] or an error. *)
Definition GenerateCompletion (fuel : nat) (w : World) (req : AIRequest.t)
    : option (list Event * result AIResponse.t) :=
  GenerateText fuel w req.

(** [modelName] and [hfReq] of [AnalyzeSentiment]. *)
Definition sentimentModel : string :=
  "cardiffnlp/twitter-roberta-base-sentiment-latest".
Definition sentimentPayload (text : string) : HuggingFaceRequest.t :=
  HuggingFaceRequest.mk text ∅ ∅.

(** [modelName] and [hfReq] of [SummarizeText]. *)
Definition summarizationModel : string := "facebook/bart-large-cnn".
Definition summaryPayload (text : string) (maxLength : Z) : HuggingFaceRequest.t :=
  HuggingFaceRequest.mk text
    (<["max_length" := VInt maxLength]>
      (<["min_length" := VInt (GoInt.div maxLength 4)]> ∅))
    ∅.

(** [for _, result := range hfResponses[0]] with [bestResult] as the state. *)
Definition scanBest (bestResult : HuggingFaceResponse.t)
    (results : list HuggingFaceResponse.t) : HuggingFaceResponse.t :=
  foldl (fun bestResult result =>
           if Qgtb (HuggingFaceResponse.Score result)
                   (HuggingFaceResponse.Score bestResult)
           then result else bestResult)
        bestResult results.

(** [func (s *HuggingFaceService) AnalyzeSentiment(ctx, text)], returning a [model.SentimentResponse] or an error. *)
Definition AnalyzeSentiment (fuel : nat) (w : World) (text : string)
    : option (list Event * result SentimentResponse.t) :=
  let started :=
    Logged InfoLevel "Starting sentiment analysis"
      (<["text_length" := VInt (len text)]> ∅) in
  match makeRequest fuel w sentimentModel (sentimentPayload text) with
  | None => None
  | Some (tr, (_, Some err)) => Some (started :: tr, Err err)
  | Some (tr, (response, None)) =>
      match json_Unmarshal_nested rt response with
      | Err err =>
          Some (started :: tr, Err (Wrapf "failed to parse sentiment response: " err))
      | Ok [] => Some (started :: tr, Err (Errorf "no sentiment analysis result"))
      | Ok ([] :: _) => Some (started :: tr, Err (Errorf "no sentiment analysis result"))
      | Ok ((first :: _) as results :: _) =>
          let bestResult := scanBest first results in
          Some (started :: tr,
                Ok (SentimentResponse.mk text
                      (HuggingFaceResponse.Label bestResult)
                      (HuggingFaceResponse.Score bestResult)
                      (HuggingFaceResponse.Score bestResult)))
      end
  end.

(** [float64(len(x))] *)
Definition float64_of_len (x : string) : float :=
  PrimFloat.of_uint63 (Uint63.of_Z (len x)).

(** [func (s *HuggingFaceService) SummarizeText(ctx, text, maxLength)], returning a [model.SummaryResponse] or an error. *)
Definition SummarizeText (fuel : nat) (w : World) (text : string) (maxLength : Z)
    : option (list Event * result SummaryResponse.t) :=
  let started :=
    Logged InfoLevel "Starting text summarization"
      (<["text_length" := VInt (len text)]>
        (<["max_length" := VInt maxLength]> ∅)) in
  match makeRequest fuel w summarizationModel (summaryPayload text maxLength) with
  | None => None
  | Some (tr, (_, Some err)) => Some (started :: tr, Err err)
  | Some (tr, (response, None)) =>
      match json_Unmarshal_responses rt response with
      | Err err =>
          Some (started :: tr,
                Err (Wrapf "failed to parse summarization response: " err))
      | Ok [] => Some (started :: tr, Err (Errorf "no summarization result"))
      | Ok (first :: _) =>
          let summary := HuggingFaceResponse.SummaryText first in
          let compression :=
            PrimFloat.div (float64_of_len summary) (float64_of_len text) in
          Some (started :: tr, Ok (SummaryResponse.mk text summary compression))
      end
  end.

End Service.

(** ** Concrete runtimes and worlds, for the examples *)

(** A runtime whose decoders yield the given values whatever the body,
    which marshals a request to its inputs and accepts every URL. *)
Definition fixed_runtime
    (responses : result (list HuggingFaceResponse.t))
    (nested : result (list (list HuggingFaceResponse.t))) : Runtime :=
  {| json_Marshal := fun req => Ok (HuggingFaceRequest.Inputs req);
     json_Unmarshal_responses := fun _ => responses;
     json_Unmarshal_nested := fun _ => nested;
     json_Unmarshal_error := fun _ => Err (Foreign "invalid character");
     url_Parse := fun _ => None |}.

(** A world whose upstream answers every attempt alike, whose context is
    never done and whose clock advances one millisecond per reading. *)
Definition steady_world (o : DoOutcome) : World :=
  {| Do := fun _ => o;
     Select := fun _ => TimerFired;
     Now := fun n => Z.of_nat n * 1000000 |}.

(** The same upstream under a context that is done at the wait before
    attempt [k]. *)
Definition cancelled_world (o : DoOutcome) (k : Z) (c : ctxErr) : World :=
  {| Do := fun _ => o;
     Select := fun attempt => if attempt =? k then CtxDone c else TimerFired;
     Now := fun n => Z.of_nat n * 1000000 |}.

Definition demo_service (retryAttempts : Z) : HuggingFaceService.t :=
  HuggingFaceService.mk
    (HuggingFaceConfig.mk "hf_key" "https://api-inference.huggingface.co" "gpt2"
       30000000000 retryAttempts 1000000000 100 (7 # 10) 60 10000).

Definition demo_request (prompt : string) (temperature : Q)
    (parameters : gmap string value) : AIRequest.t :=
  AIRequest.mk "req-1" "gpt2" prompt 10 temperature (9 # 10) parameters 0.

Definition generated (text : string) : HuggingFaceResponse.t :=
  HuggingFaceResponse.mk text 0 "" "".

Definition labelled (label : string) (score : Q) : HuggingFaceResponse.t :=
  HuggingFaceResponse.mk "" score label "".

Definition summarized (text : string) : HuggingFaceResponse.t :=
  HuggingFaceResponse.mk "" 0 "" text.

(** ** Closed forms of the loops, used to state their results *)

(** The text of a choice: the generated text after [strings.TrimPrefix]. *)
Definition trimmed (prompt : string) (hfResp : HuggingFaceResponse.t) : string :=
  GoStrings.TrimPrefix (HuggingFaceResponse.GeneratedText hfResp) prompt.

(** The choice the loop of [GenerateText] stores at index [i]. *)
Definition choiceOf (prompt : string) (i : nat) (hfResp : HuggingFaceResponse.t)
    : Choice.t :=
  Choice.mk (Z.of_nat i) (trimmed prompt hfResp) "stop" None.

(** The running [totalTokens] after the loop of [GenerateText]. *)
Definition totalFrom (prompt : string) (totalTokens : Z)
    (hfResponses : list HuggingFaceResponse.t) : Z :=
  foldl (fun t hfResp => GoInt.add t (estimate prompt (trimmed prompt hfResp)))
        totalTokens hfResponses.

Definition Zsum (l : list Z) : Z := foldr Z.add 0 l.

(** Characters counted by the token estimate of a response: prompt plus
    choice text, over all choices. *)
Definition countedChars (prompt : string) (choices : list Choice.t) : Z :=
  Zsum ((fun c => len prompt + len (Choice.Text c)) <$> choices).

(** The token estimate over mathematical integers: the sum over all
    choices of floor((len(prompt) + len(choice text)) / 4). *)
Definition estimatedTokens (prompt : string) (choices : list Choice.t) : Z :=
  Zsum ((fun c => (len prompt + len (Choice.Text c)) / 4) <$> choices).

Local Abbreviation score := HuggingFaceResponse.Score.

(** ** The retry loop, attempt by attempt *)

(** [fmt.Sprintf("%s/models/%s", s.config.BaseURL, modelName)] *)
Definition modelURL (s : HuggingFaceService.t) (modelName : string) : string :=
  HuggingFaceConfig.BaseURL (HuggingFaceService.config s) +:+ "/models/" +:+ modelName.

(** What attempt number [attempt] does to the outside when it reaches
    [s.httpClient.Do]: for a retry, the wait and the log line; then the
    request. *)
Definition attemptEvents (s : HuggingFaceService.t)
    (modelName url requestBody : string) (attempt : Z) : list Event :=
  retryEvents s modelName attempt
  ++ [Sent (setHeaders s (Request.mk "POST" url ∅ requestBody))].

(** The events of [n] consecutive attempts, the first numbered [from]. *)
Fixpoint attemptsTrace (s : HuggingFaceService.t)
    (modelName url requestBody : string) (from : Z) (n : nat) : list Event :=
  match n with
  | O => []
  | S n' =>
      attemptEvents s modelName url requestBody from
      ++ attemptsTrace s modelName url requestBody (from + 1) n'
  end.

(** The value [lastErr] takes in an attempt with outcome [o]; none for a
    200 response. *)
Definition failure (rt : Runtime) (o : DoOutcome) : option error :=
  match o with
  | DoFailed e => Some (Wrapf "HTTP request failed: " e)
  | ReadFailed _ e => Some (Wrapf "failed to read response: " e)
  | Responded StatusCode body =>
      if StatusCode =? 200 then None else Some (apiError rt StatusCode body)
  end.

(** The outcomes after which the loop goes on to the next attempt. *)
Definition retried (o : DoOutcome) : bool :=
  match o with
  | DoFailed _ | ReadFailed _ _ => true
  | Responded StatusCode _ =>
      negb (StatusCode =? 200)
      && negb ((400 <=? StatusCode) && (StatusCode <? 500))
  end.

(** The retryable outcomes as the specification words them: a
    network-level failure, or an HTTP status that is neither 2xx nor in
    [400,500). *)
Definition retryable (o : DoOutcome) : bool :=
  match o with
  | DoFailed _ | ReadFailed _ _ => true
  | Responded StatusCode _ =>
      negb ((200 <=? StatusCode) && (StatusCode <? 300))
      && negb ((400 <=? StatusCode) && (StatusCode <? 500))
  end.

(** [lastErr] after [n] retried attempts numbered from [from] on. *)
Definition lastErrAfter (rt : Runtime) (w : World) (lastErr : option error)
    (from : Z) (n : nat) : option error :=
  match n with
  | O => lastErr
  | S m => failure rt (Do w (from + Z.of_nat m))
  end.

(** ** More of the retry loop: what a pass does, once the URL parses *)



Definition stepEvents (st : Step) : list Event :=
  match st with
  | Return ev _ _ => ev
  | Continue ev _ => ev
  | Break ev _ => ev
  end.

(** The part of [iteration] after [s.httpClient.Do]: how the pass ends for
    each outcome of the exchange. *)
Definition outcomeStep (rt : Runtime) (ev : list Event) (o : DoOutcome) : Step :=
  match o with
  | DoFailed e => Continue ev (Wrapf "HTTP request failed: " e)
  | ReadFailed _ e => Continue ev (Wrapf "failed to read response: " e)
  | Responded StatusCode body =>
      if StatusCode =? 200 then Return ev body None
      else if (400 <=? StatusCode) && (StatusCode <? 500)
           then Break ev (apiError rt StatusCode body)
           else Continue ev (apiError rt StatusCode body)
  end.


(** The request every attempt sends. *)
Definition sentRequest (s : HuggingFaceService.t) (url requestBody : string)
    : Request.t :=
  setHeaders s (Request.mk "POST" url ∅ requestBody).

(** ** [ValidateModel] *)

Definition supportedModels : list string :=
  [ "gpt2"; "gpt2-medium"; "gpt2-large"; "gpt2-xl";
    "microsoft/DialoGPT-medium"; "microsoft/DialoGPT-large";
    "facebook/bart-large-cnn"; "cardiffnlp/twitter-roberta-base-sentiment-latest" ].

(** [func (s *HuggingFaceService) ValidateModel(modelName string) error];
    the loop over [supportedModels] is [existsb]. *)
Definition ValidateModel (modelName : string) : list Event * option error :=
  if String.eqb modelName "" then
    ([], Some (Errorf "model name cannot be empty"))
  else if existsb (String.eqb modelName) supportedModels then ([], None)
  else
    ([Logged WarnLevel "Using unvalidated model"
        (<["model" := VString modelName]> ∅)],
     None).

Definition demo_runtime : Runtime := fixed_runtime (Ok []) (Ok []).

Definition demo_payload : HuggingFaceRequest.t := HuggingFaceRequest.mk "Hi" ∅ ∅.

(** A world whose upstream answers attempt [k] with [final] and every
    other attempt with [o], under a context that is never done. *)
Definition recovering_world (o : DoOutcome) (k : Z) (final : DoOutcome) : World :=
  {| Do := fun attempt => if attempt =? k then final else o;
     Select := fun _ => TimerFired;
     Now := fun n => Z.of_nat n * 1000000 |}.

(** ** [internal/handler]: the rate limiter

    The closure of [RateLimiter] owns one map from client address to the
    times of the requests it let through, guarded by a mutex: requests
    are served one after the other on that map.  A [time.Time] is a
    number of nanoseconds; [now.Sub(t)] is the difference (times less
    than 292 years apart, where Go does not saturate). *)

(** [time.Minute] *)
Definition Minute : Z := 60 * 1000000000.

(** The loop that keeps the times less than a minute old. *)
Fixpoint validTimes (now : Z) (times : list Z) : list Z :=
  match times with
  | [] => []
  | t :: rest =>
      if now - t <? Minute then t :: validTimes now rest else validTimes now rest
  end.

(** [requests[clientIP]]: a missing key reads as the nil slice. *)
Definition timesOf (requests : gmap string (list Z)) (clientIP : string) : list Z :=
  default [] (requests !! clientIP).

(** The critical section of the middleware returned by
    [RateLimiter(requestsPerMinute)], for a request from [clientIP] read
    at [now]: the map afterwards, and whether [next] is called. *)
Definition rateLimit (requestsPerMinute : Z) (requests : gmap string (list Z))
    (clientIP : string) (now : Z) : gmap string (list Z) * bool :=
  let requests :=
    match requests !! clientIP with
    | Some times => <[clientIP := validTimes now times]> requests
    | None => requests
    end in
  if requestsPerMinute <=? Z.of_nat (length (timesOf requests clientIP)) then
    (requests, false)
  else
    (<[clientIP := timesOf requests clientIP ++ [now]]> requests, true).

(** Requests served one after the other on the shared map; each is a
    client address and the time read for it. *)
Fixpoint serveAll (requestsPerMinute : Z) (requests : gmap string (list Z))
    (arrivals : list (string * Z)) : gmap string (list Z) * list bool :=
  match arrivals with
  | [] => (requests, [])
  | (clientIP, now) :: rest =>
      let '(requests', ok) := rateLimit requestsPerMinute requests clientIP now in
      let '(final, oks) := serveAll requestsPerMinute requests' rest in
      (final, ok :: oks)
  end.

(** The times of the requests of [clientIP] that were let through. *)
Fixpoint allowedTimes (clientIP : string) (arrivals : list (string * Z))
    (oks : list bool) : list Z :=
  match arrivals, oks with
  | (c, now) :: rest, ok :: oks' =>
      if ok && String.eqb c clientIP
      then now :: allowedTimes clientIP rest oks'
      else allowedTimes clientIP rest oks'
  | _, _ => []
  end.

(** The decisions taken for the requests of [clientIP]. *)
Fixpoint decisionsFor (clientIP : string) (arrivals : list (string * Z))
    (oks : list bool) : list bool :=
  match arrivals, oks with
  | (c, _) :: rest, ok :: oks' =>
      if String.eqb c clientIP
      then ok :: decisionsFor clientIP rest oks'
      else decisionsFor clientIP rest oks'
  | _, _ => []
  end.

(** The requests of [clientIP] alone. *)
Fixpoint arrivalsOf (clientIP : string) (arrivals : list (string * Z))
    : list (string * Z) :=
  match arrivals with
  | [] => []
  | (c, now) :: rest =>
      if String.eqb c clientIP
      then (c, now) :: arrivalsOf clientIP rest
      else arrivalsOf clientIP rest
  end.

(** ** [internal/handler]: the HTTP handlers

    A handler writes to a response writer and calls the logger and the
    AI service.  The response writer is modelled as a recorder: its
    header map, the status sent by the first [WriteHeader], and the
    values handed to [json.NewEncoder(w).Encode] that were written.  The
    context is the map of its values.  Decoding, encoding and
    [uuid.New] belong to libraries and are read from an environment. *)

(** What is handed to [Encode]. *)
Inductive Payload : Type :=
| PError (e : ErrorResponse.t)
| PGeneration (r : AIResponse.t)
| PSentiment (r : SentimentResponse.t)
| PSummary (r : SummaryResponse.t)
| PObject (fields : gmap string value).

Module ResponseWriter.
Record t : Type := mk {
  Header : gmap string string;
  StatusCode : option Z;
  Body : list Payload
}.
Definition fresh : t := mk ∅ None [].
Definition Header_Set (key val : string) (w : t) : t :=
  mk (<[key := val]> (Header w)) (StatusCode w) (Body w).
(** Only the first call sends a status. *)
Definition WriteHeader (code : Z) (w : t) : t :=
  match StatusCode w with
  | Some _ => w
  | None => mk (Header w) (Some code) (Body w)
  end.
(** A write before any [WriteHeader] sends status 200. *)
Definition Write (data : Payload) (w : t) : t :=
  mk (Header w)
     (match StatusCode w with Some code => Some code | None => Some 200 end)
     (Body w ++ [data]).
End ResponseWriter.

Module HTTPRequest.
Record t : Type := mk {
  Method : string;
  Path : string;
  RemoteAddr : string;
  Query : gmap string string;
  Context : gmap string value;
  Body : string
}.
(** [r.URL.Query().Get(key)] *)
Definition Query_Get (key : string) (r : t) : string := default "" (Query r !! key).
(** [r.WithContext(ctx)] *)
Definition WithContext (ctx : gmap string value) (r : t) : t :=
  mk (Method r) (Path r) (RemoteAddr r) (Query r) ctx (Body r).
End HTTPRequest.

(** A call of a method of [model.AIService]. *)
Inductive Call : Type :=
| CallGenerateText (req : AIRequest.t)
| CallGenerateCompletion (req : AIRequest.t)
| CallAnalyzeSentiment (text : string)
| CallSummarizeText (text : string) (maxLength : Z)
| CallValidateModel (modelName : string).

(** What a handler does, in order: log lines (with the context they are
    given), calls of the service, and what the service did meanwhile. *)
Inductive HEvent : Type :=
| HLogged (ctx : gmap string value) (level : LogLevel) (message : string)
          (fields : gmap string value)
| Called (c : Call)
| Service (e : Event).

(** The interface [model.AIService]; [None] is a call that does not
    return within the fuel of the implementation. *)
Record AIService : Type := {
  svc_GenerateText :
    gmap string value -> AIRequest.t -> option (list Event * result AIResponse.t);
  svc_GenerateCompletion :
    gmap string value -> AIRequest.t -> option (list Event * result AIResponse.t);
  svc_AnalyzeSentiment :
    gmap string value -> string -> option (list Event * result SentimentResponse.t);
  svc_SummarizeText :
    gmap string value -> string -> Z
    -> option (list Event * result SummaryResponse.t);
  svc_ValidateModel : string -> list Event * option error
}.

(** [HuggingFaceService] as an [AIService]. *)
Definition huggingFace (rt : Runtime) (s : HuggingFaceService.t) (fuel : nat)
    (w : World) : AIService :=
  {| svc_GenerateText := fun _ req => GenerateText rt s fuel w req;
     svc_GenerateCompletion := fun _ req => GenerateCompletion rt s fuel w req;
     svc_AnalyzeSentiment := fun _ text => AnalyzeSentiment rt s fuel w text;
     svc_SummarizeText :=
       fun _ text maxLength => SummarizeText rt s fuel w text maxLength;
     svc_ValidateModel := ValidateModel |}.

Module AIHandler.

(** The libraries and the clock, as one request sees them.  The values
    of [uuid.New().String()] are numbered by the place that draws them:
    0 in [setRequestID], 1 for the id of a generation request. *)
Record Env : Type := {
  decode_AIRequest : string -> result AIRequest.t;
  decode_Text : string -> result string;
  decode_TextMaxLength : string -> result (string * Z);
  json_Encode : Payload -> option error;
  uuid_New : nat -> string;
  time_Now : Z
}.

Section Handlers.

Variable env : Env.
Variable aiService : AIService.

(** [func (h *AIHandler) setRequestID(ctx context.Context) context.Context] *)
Definition setRequestID (ctx : gmap string value) : gmap string value :=
  match ctx !! "request_id" with
  | Some (VString id) =>
      if String.eqb id "" then <["request_id" := VString (uuid_New env 0)]> ctx
      else ctx
  | _ => <["request_id" := VString (uuid_New env 0)]> ctx
  end.

(** [json.NewEncoder(w).Encode(data)]: the error, and the writer after. *)
Definition encode (data : Payload) (w : ResponseWriter.t)
    : option error * ResponseWriter.t :=
  match json_Encode env data with
  | None => (None, ResponseWriter.Write data w)
  | Some err => (Some err, w)
  end.

(** [func (h *AIHandler) handleError(ctx, w, errResp)] *)
Definition handleError (ctx : gmap string value) (w : ResponseWriter.t)
    (errResp : ErrorResponse.t) : list HEvent * ResponseWriter.t :=
  ([HLogged ctx ErrorLevel "Request error"
      (<["error_code" := VInt (ErrorResponse.Code errResp)]>
        (<["error_message" := VString (ErrorResponse.Message errResp)]>
          (<["error_type" := VString (ErrorResponse.Type_ errResp)]> ∅)))],
   snd (encode (PError errResp)
          (ResponseWriter.WriteHeader (ErrorResponse.Code errResp)
             (ResponseWriter.Header_Set "Content-Type" "application/json" w)))).

(** [func (h *AIHandler) sendJSONResponse(ctx, w, statusCode, data)] *)
Definition sendJSONResponse (ctx : gmap string value) (w : ResponseWriter.t)
    (statusCode : Z) (data : Payload) : list HEvent * ResponseWriter.t :=
  match encode data
          (ResponseWriter.WriteHeader statusCode
             (ResponseWriter.Header_Set "Content-Type" "application/json" w)) with
  | (None, w') => ([], w')
  | (Some err, w') =>
      ([HLogged ctx ErrorLevel "Failed to encode JSON response"
          (<["error" := VString (Error err)]> ∅)], w')
  end.

(** The failure of a service call: the log line, then [handleError] with
    status 500. *)
Definition serviceFailed (ctx : gmap string value) (w : ResponseWriter.t)
    (message : string) (err : error) : list HEvent * ResponseWriter.t :=
  let '(ev, w') :=
    handleError ctx w
      (ErrorResponse.mk 500 message "service_error" (VString (Error err))) in
  (HLogged ctx ErrorLevel message (<["error" := VString (Error err)]> ∅) :: ev, w').

Definition invalidJSON (err : error) : ErrorResponse.t :=
  ErrorResponse.mk 400 ("Invalid JSON: " +:+ Error err) "validation_error" VNil.

(** The body shared by [GenerateText] and [GenerateCompletion], which
    differ by their messages and by the method they call. *)
Definition generation (received failed : string) (call : AIRequest.t -> Call)
    (method : gmap string value -> AIRequest.t
              -> option (list Event * result AIResponse.t))
    (w : ResponseWriter.t) (r : HTTPRequest.t)
    : option (list HEvent * ResponseWriter.t) :=
  let ctx := setRequestID (HTTPRequest.Context r) in
  let received := HLogged ctx InfoLevel received ∅ in
  match decode_AIRequest env (HTTPRequest.Body r) with
  | Err err =>
      let '(ev, w') := handleError ctx w (invalidJSON err) in
      Some (received :: ev, w')
  | Ok req =>
      let req :=
        AIRequest.mk
          (if String.eqb (AIRequest.ID req) "" then uuid_New env 1
           else AIRequest.ID req)
          (AIRequest.Model req) (AIRequest.Prompt req) (AIRequest.MaxTokens req)
          (AIRequest.Temperature req) (AIRequest.TopP req)
          (AIRequest.Parameters req) (time_Now env) in
      match Validate req with
      | Some errResp =>
          let '(ev, w') := handleError ctx w errResp in
          Some (received :: ev, w')
      | None =>
          match method ctx req with
          | None => None
          | Some (sev, Err err) =>
              let '(ev, w') := serviceFailed ctx w failed err in
              Some (received :: Called (call req) :: (Service <$> sev) ++ ev, w')
          | Some (sev, Ok response) =>
              let '(ev, w') := sendJSONResponse ctx w 200 (PGeneration response) in
              Some (received :: Called (call req) :: (Service <$> sev) ++ ev, w')
          end
      end
  end.

(** [func (h *AIHandler) GenerateText(w http.ResponseWriter, r *http.Request)] *)
Definition GenerateText : ResponseWriter.t -> HTTPRequest.t
                          -> option (list HEvent * ResponseWriter.t) :=
  generation "Received text generation request" "Failed to generate text"
    CallGenerateText (svc_GenerateText aiService).

(** [func (h *AIHandler) GenerateCompletion(w http.ResponseWriter, r *http.Request)] *)
Definition GenerateCompletion : ResponseWriter.t -> HTTPRequest.t
                                -> option (list HEvent * ResponseWriter.t) :=
  generation "Received completion request" "Failed to generate completion"
    CallGenerateCompletion (svc_GenerateCompletion aiService).

Definition textRequired : ErrorResponse.t :=
  ErrorResponse.mk 400 "Text is required" "validation_error" VNil.

(** [func (h *AIHandler) AnalyzeSentiment(w http.ResponseWriter, r *http.Request)] *)
Definition AnalyzeSentiment (w : ResponseWriter.t) (r : HTTPRequest.t)
    : option (list HEvent * ResponseWriter.t) :=
  let ctx := setRequestID (HTTPRequest.Context r) in
  let received := HLogged ctx InfoLevel "Received sentiment analysis request" ∅ in
  match decode_Text env (HTTPRequest.Body r) with
  | Err err =>
      let '(ev, w') := handleError ctx w (invalidJSON err) in
      Some (received :: ev, w')
  | Ok text =>
      if String.eqb text "" then
        let '(ev, w') := handleError ctx w textRequired in
        Some (received :: ev, w')
      else
        match svc_AnalyzeSentiment aiService ctx text with
        | None => None
        | Some (sev, Err err) =>
            let '(ev, w') := serviceFailed ctx w "Failed to analyze sentiment" err in
            Some (received :: Called (CallAnalyzeSentiment text)
                  :: (Service <$> sev) ++ ev, w')
        | Some (sev, Ok response) =>
            let '(ev, w') := sendJSONResponse ctx w 200 (PSentiment response) in
            Some (received :: Called (CallAnalyzeSentiment text)
                  :: (Service <$> sev) ++ ev, w')
        end
  end.

(** [func (h *AIHandler) SummarizeText(w http.ResponseWriter, r *http.Request)] *)
Definition SummarizeText (w : ResponseWriter.t) (r : HTTPRequest.t)
    : option (list HEvent * ResponseWriter.t) :=
  let ctx := setRequestID (HTTPRequest.Context r) in
  let received := HLogged ctx InfoLevel "Received summarization request" ∅ in
  match decode_TextMaxLength env (HTTPRequest.Body r) with
  | Err err =>
      let '(ev, w') := handleError ctx w (invalidJSON err) in
      Some (received :: ev, w')
  | Ok (text, maxLength) =>
      if String.eqb text "" then
        let '(ev, w') := handleError ctx w textRequired in
        Some (received :: ev, w')
      else
        let maxLength := if maxLength <=? 0 then 130 else maxLength in
        match svc_SummarizeText aiService ctx text maxLength with
        | None => None
        | Some (sev, Err err) =>
            let '(ev, w') := serviceFailed ctx w "Failed to summarize text" err in
            Some (received :: Called (CallSummarizeText text maxLength)
                  :: (Service <$> sev) ++ ev, w')
        | Some (sev, Ok response) =>
            let '(ev, w') := sendJSONResponse ctx w 200 (PSummary response) in
            Some (received :: Called (CallSummarizeText text maxLength)
                  :: (Service <$> sev) ++ ev, w')
        end
  end.

(** [func (h *AIHandler) ValidateModel(w http.ResponseWriter, r *http.Request)] *)
Definition ValidateModel (w : ResponseWriter.t) (r : HTTPRequest.t)
    : option (list HEvent * ResponseWriter.t) :=
  let ctx := setRequestID (HTTPRequest.Context r) in
  let modelName := HTTPRequest.Query_Get "model" r in
  if String.eqb modelName "" then
    Some (handleError ctx w
            (ErrorResponse.mk 400 "Model parameter is required" "validation_error"
               VNil))
  else
    match svc_ValidateModel aiService modelName with
    | (sev, Some err) =>
        let '(ev, w') :=
          handleError ctx w
            (ErrorResponse.mk 400 ("Invalid model: " +:+ Error err)
               "validation_error" VNil) in
        Some (Called (CallValidateModel modelName) :: (Service <$> sev) ++ ev, w')
    | (sev, None) =>
        let '(ev, w') :=
          sendJSONResponse ctx w 200
            (PObject (<["model" := VString modelName]>
                        (<["valid" := VBool true]> ∅))) in
        Some (Called (CallValidateModel modelName) :: (Service <$> sev) ++ ev, w')
    end.

(** [func (h *AIHandler) EnableCORS(next http.Handler) http.Handler] *)
Definition EnableCORS
    (next : ResponseWriter.t -> HTTPRequest.t
            -> option (list HEvent * ResponseWriter.t))
    (w : ResponseWriter.t) (r : HTTPRequest.t)
    : option (list HEvent * ResponseWriter.t) :=
  let w :=
    ResponseWriter.Header_Set "Access-Control-Allow-Headers"
      "Content-Type, Authorization"
      (ResponseWriter.Header_Set "Access-Control-Allow-Methods"
         "GET, POST, PUT, DELETE, OPTIONS"
         (ResponseWriter.Header_Set "Access-Control-Allow-Origin" "*" w)) in
  if String.eqb (HTTPRequest.Method r) "OPTIONS" then
    Some ([], ResponseWriter.WriteHeader 200 w)
  else next w r.

Definition rateLimitExceeded : ErrorResponse.t :=
  ErrorResponse.mk 429 "Rate limit exceeded" "rate_limit_error" VNil.

(** The middleware returned by [RateLimiter(requestsPerMinute)], on the
    map [requests] of its closure, for a request whose time is read as
    [now]. *)
Definition RateLimiter (requestsPerMinute : Z) (requests : gmap string (list Z))
    (now : Z)
    (next : ResponseWriter.t -> HTTPRequest.t
            -> option (list HEvent * ResponseWriter.t))
    (w : ResponseWriter.t) (r : HTTPRequest.t)
    : gmap string (list Z) * option (list HEvent * ResponseWriter.t) :=
  let '(requests', ok) :=
    rateLimit requestsPerMinute requests (HTTPRequest.RemoteAddr r) now in
  if ok then (requests', next w r)
  else (requests', Some (handleError (HTTPRequest.Context r) w rateLimitExceeded)).

End Handlers.

(** The five AI endpoints, as [setupRoutes] registers the handlers. *)
Inductive Endpoint : Type :=
| TextGenerate | TextComplete | TextSentiment | TextSummarize | ModelsValidate.

Definition serve (env : Env) (aiService : AIService) (ep : Endpoint)
    : ResponseWriter.t -> HTTPRequest.t
      -> option (list HEvent * ResponseWriter.t) :=
  match ep with
  | TextGenerate => GenerateText env aiService
  | TextComplete => GenerateCompletion env aiService
  | TextSentiment => AnalyzeSentiment env aiService
  | TextSummarize => SummarizeText env aiService
  | ModelsValidate => ValidateModel env aiService
  end.

End AIHandler.

(** The input a handler may pass to the service. *)
Definition callValid (c : Call) : Prop :=
  match c with
  | CallGenerateText req | CallGenerateCompletion req => Validate req = None
  | CallAnalyzeSentiment text => text <> ""
  | CallSummarizeText text maxLength => text <> "" /\ 0 < maxLength
  | CallValidateModel modelName => modelName <> ""
  end.

Definition is_Called (e : HEvent) : bool :=
  match e with Called _ => true | _ => false end.

(** Number of service calls in a handler's trace. *)
Definition calls (ev : list HEvent) : nat := length (filter is_Called ev).



(** A stub environment: decoders that yield fixed values, an encoder that
    never fails. *)
Definition demo_env (req : result AIRequest.t) (text : result (string * Z))
    : AIHandler.Env :=
  {| AIHandler.decode_AIRequest := fun _ => req;
     AIHandler.decode_Text :=
       fun _ => match text with Ok (t, _) => Ok t | Err e => Err e end;
     AIHandler.decode_TextMaxLength := fun _ => text;
     AIHandler.json_Encode := fun _ => None;
     AIHandler.uuid_New :=
       fun n => if Nat.eqb n 0 then "123e4567-e89b-12d3-a456-426614174000"
                else "9b2f1c1e-0d6a-4c55-8a39-5f0f3c0f7a11";
     AIHandler.time_Now := 1000 |}.

Definition demo_http (method : string) (query : gmap string string)
    : HTTPRequest.t :=
  HTTPRequest.mk method "/v1" "10.0.0.1:4242" query ∅ "{}".

(** A response as the handlers send it: JSON content type, status
    [code], and at most one value written, an error body carrying [code]
    when [code] is not 200, another body when it is. *)
Definition jsonResponse (code : Z) (w : ResponseWriter.t) : Prop :=
  ResponseWriter.Header w = <["Content-Type" := "application/json"]> ∅
  /\ ResponseWriter.StatusCode w = Some code
  /\ (ResponseWriter.Body w = []
      \/ exists p, ResponseWriter.Body w = [p]
                   /\ match p with
                      | PError e => ErrorResponse.Code e = code /\ code <> 200
                      | _ => code = 200
                      end).

(** The outcome of a handler on a fresh writer, in one of three shapes. *)
Inductive Outcome (ep : AIHandler.Endpoint) (ev : list HEvent)
    (w : ResponseWriter.t) : Prop :=
| Refused :
    jsonResponse 400 w -> calls ev = 0%nat \/ ep = AIHandler.ModelsValidate ->
    (calls ev <= 1)%nat -> Outcome ep ev w
| Failed :
    jsonResponse 500 w -> calls ev = 1%nat -> ep <> AIHandler.ModelsValidate ->
    Outcome ep ev w
| Answered : jsonResponse 200 w -> calls ev = 1%nat -> Outcome ep ev w.

(** What a generation handler has done to the request it passes on. *)
Definition stamped (env : AIHandler.Env) (c : Call) : Prop :=
  match c with
  | CallGenerateText req | CallGenerateCompletion req =>
      AIRequest.CreatedAt req = AIHandler.time_Now env
      /\ (AIHandler.uuid_New env 1 <> "" -> AIRequest.ID req <> "")
  | _ => True
  end.

(** The three headers [EnableCORS] sets. *)
Definition corsHeaders (w : ResponseWriter.t) : ResponseWriter.t :=
  ResponseWriter.Header_Set "Access-Control-Allow-Headers"
    "Content-Type, Authorization"
    (ResponseWriter.Header_Set "Access-Control-Allow-Methods"
       "GET, POST, PUT, DELETE, OPTIONS"
       (ResponseWriter.Header_Set "Access-Control-Allow-Origin" "*" w)).

(** ** [pkg/logger]: the structured logger

    [LogLevel] is an int: the constants of the [iota] block are 0 to 3,
    and every other int is a level too.  The destination of a logger is
    modelled by the lines it is given, one per call of [Println] or
    [Printf]; marshalling belongs to [encoding/json] and is read from an
    environment, and the formatted time is an argument. *)

Module Logger.

(** The constants [DebugLevel] ... [ErrorLevel]. *)
Definition levelOf (l : LogLevel) : Z :=
  match l with
  | DebugLevel => 0
  | InfoLevel => 1
  | WarnLevel => 2
  | ErrorLevel => 3
  end.

(** [func (l LogLevel) String() string] *)
Definition LogLevel_String (l : Z) : string :=
  if l =? levelOf DebugLevel then "DEBUG"
  else if l =? levelOf InfoLevel then "INFO"
  else if l =? levelOf WarnLevel then "WARN"
  else if l =? levelOf ErrorLevel then "ERROR"
  else "UNKNOWN".

(** [func ParseLogLevel(level string) LogLevel] *)
Definition ParseLogLevel (level : string) : Z :=
  if String.eqb level "debug" || String.eqb level "DEBUG" then levelOf DebugLevel
  else if String.eqb level "info" || String.eqb level "INFO" then levelOf InfoLevel
  else if String.eqb level "warn" || String.eqb level "WARN"
          || String.eqb level "warning" || String.eqb level "WARNING"
       then levelOf WarnLevel
  else if String.eqb level "error" || String.eqb level "ERROR" then levelOf ErrorLevel
  else levelOf InfoLevel.

Record StructuredLogger : Type := mkLogger {
  level : Z;
  fields : gmap string value;
  structured : bool
}.

Record LogEntry : Type := mkEntry {
  Timestamp : string;
  Level : string;
  Message : string;
  Fields : gmap string value;
  RequestID : string;
  TraceID : string
}.

Record Env : Type := {
  json_MarshalEntry : LogEntry -> result string;
  json_MarshalFields : gmap string value -> result string
}.

(** [func NewLogger(level LogLevel, structured bool) Logger] *)
Definition NewLogger (level : Z) (structured : bool) : StructuredLogger :=
  mkLogger level ∅ structured.

(** [for k, v := range src { dst[k] = v }] *)
Definition copyInto (src dst : gmap string value) : gmap string value :=
  map_fold (fun k v m => <[k := v]> m) dst src.

(** [func (l *StructuredLogger) WithFields(fields) Logger] *)
Definition WithFields (l : StructuredLogger) (new : gmap string value)
    : StructuredLogger :=
  mkLogger (level l) (copyInto new (copyInto (fields l) ∅)) (structured l).

(** [func (l *StructuredLogger) SetLevel(level LogLevel)] *)
Definition SetLevel (l : StructuredLogger) (lvl : Z) : StructuredLogger :=
  mkLogger lvl (fields l) (structured l).

(** [func (l *StructuredLogger) mergeFields(fields)] *)
Definition mergeFields (l : StructuredLogger) (given : gmap string value)
    : gmap string value :=
  copyInto given (copyInto (fields l) ∅).

(** [func getStringFromContext(ctx context.Context, key string) string];
    [None] is the nil context. *)
Definition getStringFromContext (ctx : option (gmap string value)) (key : string)
    : string :=
  match ctx with
  | None => ""
  | Some values =>
      match values !! key with
      | Some (VString str) => str
      | _ => ""
      end
  end.

(** The entry [log] builds before it prints it. *)
Definition entryOf (l : StructuredLogger) (ctx : option (gmap string value))
    (now : string) (lvl : Z) (message : string) (given : gmap string value)
    : LogEntry :=
  let entry := mkEntry now (LogLevel_String lvl) message (mergeFields l given) "" "" in
  match ctx with
  | None => entry
  | Some _ =>
      let entry :=
        let requestID := getStringFromContext ctx "request_id" in
        if negb (String.eqb requestID "")
        then mkEntry (Timestamp entry) (Level entry) (Message entry) (Fields entry)
               requestID (TraceID entry)
        else entry in
      let traceID := getStringFromContext ctx "trace_id" in
      if negb (String.eqb traceID "")
      then mkEntry (Timestamp entry) (Level entry) (Message entry) (Fields entry)
             (RequestID entry) traceID
      else entry
  end.

Section Printing.

Variable env : Env.

(** [func (l *StructuredLogger) logStructured(entry LogEntry)] *)
Definition logStructured (entry : LogEntry) : list string :=
  match json_MarshalEntry env entry with
  | Err err => ["Error marshaling log entry: " +:+ Error err]
  | Ok jsonBytes => [jsonBytes]
  end.

(** [func (l *StructuredLogger) logPlain(entry LogEntry)]; the error of
    marshalling the fields is dropped, the bytes are then nil. *)
Definition logPlain (entry : LogEntry) : list string :=
  let output :=
    "[" +:+ Timestamp entry +:+ "] " +:+ Level entry +:+ ": " +:+ Message entry in
  let output :=
    if negb (String.eqb (RequestID entry) "")
    then output +:+ " [request_id=" +:+ RequestID entry +:+ "]"
    else output in
  let output :=
    if negb (String.eqb (TraceID entry) "")
    then output +:+ " [trace_id=" +:+ TraceID entry +:+ "]"
    else output in
  let output :=
    if (0 <? size (Fields entry))%nat
    then output +:+ " " +:+ match json_MarshalFields env (Fields entry) with
                            | Ok fieldsStr => fieldsStr
                            | Err _ => ""
                            end
    else output in
  [output].

(** [func (l *StructuredLogger) log(ctx, level, message, fields)] *)
Definition log (l : StructuredLogger) (ctx : option (gmap string value))
    (now : string) (lvl : Z) (message : string) (given : gmap string value)
    : list string :=
  let entry := entryOf l ctx now lvl message given in
  if structured l then logStructured entry else logPlain entry.

(** [Debug], [Info], [Warn] and [Error], which differ by their level. *)
Definition logAt (lvl : LogLevel) (l : StructuredLogger)
    (ctx : option (gmap string value)) (now : string) (message : string)
    (given : gmap string value) : list string :=
  if level l <=? levelOf lvl then log l ctx now (levelOf lvl) message given
  else [].

Definition Debug := logAt DebugLevel.
Definition Info := logAt InfoLevel.
Definition Warn := logAt WarnLevel.
Definition Error := logAt ErrorLevel.

End Printing.

End Logger.

(** A stub of the marshaller for the logger. *)
Definition demo_logger_env : Logger.Env :=
  {| Logger.json_MarshalEntry := fun e => Ok (Logger.Message e);
     Logger.json_MarshalFields := fun _ => Ok "{}" |}.

(** * Properties *)

(** ** Arithmetic of Go integers *)

Lemma wrap_in_range (z : Z) : GoInt.in_range z -> GoInt.wrap z = z.
Proof.
  unfold GoInt.in_range, GoInt.wrap, GoInt.min_int, GoInt.max_int.
  intros Hz. rewrite Z.mod_small; lia.
Qed.

Lemma wrap_is_int (z : Z) : GoInt.in_range (GoInt.wrap z).
Proof.
  unfold GoInt.in_range, GoInt.wrap, GoInt.min_int, GoInt.max_int.
  pose proof (Z.mod_pos_bound (z + 2 ^ 63) (2 ^ 64)). lia.
Qed.

Lemma wrap_add_wrap (a b : Z) : GoInt.wrap (a + GoInt.wrap b) = GoInt.wrap (a + b).
Proof.
  unfold GoInt.wrap. f_equal.
  replace (a + ((b + 2 ^ 63) mod 2 ^ 64 - 2 ^ 63) + 2 ^ 63)
    with (a + (b + 2 ^ 63) mod 2 ^ 64) by lia.
  rewrite Zplus_mod_idemp_r. f_equal. lia.
Qed.

Lemma add_exact (a b : Z) : GoInt.in_range (a + b) -> GoInt.add a b = a + b.
Proof. apply wrap_in_range. Qed.

Lemma div4_floor (a : Z) : 0 <= a <= GoInt.max_int -> GoInt.div a 4 = a / 4.
Proof.
  intros Ha. unfold GoInt.div. rewrite Z.quot_div_nonneg by lia.
  apply wrap_in_range. unfold GoInt.in_range, GoInt.min_int, GoInt.max_int in *.
  pose proof (Z.div_pos a 4). pose proof (Z.div_le_upper_bound a 4 a). lia.
Qed.

Lemma len_nonneg (x : string) : 0 <= len x.
Proof. unfold len. lia. Qed.

(** ** Slices and prefixes *)

Lemma slice_to_app (p r : string) : slice_to (String.length p) (p +:+ r) = p.
Proof. induction p as [|c p IH]; simpl; [by destruct r | by rewrite IH]. Qed.

Lemma slice_from_app (p r : string) : slice_from (String.length p) (p +:+ r) = r.
Proof. induction p as [|c p IH]; simpl; [done | exact IH]. Qed.

Lemma slice_split (n : nat) (x : string) : x = slice_to n x +:+ slice_from n x.
Proof.
  revert x. induction n as [|n IH]; intros [|c x]; simpl; try done.
  change (String c x = String c (slice_to n x +:+ slice_from n x)).
  f_equal. apply IH.
Qed.

Lemma length_append (p r : string) :
  String.length (p +:+ r) = (String.length p + String.length r)%nat.
Proof. induction p as [|c p IH]; simpl; [done | by rewrite IH]. Qed.

Lemma HasPrefix_iff (x p : string) :
  GoStrings.HasPrefix x p = true <-> exists r, x = p +:+ r.
Proof.
  unfold GoStrings.HasPrefix. rewrite andb_true_iff, Nat.leb_le, String.eqb_eq.
  split.
  - intros [_ Hp]. exists (slice_from (String.length p) x).
    rewrite <- Hp at 1. apply slice_split.
  - intros [r ->]. rewrite length_append, slice_to_app. split; [lia | done].
Qed.

Lemma TrimPrefix_app (p r : string) : GoStrings.TrimPrefix (p +:+ r) p = r.
Proof.
  unfold GoStrings.TrimPrefix.
  destruct (GoStrings.HasPrefix (p +:+ r) p) eqn:E.
  - apply slice_from_app.
  - assert (GoStrings.HasPrefix (p +:+ r) p = true) by (apply HasPrefix_iff; eauto).
    congruence.
Qed.

Lemma TrimPrefix_other (x p : string) :
  (forall r, x <> p +:+ r) -> GoStrings.TrimPrefix x p = x.
Proof.
  intros Hno. unfold GoStrings.TrimPrefix.
  destruct (GoStrings.HasPrefix x p) eqn:E; [|done].
  apply HasPrefix_iff in E as [r ->]. by destruct (Hno r).
Qed.

(** ** Comparison of scores and temperatures *)

Lemma Qltb_lt (x y : Q) : Qltb x y = true <-> (x < y)%Q.
Proof.
  unfold Qltb. rewrite Qlt_alt. destruct (x ?= y)%Q; split; congruence.
Qed.

Lemma Qgtb_false (x y : Q) : Qgtb x y = false <-> (x <= y)%Q.
Proof.
  unfold Qgtb. split.
  - intros E. apply Qnot_lt_le. intros H. apply Qltb_lt in H. congruence.
  - intros H. destruct (Qltb y x) eqn:E; [|done].
    apply Qltb_lt in E. by apply Qlt_not_le in E.
Qed.

(** ** Validation *)

Lemma eqb_empty (x : string) : String.eqb x "" = true <-> x = "".
Proof. apply String.eqb_eq. Qed.

(** C7: a request with an empty prompt, an empty model name or a
    temperature below 0 or above 1 makes [GenerateText] return a validation
    error (code 400, type validation_error) with an empty trace: no log
    line, no wait and no HTTP attempt, whatever the fuel and the world.
    When the temperature is the violation that is reported (prompt and
    model present, max tokens not negative), the message is the fixed text
    "temperature must be between 0 and 1". *)
Theorem validation_before_network (rt : Runtime) (s : HuggingFaceService.t)
    (fuel : nat) (w : World) (req : AIRequest.t) :
  AIRequest.Prompt req = "" \/ AIRequest.Model req = "" \/
  (AIRequest.Temperature req < 0)%Q \/ (1 < AIRequest.Temperature req)%Q ->
  exists e : ErrorResponse.t,
    GenerateText rt s fuel w req = Some ([], Err (Validation e))
    /\ attempts [] = 0%nat
    /\ ErrorResponse.Code e = 400
    /\ ErrorResponse.Type_ e = "validation_error"
    /\ (AIRequest.Prompt req <> "" -> AIRequest.Model req <> "" ->
        0 <= AIRequest.MaxTokens req ->
        ErrorResponse.Message e = "temperature must be between 0 and 1").
Proof.
  intros Hbad. unfold GenerateText, Validate.
  destruct (String.eqb (AIRequest.Prompt req) "") eqn:Ep.
  { eexists. repeat split; try reflexivity.
    intros Hp. apply eqb_empty in Ep. done. }
  destruct (String.eqb (AIRequest.Model req) "") eqn:Em.
  { eexists. repeat split; try reflexivity.
    intros _ Hm. apply eqb_empty in Em. done. }
  destruct (AIRequest.MaxTokens req <? 0) eqn:Et.
  { eexists. repeat split; try reflexivity.
    intros _ _ Hn. apply Z.ltb_lt in Et. lia. }
  assert (Qltb (AIRequest.Temperature req) 0 || Qgtb (AIRequest.Temperature req) 1
          = true) as ->.
  { apply orb_true_iff. unfold Qgtb. rewrite !Qltb_lt.
    destruct Hbad as [H|[H|[H|H]]]; [| |by left|by right].
    - apply eqb_empty in H. congruence.
    - apply eqb_empty in H. congruence. }
  eexists. repeat split; reflexivity.
Qed.

Lemma validation_before_network_witness :
  exists e : ErrorResponse.t,
    GenerateText (fixed_runtime (Ok [generated "Hello world"]) (Ok []))
      (demo_service 3) 0 (steady_world (Responded 200 "body"))
      (demo_request "Hello" (11 # 10) ∅) = Some ([], Err (Validation e))
    /\ attempts [] = 0%nat
    /\ ErrorResponse.Code e = 400
    /\ ErrorResponse.Type_ e = "validation_error"
    /\ (AIRequest.Prompt (demo_request "Hello" (11 # 10) ∅) <> "" ->
        AIRequest.Model (demo_request "Hello" (11 # 10) ∅) <> "" ->
        0 <= AIRequest.MaxTokens (demo_request "Hello" (11 # 10) ∅) ->
        ErrorResponse.Message e = "temperature must be between 0 and 1").
Proof.
  apply (validation_before_network _ _ 0 _ (demo_request "Hello" (11 # 10) ∅)).
  right; right; right. reflexivity.
Defined.

(** ** The alias *)

(** C10: [GenerateCompletion] is [GenerateText]: for every runtime,
    service, fuel, world and request both give the same outcome, that is
    the same trace of effects and the same response or error. *)
Theorem GenerateCompletion_is_GenerateText (rt : Runtime)
    (s : HuggingFaceService.t) (fuel : nat) (w : World) (req : AIRequest.t) :
  GenerateCompletion rt s fuel w req = GenerateText rt s fuel w req.
Proof. reflexivity. Qed.

(** ** The upstream payload of a generation request *)

Lemma mergeParameters_lookup (params extra : gmap string value) (k : string) :
  mergeParameters params extra !! k
  = match extra !! k with Some v => Some v | None => params !! k end.
Proof.
  unfold mergeParameters.
  apply (map_fold_weak_ind
           (fun r m => r !! k = match m !! k with Some v => Some v | None => params !! k end)).
  - by rewrite lookup_empty.
  - intros i x m r Hi IH. rewrite !lookup_insert.
    destruct (decide (i = k)); [done | exact IH].
Qed.

Lemma mergeParameters_union (params extra : gmap string value) :
  mergeParameters params extra = extra ∪ params.
Proof.
  apply map_eq. intros k. rewrite mergeParameters_lookup, lookup_union.
  destruct (extra !! k), (params !! k); done.
Qed.

(** C9, as the code has it: the parameters of the upstream payload are
    the base set max_new_tokens, temperature, top_p (taken from the
    request) overlaid with every caller-supplied parameter, the caller's
    value winning on a key of the base set; wait_for_model: true is not
    one of the parameters: it is the single entry of the payload's
    options, which the caller-supplied parameters never change. *)
Theorem generation_payload_parameters (req : AIRequest.t) :
  (forall k : string,
     HuggingFaceRequest.Parameters (generationPayload req) !! k
     = match AIRequest.Parameters req !! k with
       | Some v => Some v
       | None =>
           if decide ("max_new_tokens" = k) then Some (VInt (AIRequest.MaxTokens req))
           else if decide ("temperature" = k) then Some (VFloat32 (AIRequest.Temperature req))
           else if decide ("top_p" = k) then Some (VFloat32 (AIRequest.TopP req))
           else None
       end)
  /\ (forall k : string,
        HuggingFaceRequest.Options (generationPayload req) !! k
        = if decide ("wait_for_model" = k) then Some (VBool true) else None)
  /\ HuggingFaceRequest.Inputs (generationPayload req) = AIRequest.Prompt req.
Proof.
  split; [|split]; [| |done].
  - intros k. simpl. rewrite mergeParameters_lookup.
    destruct (AIRequest.Parameters req !! k); [done|].
    unfold baseParameters. rewrite !lookup_insert.
    repeat case_decide; by rewrite ?lookup_empty.
  - intros k. simpl. unfold baseOptions. rewrite lookup_insert.
    case_decide; by rewrite ?lookup_empty.
Qed.

(** C9 as worded fails: with no caller-supplied parameter the payload's
    parameters have no wait_for_model entry, while the base set of the
    specification has one. *)
Lemma generation_payload_parameters_counterexample :
  HuggingFaceRequest.Parameters (generationPayload (demo_request "Hello" (1 # 2) ∅))
  <> specParameters (demo_request "Hello" (1 # 2) ∅).
Proof.
  intros H. apply (f_equal (fun m => m !! "wait_for_model")) in H.
  vm_compute in H. discriminate H.
Qed.

(** ** Counting attempts in a trace *)

Lemma attempts_app (tr1 tr2 : list Event) :
  attempts (tr1 ++ tr2) = (attempts tr1 + attempts tr2)%nat.
Proof. unfold attempts. by rewrite filter_app, length_app. Qed.

Lemma attempts_cons (e : Event) (tr : list Event) :
  attempts (e :: tr) = ((if is_Sent e then 1 else 0) + attempts tr)%nat.
Proof.
  unfold attempts. rewrite filter_cons.
  destruct (decide (is_Sent e)) as [H|H]; destruct (is_Sent e); simpl; done.
Qed.

(** ** The generation path *)

Lemma fillChoices_spec (prompt : string) (hfResponses : list HuggingFaceResponse.t) :
  forall (i : nat) (choices : list Choice.t) (totalTokens : Z),
    length choices = (i + length hfResponses)%nat ->
    fillChoices prompt hfResponses i choices totalTokens
    = (take i choices ++ imap (fun j => choiceOf prompt (i + j)) hfResponses,
       totalFrom prompt totalTokens hfResponses).
Proof.
  induction hfResponses as [|hfResp rest IH]; intros i choices totalTokens Hlen;
    simpl in *.
  - rewrite app_nil_r, take_ge by lia. done.
  - rewrite IH by (rewrite length_insert; lia).
    f_equal. rewrite (take_S_r _ _ (choiceOf prompt i hfResp)).
    + rewrite take_insert_ge by lia. rewrite <- app_assoc. simpl.
      rewrite Nat.add_0_r. do 2 f_equal.
      apply imap_ext. intros j x _. simpl. f_equal. lia.
    + apply list_lookup_insert_eq. lia.
Qed.

Lemma fillChoices_fresh (prompt : string) (hfResponses : list HuggingFaceResponse.t) :
  fillChoices prompt hfResponses 0
    (replicate (length hfResponses) Choice.zero) 0
  = (imap (choiceOf prompt) hfResponses, totalFrom prompt 0 hfResponses).
Proof.
  rewrite fillChoices_spec by (rewrite length_replicate; lia). done.
Qed.

(** What [GenerateText] returns once the request is valid, the transport
    has returned a body and the body decodes to a non-empty array. *)
Lemma GenerateText_returns (rt : Runtime) (s : HuggingFaceService.t) (fuel : nat)
    (w : World) (req : AIRequest.t) (tr0 : list Event) (response : string)
    (hfResponses : list HuggingFaceResponse.t) :
  Validate req = None ->
  makeRequest rt s fuel w (AIRequest.Model req) (generationPayload req)
  = Some (tr0, (response, None)) ->
  json_Unmarshal_responses rt response = Ok hfResponses ->
  hfResponses <> [] ->
  exists tr : list Event,
    GenerateText rt s fuel w req
    = Some (tr,
            Ok (AIResponse.mk (AIRequest.ID req) (AIRequest.Model req)
                  (imap (choiceOf (AIRequest.Prompt req)) hfResponses)
                  (Usage.mk
                     (GoInt.div (len (AIRequest.Prompt req)) 4)
                     (GoInt.sub (totalFrom (AIRequest.Prompt req) 0 hfResponses)
                                (GoInt.div (len (AIRequest.Prompt req)) 4))
                     (totalFrom (AIRequest.Prompt req) 0 hfResponses))
                  (Now w 2) (Milliseconds (Now w 0) (Now w 1))))
    /\ attempts tr = attempts tr0.
Proof.
  intros Hv Hm Hu Hne. unfold GenerateText. rewrite Hv, Hm, Hu.
  destruct hfResponses as [|hfResp rest]; [done|].
  rewrite fillChoices_fresh. eexists. split; [reflexivity|].
  rewrite attempts_cons, attempts_app, attempts_cons. simpl.
  unfold attempts at 2. simpl. lia.
Qed.

(** Conversely, a response comes from such a run only. *)
Lemma GenerateText_Ok_inv (rt : Runtime) (s : HuggingFaceService.t) (fuel : nat)
    (w : World) (req : AIRequest.t) (tr : list Event) (resp : AIResponse.t) :
  GenerateText rt s fuel w req = Some (tr, Ok resp) ->
  exists (tr0 : list Event) (response : string)
         (hfResponses : list HuggingFaceResponse.t),
    Validate req = None
    /\ makeRequest rt s fuel w (AIRequest.Model req) (generationPayload req)
       = Some (tr0, (response, None))
    /\ json_Unmarshal_responses rt response = Ok hfResponses
    /\ hfResponses <> [].
Proof.
  unfold GenerateText. intros H.
  destruct (Validate req) eqn:Hv; [discriminate|].
  destruct (makeRequest rt s fuel w (AIRequest.Model req) (generationPayload req))
    as [[tr0 [response [err|]]]|] eqn:Hm; try discriminate.
  destruct (json_Unmarshal_responses rt response) as [[|hfResp rest]|] eqn:Hu;
    try discriminate.
  exists tr0, response, (hfResp :: rest). repeat split; done.
Qed.

(** C5, as the code has it: when the request is valid, the transport
    returns a body and the body decodes to a non-empty array,
    [GenerateText] returns a response with one choice per decoded element,
    in order; the choice at position i has index i, finish reason "stop"
    and, as text, the i-th generated text without its leading prompt when
    it starts with the prompt (whatever follows is kept as it is, also a
    further copy of the prompt or a space) and the i-th generated text
    itself otherwise.  For prompt "Hello" and generated text "Hello world"
    the text is " world", with its leading space. *)
Theorem generation_choices (rt : Runtime) (s : HuggingFaceService.t) (fuel : nat)
    (w : World) (req : AIRequest.t) (tr0 : list Event) (response : string)
    (hfResponses : list HuggingFaceResponse.t) :
  Validate req = None ->
  makeRequest rt s fuel w (AIRequest.Model req) (generationPayload req)
  = Some (tr0, (response, None)) ->
  json_Unmarshal_responses rt response = Ok hfResponses ->
  hfResponses <> [] ->
  exists (tr : list Event) (resp : AIResponse.t),
    GenerateText rt s fuel w req = Some (tr, Ok resp)
    /\ length (AIResponse.Choices resp) = length hfResponses
    /\ forall (i : nat) (hfResp : HuggingFaceResponse.t),
         hfResponses !! i = Some hfResp ->
         exists text : string,
           AIResponse.Choices resp !! i
           = Some (Choice.mk (Z.of_nat i) text "stop" None)
           /\ (forall rest : string,
                 HuggingFaceResponse.GeneratedText hfResp
                 = AIRequest.Prompt req +:+ rest -> text = rest)
           /\ ((forall rest : string,
                  HuggingFaceResponse.GeneratedText hfResp
                  <> AIRequest.Prompt req +:+ rest) ->
               text = HuggingFaceResponse.GeneratedText hfResp).
Proof.
  intros Hv Hm Hu Hne.
  destruct (GenerateText_returns rt s fuel w req tr0 response hfResponses)
    as (tr & Hrun & _); try done.
  eexists tr, _. split; [exact Hrun|]. simpl. split; [apply length_imap|].
  intros i hfResp Hi. exists (trimmed (AIRequest.Prompt req) hfResp).
  split; [|split].
  - rewrite list_lookup_imap, Hi. done.
  - intros rest Hrest. unfold trimmed. rewrite Hrest. apply TrimPrefix_app.
  - apply TrimPrefix_other.
Qed.

Lemma generation_choices_witness :
  exists (tr : list Event) (resp : AIResponse.t),
    GenerateText
      (fixed_runtime (Ok [generated "Hello world"; generated "HelloHello"]) (Ok []))
      (demo_service 3) 1 (steady_world (Responded 200 "body"))
      (demo_request "Hello" (1 # 2) ∅) = Some (tr, Ok resp)
    /\ Choice.Text <$> AIResponse.Choices resp = [" world"; "Hello"].
Proof.
  destruct (generation_choices
              (fixed_runtime (Ok [generated "Hello world"; generated "HelloHello"])
                 (Ok []))
              (demo_service 3) 1 (steady_world (Responded 200 "body"))
              (demo_request "Hello" (1 # 2) ∅)
              [Sent (setHeaders (demo_service 3)
                       (Request.mk "POST"
                          "https://api-inference.huggingface.co/models/gpt2" ∅ "Hello"))]
              "body" [generated "Hello world"; generated "HelloHello"])
    as (tr & resp & Hrun & Hlen & Hchoices).
  - reflexivity.
  - vm_compute. reflexivity.
  - reflexivity.
  - discriminate.
  - exists tr, resp. split; [exact Hrun|].
    destruct (Hchoices 0%nat _ eq_refl) as (t0 & H0 & Hcut0 & _).
    destruct (Hchoices 1%nat _ eq_refl) as (t1 & H1 & Hcut1 & _).
    rewrite (Hcut0 " world" eq_refl) in H0.
    rewrite (Hcut1 "Hello" eq_refl) in H1.
    destruct (AIResponse.Choices resp) as [|c0 [|c1 [|c2 rest]]];
      simpl in Hlen, H0, H1; try discriminate.
    injection H0 as ->. injection H1 as ->. reflexivity.
Defined.

(** C5 as worded fails on its own example: prompt "Hello" and generated
    text "Hello world" give the choice text " world", not "world". *)
Lemma generation_choices_counterexample :
  exists (tr : list Event) (resp : AIResponse.t),
    GenerateText (fixed_runtime (Ok [generated "Hello world"]) (Ok []))
      (demo_service 3) 1 (steady_world (Responded 200 "body"))
      (demo_request "Hello" (1 # 2) ∅) = Some (tr, Ok resp)
    /\ Choice.Text <$> AIResponse.Choices resp = [" world"]
    /\ Choice.Text <$> AIResponse.Choices resp <> ["world"].
Proof.
  eexists _, _. split; [vm_compute; reflexivity|]. split; [reflexivity|discriminate].
Qed.

(** ** The usage estimate *)

Lemma totalFrom_is_int (prompt : string) (hfResponses : list HuggingFaceResponse.t) :
  forall totalTokens : Z,
    GoInt.in_range totalTokens ->
    GoInt.in_range (totalFrom prompt totalTokens hfResponses).
Proof.
  unfold totalFrom.
  induction hfResponses as [|hfResp rest IH]; intros totalTokens Hin; simpl.
  - exact Hin.
  - apply IH. apply wrap_is_int.
Qed.

Lemma Zsum_cons (x : Z) (l : list Z) : Zsum (x :: l) = x + Zsum l.
Proof. reflexivity. Qed.

Lemma choices_fmap {B : Type} (f : string -> B) (prompt : string)
    (hfResponses : list HuggingFaceResponse.t) :
  (fun c => f (Choice.Text c)) <$> imap (choiceOf prompt) hfResponses
  = (fun hfResp => f (trimmed prompt hfResp)) <$> hfResponses.
Proof.
  rewrite fmap_imap. rewrite <- imap_const. apply imap_ext. done.
Qed.

Lemma estimate_bounds (prompt : string) (hfResponses : list HuggingFaceResponse.t) :
  0 <= Zsum ((fun r => (len prompt + len (trimmed prompt r)) / 4) <$> hfResponses)
    <= Zsum ((fun r => len prompt + len (trimmed prompt r)) <$> hfResponses).
Proof.
  induction hfResponses as [|r rest IH]; [simpl; lia|].
  rewrite !fmap_cons, !Zsum_cons.
  pose proof (len_nonneg prompt). pose proof (len_nonneg (trimmed prompt r)).
  pose proof (Z.div_pos (len prompt + len (trimmed prompt r)) 4).
  pose proof (Z.div_le_upper_bound (len prompt + len (trimmed prompt r)) 4
                (len prompt + len (trimmed prompt r))).
  lia.
Qed.

Lemma estimate_covers_prompt (prompt : string)
    (hfResponses : list HuggingFaceResponse.t) :
  hfResponses <> [] ->
  len prompt / 4
  <= Zsum ((fun r => (len prompt + len (trimmed prompt r)) / 4) <$> hfResponses)
  /\ len prompt
     <= Zsum ((fun r => len prompt + len (trimmed prompt r)) <$> hfResponses).
Proof.
  destruct hfResponses as [|r rest]; [done|]. intros _.
  rewrite !fmap_cons, !Zsum_cons.
  pose proof (estimate_bounds prompt rest).
  pose proof (len_nonneg (trimmed prompt r)).
  pose proof (Z.div_le_mono (len prompt) (len prompt + len (trimmed prompt r)) 4).
  lia.
Qed.

Lemma totalFrom_exact (prompt : string) (hfResponses : list HuggingFaceResponse.t) :
  forall totalTokens : Z,
    0 <= totalTokens ->
    totalTokens
    + Zsum ((fun r => len prompt + len (trimmed prompt r)) <$> hfResponses)
    <= GoInt.max_int ->
    totalFrom prompt totalTokens hfResponses
    = totalTokens
      + Zsum ((fun r => (len prompt + len (trimmed prompt r)) / 4) <$> hfResponses).
Proof.
  unfold totalFrom.
  induction hfResponses as [|r rest IH]; intros totalTokens Hpos Hmax.
  - simpl. lia.
  - rewrite !fmap_cons, !Zsum_cons in *. cbn [foldl].
    pose proof (len_nonneg prompt). pose proof (len_nonneg (trimmed prompt r)).
    pose proof (estimate_bounds prompt rest).
    pose proof (Z.div_pos (len prompt + len (trimmed prompt r)) 4).
    pose proof (Z.div_le_upper_bound (len prompt + len (trimmed prompt r)) 4
                  (len prompt + len (trimmed prompt r))).
    assert (estimate prompt (trimmed prompt r)
            = (len prompt + len (trimmed prompt r)) / 4) as ->.
    { unfold estimate. rewrite add_exact.
      - apply div4_floor. lia.
      - unfold GoInt.in_range, GoInt.min_int, GoInt.max_int in *. lia. }
    rewrite add_exact.
    + rewrite IH; lia.
    + unfold GoInt.in_range, GoInt.min_int, GoInt.max_int in *. lia.
Qed.

(** C6: for every response [GenerateText] returns, prompt_tokens plus
    completion_tokens is total_tokens in Go's integer arithmetic; and
    whenever the characters counted (prompt plus choice text, over all
    choices) fit an int, as the lengths of strings held in memory do, the
    sum is exact, prompt_tokens is floor(len(prompt) / 4) and total_tokens
    is the sum over all choices of floor((len(prompt) + len(choice text))
    / 4). *)
Theorem usage_totals (rt : Runtime) (s : HuggingFaceService.t) (fuel : nat)
    (w : World) (req : AIRequest.t) (tr : list Event) (resp : AIResponse.t) :
  GenerateText rt s fuel w req = Some (tr, Ok resp) ->
  GoInt.add (Usage.PromptTokens (AIResponse.Usage resp))
            (Usage.CompletionTokens (AIResponse.Usage resp))
  = Usage.TotalTokens (AIResponse.Usage resp)
  /\ (countedChars (AIRequest.Prompt req) (AIResponse.Choices resp) <= GoInt.max_int ->
      Usage.TotalTokens (AIResponse.Usage resp)
      = Usage.PromptTokens (AIResponse.Usage resp)
        + Usage.CompletionTokens (AIResponse.Usage resp)
      /\ Usage.PromptTokens (AIResponse.Usage resp) = len (AIRequest.Prompt req) / 4
      /\ Usage.TotalTokens (AIResponse.Usage resp)
         = estimatedTokens (AIRequest.Prompt req) (AIResponse.Choices resp)).
Proof.
  intros Hrun.
  destruct (GenerateText_Ok_inv _ _ _ _ _ _ _ Hrun)
    as (tr0 & response & hfResponses & Hv & Hm & Hu & Hne).
  destruct (GenerateText_returns _ _ _ _ _ _ _ _ Hv Hm Hu Hne) as (tr' & Hrun' & _).
  rewrite Hrun in Hrun'. injection Hrun' as _ ->.
  cbn [AIResponse.Usage AIResponse.Choices Usage.PromptTokens
       Usage.CompletionTokens Usage.TotalTokens].
  set (prompt := AIRequest.Prompt req).
  split.
  - unfold GoInt.add, GoInt.sub. rewrite wrap_add_wrap.
    replace (GoInt.div (len prompt) 4
             + (totalFrom prompt 0 hfResponses - GoInt.div (len prompt) 4))
      with (totalFrom prompt 0 hfResponses) by lia.
    apply wrap_in_range, totalFrom_is_int.
    unfold GoInt.in_range, GoInt.min_int, GoInt.max_int. lia.
  - unfold countedChars, estimatedTokens.
    rewrite (choices_fmap (fun t => len prompt + len t)),
            (choices_fmap (fun t => (len prompt + len t) / 4)).
    intros Hfit.
    pose proof (estimate_covers_prompt prompt hfResponses Hne) as [Hq Hp].
    pose proof (estimate_bounds prompt hfResponses) as Hb.
    pose proof (len_nonneg prompt) as Hl.
    pose proof (Z.div_pos (len prompt) 4) as Hd.
    rewrite (totalFrom_exact prompt hfResponses 0) by lia.
    rewrite div4_floor by lia.
    split; [|split]; [|done|lia].
    unfold GoInt.sub. rewrite wrap_in_range; [lia|].
    unfold GoInt.in_range, GoInt.min_int, GoInt.max_int in *. lia.
Qed.

Lemma usage_totals_witness :
  exists (tr : list Event) (resp : AIResponse.t),
    GenerateText (fixed_runtime (Ok [generated "Hi there!"; generated "Hi"]) (Ok []))
      (demo_service 3) 1 (steady_world (Responded 200 "body"))
      (demo_request "Hi" (1 # 2) ∅) = Some (tr, Ok resp)
    /\ Choice.Text <$> AIResponse.Choices resp = [" there!"; ""]
    /\ AIResponse.Usage resp = Usage.mk 0 2 2
    /\ GoInt.add (Usage.PromptTokens (AIResponse.Usage resp))
                 (Usage.CompletionTokens (AIResponse.Usage resp))
       = Usage.TotalTokens (AIResponse.Usage resp)
    /\ Usage.TotalTokens (AIResponse.Usage resp)
       = estimatedTokens "Hi" (AIResponse.Choices resp).
Proof.
  eexists _, _. split; [vm_compute; reflexivity|].
  split; [reflexivity|]. split; [reflexivity|].
  match goal with
  | |- context [AIResponse.Usage ?r] =>
      destruct (usage_totals
                  (fixed_runtime (Ok [generated "Hi there!"; generated "Hi"]) (Ok []))
                  (demo_service 3) 1 (steady_world (Responded 200 "body"))
                  (demo_request "Hi" (1 # 2) ∅) _ r
                  ltac:(vm_compute; reflexivity)) as [Hgo Hexact]
  end.
  split; [exact Hgo|].
  apply Hexact. vm_compute. discriminate.
Defined.

(** ** The sentiment path *)

(** The scan keeps, for the elements seen so far, the first one of
    maximal score. *)
Lemma scanBest_invariant (todo : list HuggingFaceResponse.t) :
  forall (seen : list HuggingFaceResponse.t) (best : HuggingFaceResponse.t) (i : nat),
    seen !! i = Some best ->
    (forall j r, seen !! j = Some r -> (score r <= score best)%Q) ->
    (forall j r, seen !! j = Some r -> (j < i)%nat -> (score r < score best)%Q) ->
    exists i' : nat,
      (seen ++ todo) !! i' = Some (scanBest best todo)
      /\ (forall j r, (seen ++ todo) !! j = Some r ->
            (score r <= score (scanBest best todo))%Q)
      /\ (forall j r, (seen ++ todo) !! j = Some r -> (j < i')%nat ->
            (score r < score (scanBest best todo))%Q).
Proof.
  induction todo as [|x todo IH]; intros seen best i Hi Hmax Hfirst.
  - rewrite app_nil_r. exists i. simpl. done.
  - replace (seen ++ x :: todo) with ((seen ++ [x]) ++ todo)
      by (by rewrite <- app_assoc).
    unfold scanBest. cbn [foldl]. fold (scanBest).
    destruct (Qgtb (score x) (score best)) eqn:E.
    + apply Qltb_lt in E.
      apply (IH (seen ++ [x]) x (length seen)).
      * by rewrite lookup_app_r, Nat.sub_diag.
      * intros j r [Hj|[_ Hj]]%lookup_app_Some.
        -- apply Qlt_le_weak. eapply Qle_lt_trans; [eapply Hmax, Hj | exact E].
        -- destruct (j - length seen)%nat as [|n]; simpl in Hj; [|done].
           injection Hj as ->. apply Qle_refl.
      * intros j r [Hj|[Hge _]]%lookup_app_Some Hlt; [|lia].
        eapply Qle_lt_trans; [eapply Hmax, Hj | exact E].
    + apply Qgtb_false in E.
      apply (IH (seen ++ [x]) best i).
      * by apply lookup_app_l_Some.
      * intros j r [Hj|[_ Hj]]%lookup_app_Some; [by eapply Hmax|].
        destruct (j - length seen)%nat as [|n]; simpl in Hj; [|done].
        by injection Hj as ->.
      * intros j r [Hj|[Hge _]]%lookup_app_Some Hlt; [by eapply Hfirst|].
        apply lookup_lt_Some in Hi. lia.
Qed.

Lemma scanBest_first_maximum (first : HuggingFaceResponse.t)
    (rest : list HuggingFaceResponse.t) :
  exists i : nat,
    (first :: rest) !! i = Some (scanBest first (first :: rest))
    /\ (forall j r, (first :: rest) !! j = Some r ->
          (score r <= score (scanBest first (first :: rest)))%Q)
    /\ (forall j r, (first :: rest) !! j = Some r -> (j < i)%nat ->
          (score r < score (scanBest first (first :: rest)))%Q).
Proof.
  assert (scanBest first (first :: rest) = scanBest first rest) as ->.
  { unfold scanBest. cbn [foldl].
    assert (Qgtb (score first) (score first) = false) as ->; [|done].
    apply Qgtb_false, Qle_refl. }
  apply (scanBest_invariant rest [first] first 0%nat).
  - done.
  - intros [|j] r Hj; simpl in Hj; [|done]. injection Hj as ->. apply Qle_refl.
  - intros j r _ Hlt. lia.
Qed.

(** C4: when the transport returns a body that decodes to an outer array
    whose first inner array is not empty, [AnalyzeSentiment] returns the
    label and the score of an element of that inner array whose score is
    not exceeded by any element and is strictly above the score of every
    element listed before it (the first element of maximal score: on a
    tie the first-listed one), and the confidence is that score. *)
Theorem sentiment_first_maximum (rt : Runtime) (s : HuggingFaceService.t)
    (fuel : nat) (w : World) (text : string) (tr0 : list Event)
    (response : string) (results : list HuggingFaceResponse.t)
    (others : list (list HuggingFaceResponse.t)) :
  makeRequest rt s fuel w sentimentModel (sentimentPayload text)
  = Some (tr0, (response, None)) ->
  json_Unmarshal_nested rt response = Ok (results :: others) ->
  results <> [] ->
  exists (tr : list Event) (i : nat) (best : HuggingFaceResponse.t),
    results !! i = Some best
    /\ (forall j r, results !! j = Some r -> (score r <= score best)%Q)
    /\ (forall j r, results !! j = Some r -> (j < i)%nat -> (score r < score best)%Q)
    /\ AnalyzeSentiment rt s fuel w text
       = Some (tr, Ok (SentimentResponse.mk text (HuggingFaceResponse.Label best)
                         (score best) (score best))).
Proof.
  intros Hm Hu Hne. destruct results as [|first rest]; [done|].
  destruct (scanBest_first_maximum first rest) as (i & Hi & Hmax & Hfirst).
  eexists _, i, (scanBest first (first :: rest)).
  repeat split; try done.
  unfold AnalyzeSentiment. rewrite Hm, Hu. reflexivity.
Qed.

Lemma sentiment_first_maximum_witness :
  exists tr : list Event,
    AnalyzeSentiment
      (fixed_runtime (Ok []) (Ok [[labelled "neg" (1 # 2); labelled "pos" (1 # 2)]]))
      (demo_service 3) 1 (steady_world (Responded 200 "body")) "so-so"
    = Some (tr, Ok (SentimentResponse.mk "so-so" "neg" (1 # 2) (1 # 2))).
Proof.
  destruct (sentiment_first_maximum
              (fixed_runtime (Ok [])
                 (Ok [[labelled "neg" (1 # 2); labelled "pos" (1 # 2)]]))
              (demo_service 3) 1 (steady_world (Responded 200 "body")) "so-so"
              [Sent (setHeaders (demo_service 3)
                       (Request.mk "POST"
                          ("https://api-inference.huggingface.co/models/"
                           +:+ sentimentModel) ∅ "so-so"))]
              "body" [labelled "neg" (1 # 2); labelled "pos" (1 # 2)] [])
    as (tr & i & best & Hi & _ & Hfirst & Hrun).
  - vm_compute. reflexivity.
  - reflexivity.
  - discriminate.
  - exists tr. rewrite Hrun. destruct i as [|[|i]]; simpl in Hi.
    + injection Hi as <-. reflexivity.
    + injection Hi as <-.
      specialize (Hfirst 0%nat (labelled "neg" (1 # 2)) eq_refl (Nat.lt_0_succ 0)).
      vm_compute in Hfirst. discriminate Hfirst.
    + discriminate Hi.
Defined.

(** ** The summarization path *)

(** C8: when the transport returns a body that decodes to a non-empty
    array, [SummarizeText] returns the original text, the summary text of
    the first element, whatever the later elements are, and as compression
    the float64 quotient of the length of that summary by the length of
    the original text (the equation needs no assumption on the text; for
    an empty text the divisor is zero); it makes no HTTP attempt beyond
    the transport's. *)
Theorem summary_first_element (rt : Runtime) (s : HuggingFaceService.t)
    (fuel : nat) (w : World) (text : string) (maxLength : Z) (tr0 : list Event)
    (response : string) (first : HuggingFaceResponse.t)
    (later : list HuggingFaceResponse.t) :
  makeRequest rt s fuel w summarizationModel (summaryPayload text maxLength)
  = Some (tr0, (response, None)) ->
  json_Unmarshal_responses rt response = Ok (first :: later) ->
  exists tr : list Event,
    SummarizeText rt s fuel w text maxLength
    = Some (tr,
            Ok (SummaryResponse.mk text (HuggingFaceResponse.SummaryText first)
                  (PrimFloat.div
                     (float64_of_len (HuggingFaceResponse.SummaryText first))
                     (float64_of_len text))))
    /\ attempts tr = attempts tr0.
Proof.
  intros Hm Hu. unfold SummarizeText. rewrite Hm, Hu.
  eexists. split; [reflexivity|]. by rewrite attempts_cons.
Qed.

Lemma summary_first_element_witness :
  exists tr : list Event,
    SummarizeText
      (fixed_runtime (Ok [summarized "abc"; summarized "zzzzz"]) (Ok []))
      (demo_service 3) 1 (steady_world (Responded 200 "body")) "abcdefghijkl" 10
    = Some (tr, Ok (SummaryResponse.mk "abcdefghijkl" "abc" 0.25%float))
    /\ attempts tr = 1%nat.
Proof.
  destruct (summary_first_element
              (fixed_runtime (Ok [summarized "abc"; summarized "zzzzz"]) (Ok []))
              (demo_service 3) 1 (steady_world (Responded 200 "body"))
              "abcdefghijkl" 10
              [Sent (setHeaders (demo_service 3)
                       (Request.mk "POST"
                          ("https://api-inference.huggingface.co/models/"
                           +:+ summarizationModel) ∅ "abcdefghijkl"))]
              "body" (summarized "abc") [summarized "zzzzz"])
    as (tr & Hrun & Hattempts).
  - vm_compute. reflexivity.
  - reflexivity.
  - exists tr. split; [|exact Hattempts]. rewrite Hrun. vm_compute. reflexivity.
Defined.

(** ** The retry loop *)

Section Retry.

Variable rt : Runtime.
Variable s : HuggingFaceService.t.
Variable w : World.
Variables modelName url requestBody : string.

Local Abbreviation N := (HuggingFaceConfig.RetryAttempts (HuggingFaceService.config s)).

Hypothesis url_ok : url_Parse rt url = None.

Lemma retryable_retried (o : DoOutcome) : retryable o = true -> retried o = true.
Proof.
  destruct o as [e|st e|st body]; simpl; try done.
  rewrite !andb_true_iff, !negb_true_iff, !andb_false_iff.
  intros [H2 H4]. split; [|exact H4].
  apply Z.eqb_neq. intros ->. by destruct H2.
Qed.

Lemma retried_failure (o : DoOutcome) :
  retried o = true -> exists e, failure rt o = Some e.
Proof.
  destruct o as [e|st e|st body]; simpl; eauto.
  destruct (st =? 200); simpl; [done | eauto].
Qed.

(** An attempt whose wait is not interrupted and whose outcome is retried
    passes [lastErr] on to the next attempt. *)
Lemma iteration_retried (attempt : Z) :
  (0 < attempt -> Select w attempt = TimerFired) ->
  retried (Do w attempt) = true ->
  exists e,
    failure rt (Do w attempt) = Some e
    /\ iteration rt s w modelName url requestBody attempt
       = Continue (attemptEvents s modelName url requestBody attempt) e.
Proof.
  intros Hsel Hret. unfold iteration, attemptEvents, NewRequest.
  rewrite url_ok.
  assert ((if 0 <? attempt then Select w attempt else TimerFired) = TimerFired) as ->.
  { destruct (0 <? attempt) eqn:E; [|done]. apply Hsel. by apply Z.ltb_lt. }
  destruct (Do w attempt) as [e|st e|st body]; simpl in *; eauto.
  apply andb_true_iff in Hret as [H2 H4].
  apply negb_true_iff in H2, H4. rewrite H2, H4. eauto.
Qed.

(** [n] retried attempts in a row, then the loop goes on from attempt
    [attempt + n]. *)
Lemma retryLoop_retried (n : nat) :
  forall (fuel : nat) (attempt : Z) (lastErr : option error),
    0 <= attempt ->
    attempt + Z.of_nat n <= N + 1 ->
    attempt + Z.of_nat n <= GoInt.max_int ->
    (forall j, attempt <= j < attempt + Z.of_nat n ->
       retried (Do w j) = true /\ (0 < j -> Select w j = TimerFired)) ->
    retryLoop rt s (n + fuel) w modelName url requestBody attempt lastErr
    = match retryLoop rt s fuel w modelName url requestBody
              (attempt + Z.of_nat n) (lastErrAfter rt w lastErr attempt n) with
      | Some (tr, r) =>
          Some (attemptsTrace s modelName url requestBody attempt n ++ tr, r)
      | None => None
      end.
Proof.
  induction n as [|n IH]; intros fuel attempt lastErr Hpos HN Hmax Hall.
  - simpl. rewrite Z.add_0_r.
    by destruct (retryLoop rt s fuel w modelName url requestBody attempt lastErr)
      as [[tr r]|].
  - cbn [Nat.add retryLoop attemptsTrace].
    assert ((attempt <=? N) = true) as -> by (apply Z.leb_le; lia).
    destruct (Hall attempt ltac:(lia)) as [Hret Hsel].
    destruct (iteration_retried attempt Hsel Hret) as (e & He & ->).
    rewrite add_exact
      by (unfold GoInt.in_range, GoInt.min_int, GoInt.max_int in *; lia).
    rewrite IH; [ | lia | lia | lia | intros j Hj; apply Hall; lia ].
    replace (attempt + 1 + Z.of_nat n) with (attempt + Z.of_nat (S n)) by lia.
    assert (lastErrAfter rt w (Some e) (attempt + 1) n
            = lastErrAfter rt w lastErr attempt (S n)) as ->.
    { destruct n as [|m]; simpl.
      - by rewrite Z.add_0_r.
      - do 2 f_equal. lia. }
    destruct (retryLoop rt s fuel w modelName url requestBody
                (attempt + Z.of_nat (S n)) (lastErrAfter rt w lastErr attempt (S n)))
      as [[tr r]|]; [|done].
    by rewrite <- app_assoc.
Qed.

(** The first attempt is made at once; a retry comes after a wait of
    RetryDelay and a log line. *)
Lemma attemptEvents_first :
  attemptEvents s modelName url requestBody 0
  = [Sent (setHeaders s (Request.mk "POST" url ∅ requestBody))].
Proof. reflexivity. Qed.

Lemma attemptEvents_retry (attempt : Z) :
  0 < attempt ->
  exists line : Event,
    attemptEvents s modelName url requestBody attempt
    = [Waited (HuggingFaceConfig.RetryDelay (HuggingFaceService.config s));
       line;
       Sent (setHeaders s (Request.mk "POST" url ∅ requestBody))].
Proof.
  intros Hpos. unfold attemptEvents, retryEvents.
  apply Z.ltb_lt in Hpos. rewrite Hpos. eexists. reflexivity.
Qed.

Lemma attempts_retryEvents (attempt : Z) :
  attempts (retryEvents s modelName attempt) = 0%nat.
Proof. unfold retryEvents. by destruct (0 <? attempt). Qed.

Lemma attempts_attemptEvents (attempt : Z) :
  attempts (attemptEvents s modelName url requestBody attempt) = 1%nat.
Proof.
  unfold attemptEvents. rewrite attempts_app, attempts_retryEvents. done.
Qed.

Lemma attempts_attemptsTrace (n : nat) (from : Z) :
  attempts (attemptsTrace s modelName url requestBody from n) = n.
Proof.
  revert from. induction n as [|n IH]; intros from; simpl; [done|].
  by rewrite attempts_app, attempts_attemptEvents, IH.
Qed.

(** The loop returns a body without an error only when it ends on a 200
    response with that body, or when it was entered with no error and
    made no attempt. *)
Lemma retryLoop_body_inv (fuel : nat) :
  forall (attempt : Z) (lastErr : option error) (tr : list Event) (body : string),
    retryLoop rt s fuel w modelName url requestBody attempt lastErr
    = Some (tr, (body, None)) ->
    (lastErr = None /\ body = "") \/ exists k, Do w k = Responded 200 body.
Proof.
  induction fuel as [|fuel IH]; intros attempt lastErr tr body; [done|].
  cbn [retryLoop]. destruct (attempt <=? N).
  - unfold iteration, NewRequest. rewrite url_ok.
    destruct (if 0 <? attempt then Select w attempt else TimerFired); [|done].
    destruct (Do w attempt) as [e|st e|st b] eqn:Hdo.
    + destruct (retryLoop rt s fuel w modelName url requestBody
                  (GoInt.add attempt 1) (Some (Wrapf "HTTP request failed: " e)))
        as [[tr' r]|] eqn:Hrec; [|done].
      intros [= <- ->]. apply IH in Hrec as [[? _]|?]; [done | by right].
    + destruct (retryLoop rt s fuel w modelName url requestBody
                  (GoInt.add attempt 1) (Some (Wrapf "failed to read response: " e)))
        as [[tr' r]|] eqn:Hrec; [|done].
      intros [= <- ->]. apply IH in Hrec as [[? _]|?]; [done | by right].
    + destruct (st =? 200) eqn:E200.
      * intros [= <- <-]. apply Z.eqb_eq in E200 as ->. right. eauto.
      * destruct ((400 <=? st) && (st <? 500)); [done|].
        destruct (retryLoop rt s fuel w modelName url requestBody
                    (GoInt.add attempt 1) (Some (apiError rt st b)))
          as [[tr' r]|] eqn:Hrec; [|done].
        intros [= <- ->]. apply IH in Hrec as [[? _]|?]; [done | by right].
  - intros [= <- <- <-]. by left.
Qed.

End Retry.

Lemma attemptsTrace_snoc (s : HuggingFaceService.t)
    (modelName url requestBody : string) (n : nat) :
  forall from : Z,
    attemptsTrace s modelName url requestBody from (n + 1)
    = attemptsTrace s modelName url requestBody from n
      ++ attemptEvents s modelName url requestBody (from + Z.of_nat n).
Proof.
  induction n as [|n IH]; intros from; simpl.
  - by rewrite Z.add_0_r, app_nil_r.
  - rewrite <- app_assoc, IH. do 3 f_equal. lia.
Qed.

Lemma makeRequest_loop (rt : Runtime) (s : HuggingFaceService.t) (fuel : nat)
    (w : World) (modelName : string) (req : HuggingFaceRequest.t)
    (requestBody : string) :
  json_Marshal rt req = Ok requestBody ->
  url_Parse rt (modelURL s modelName) = None ->
  makeRequest rt s fuel w modelName req
  = retryLoop rt s fuel w modelName (modelURL s modelName) requestBody 0 None.
Proof.
  intros Hm Hu. unfold makeRequest, NewRequest. fold (modelURL s modelName).
  by rewrite Hm, Hu.
Qed.

(** A body returned without an error is the body of a 200 response of the
    upstream, unless the retry budget is negative and no attempt is made. *)
Lemma makeRequest_body_is_200 (rt : Runtime) (s : HuggingFaceService.t)
    (fuel : nat) (w : World) (modelName : string) (req : HuggingFaceRequest.t)
    (tr : list Event) (body : string) :
  makeRequest rt s fuel w modelName req = Some (tr, (body, None)) ->
  body = "" \/ exists k, Do w k = Responded 200 body.
Proof.
  unfold makeRequest, NewRequest.
  destruct (json_Marshal rt req) as [requestBody|e]; [|done].
  destruct (url_Parse rt _) as [e|] eqn:Hu; [done|].
  intros Hloop. eapply retryLoop_body_inv in Hloop as [[_ ?]|?]; eauto.
Qed.

(** C1: when RetryAttempts is N with 0 <= N (and N + 1 still an int), the
    request marshals and its URL parses, every attempt 0..N ends in a
    retryable outcome (a failure of the call or of reading the body, or a
    status neither 2xx nor in [400,500)) and no wait is interrupted by
    the context, [makeRequest] returns, given fuel for N + 2 passes, after
    exactly N + 1 attempts: attempt 0 at once, each later attempt after a
    wait of RetryDelay and a log line; the error returned is the one of
    attempt N. *)
Theorem retry_exhaustion (rt : Runtime) (s : HuggingFaceService.t) (fuel : nat)
    (w : World) (modelName : string) (req : HuggingFaceRequest.t)
    (requestBody : string) :
  0 <= HuggingFaceConfig.RetryAttempts (HuggingFaceService.config s)
    < GoInt.max_int ->
  json_Marshal rt req = Ok requestBody ->
  url_Parse rt (modelURL s modelName) = None ->
  (forall k, 0 <= k <= HuggingFaceConfig.RetryAttempts (HuggingFaceService.config s) ->
     retryable (Do w k) = true) ->
  (forall k, 0 < k <= HuggingFaceConfig.RetryAttempts (HuggingFaceService.config s) ->
     Select w k = TimerFired) ->
  (Z.to_nat (HuggingFaceConfig.RetryAttempts (HuggingFaceService.config s)) + 2
   <= fuel)%nat ->
  exists (tr : list Event) (lastErr : error),
    makeRequest rt s fuel w modelName req = Some (tr, ("", Some lastErr))
    /\ failure rt
         (Do w (HuggingFaceConfig.RetryAttempts (HuggingFaceService.config s)))
       = Some lastErr
    /\ tr = attemptsTrace s modelName (modelURL s modelName) requestBody 0
              (Z.to_nat
                 (HuggingFaceConfig.RetryAttempts (HuggingFaceService.config s) + 1))
    /\ attempts tr
       = Z.to_nat (HuggingFaceConfig.RetryAttempts (HuggingFaceService.config s) + 1).
Proof.
  set (N := HuggingFaceConfig.RetryAttempts (HuggingFaceService.config s)).
  intros HN Hm Hu Hall Hsel Hfuel.
  destruct (retried_failure rt (Do w N)) as [lastErr Hlast].
  { apply retryable_retried, Hall. lia. }
  exists (attemptsTrace s modelName (modelURL s modelName) requestBody 0
            (Z.to_nat (N + 1))), lastErr.
  split; [|split; [done|split; [done|apply attempts_attemptsTrace]]].
  rewrite (makeRequest_loop _ _ _ _ _ _ requestBody) by done.
  replace fuel with (Z.to_nat (N + 1) + S (fuel - Z.to_nat N - 2))%nat by lia.
  rewrite retryLoop_retried; try done; try (fold N; lia).
  - cbn [retryLoop]. fold N.
    assert ((0 + Z.of_nat (Z.to_nat (N + 1)) <=? N) = false) as ->
      by (apply Z.leb_gt; lia).
    rewrite app_nil_r. do 3 f_equal.
    replace (Z.to_nat (N + 1)) with (S (Z.to_nat N)) by lia.
    cbn [lastErrAfter]. rewrite <- Hlast. do 2 f_equal. lia.
  - intros j Hj. split.
    + apply retryable_retried, Hall. fold N. lia.
    + intros Hpos. apply Hsel. fold N. lia.
Qed.

Lemma retry_exhaustion_witness :
  exists tr : list Event,
    makeRequest (fixed_runtime (Ok []) (Ok [])) (demo_service 2) 4
      (steady_world (Responded 500 "oops")) "gpt2" (HuggingFaceRequest.mk "Hi" ∅ ∅)
    = Some (tr, ("", Some (Errorf "API error (500): oops")))
    /\ attempts tr = 3%nat.
Proof.
  destruct (retry_exhaustion (fixed_runtime (Ok []) (Ok [])) (demo_service 2) 4
              (steady_world (Responded 500 "oops")) "gpt2"
              (HuggingFaceRequest.mk "Hi" ∅ ∅) "Hi")
    as (tr & lastErr & Hrun & Hlast & _ & Hattempts).
  - vm_compute. split; [discriminate | reflexivity].
  - reflexivity.
  - reflexivity.
  - intros k _. reflexivity.
  - intros k _. reflexivity.
  - vm_compute. lia.
  - exists tr. split; [|exact Hattempts].
    rewrite Hrun. vm_compute in Hlast. injection Hlast as <-. reflexivity.
Defined.

(** C2: when attempt k (0 <= k <= RetryAttempts) is reached, that is the
    request marshals, its URL parses, the attempts before it were retried
    and no wait up to it was interrupted, and the upstream answers it with
    a status in [400,500) and a readable body, [makeRequest] returns the
    error of that response after exactly k + 1 attempts, whatever the
    remaining budget; with k = 0 and status 404 there is exactly one
    attempt. *)
Theorem client_error_stops (rt : Runtime) (s : HuggingFaceService.t) (fuel : nat)
    (w : World) (modelName : string) (req : HuggingFaceRequest.t)
    (requestBody : string) (k StatusCode : Z) (body : string) :
  0 <= k <= HuggingFaceConfig.RetryAttempts (HuggingFaceService.config s) ->
  HuggingFaceConfig.RetryAttempts (HuggingFaceService.config s) <= GoInt.max_int ->
  json_Marshal rt req = Ok requestBody ->
  url_Parse rt (modelURL s modelName) = None ->
  (forall j, 0 <= j < k -> retried (Do w j) = true) ->
  (forall j, 0 < j <= k -> Select w j = TimerFired) ->
  Do w k = Responded StatusCode body ->
  400 <= StatusCode < 500 ->
  (Z.to_nat k + 1 <= fuel)%nat ->
  exists tr : list Event,
    makeRequest rt s fuel w modelName req
    = Some (tr, ("", Some (apiError rt StatusCode body)))
    /\ tr = attemptsTrace s modelName (modelURL s modelName) requestBody 0
              (Z.to_nat (k + 1))
    /\ attempts tr = Z.to_nat (k + 1).
Proof.
  set (N := HuggingFaceConfig.RetryAttempts (HuggingFaceService.config s)).
  intros Hk HN Hm Hu Hall Hsel Hdo Hst Hfuel.
  eexists. split; [|split; [reflexivity|apply attempts_attemptsTrace]].
  rewrite (makeRequest_loop _ _ _ _ _ _ requestBody) by done.
  replace fuel with (Z.to_nat k + S (fuel - Z.to_nat k - 1))%nat by lia.
  rewrite retryLoop_retried; try done; try (fold N; lia).
  - cbn [retryLoop]. fold N.
    replace (0 + Z.of_nat (Z.to_nat k)) with k by lia.
    assert ((k <=? N) = true) as -> by (apply Z.leb_le; lia).
    unfold iteration, NewRequest. rewrite Hu, Hdo.
    assert ((if 0 <? k then Select w k else TimerFired) = TimerFired) as ->.
    { destruct (0 <? k) eqn:E; [|done]. apply Hsel. apply Z.ltb_lt in E. lia. }
    assert ((StatusCode =? 200) = false) as -> by (apply Z.eqb_neq; lia).
    assert ((400 <=? StatusCode) && (StatusCode <? 500) = true) as ->.
    { apply andb_true_iff. split; [apply Z.leb_le | apply Z.ltb_lt]; lia. }
    f_equal. f_equal.
    replace (Z.to_nat (k + 1)) with (Z.to_nat k + 1)%nat by lia.
    rewrite attemptsTrace_snoc. unfold attemptEvents.
    replace (0 + Z.of_nat (Z.to_nat k)) with k by lia. done.
  - intros j Hj. split; [apply Hall; lia | intros; apply Hsel; lia].
Qed.

Lemma client_error_stops_witness :
  exists tr : list Event,
    makeRequest (fixed_runtime (Ok []) (Ok [])) (demo_service 3) 1
      (steady_world (Responded 404 "not found")) "gpt2"
      (HuggingFaceRequest.mk "Hi" ∅ ∅)
    = Some (tr, ("", Some (Errorf "API error (404): not found")))
    /\ attempts tr = 1%nat.
Proof.
  destruct (client_error_stops (fixed_runtime (Ok []) (Ok [])) (demo_service 3) 1
              (steady_world (Responded 404 "not found")) "gpt2"
              (HuggingFaceRequest.mk "Hi" ∅ ∅) "Hi" 0 404 "not found")
    as (tr & Hrun & _ & Hattempts).
  - vm_compute. split; discriminate.
  - vm_compute. discriminate.
  - reflexivity.
  - reflexivity.
  - intros j Hj. lia.
  - intros j Hj. reflexivity.
  - reflexivity.
  - lia.
  - vm_compute. lia.
  - exists tr. split; [exact Hrun | exact Hattempts].
Defined.

(** The error of a failed attempt is never the context's error, neither
    as a value nor by its message. *)
Lemma failure_is_not_ctx_Err (rt : Runtime) (o : DoOutcome) (e : error) (c : ctxErr) :
  failure rt o = Some e -> e <> ctx_Err c /\ Error e <> Error (ctx_Err c).
Proof.
  intros Hf.
  assert ((exists p x, e = Wrapf p x /\ slice_to 1 p <> "c" /\ p <> "")
          \/ (exists p y, e = Errorf (p +:+ y) /\ slice_to 1 p <> "c" /\ p <> ""))
    as Hshape.
  { destruct o as [err|st err|st body]; simpl in Hf.
    - injection Hf as <-. left. eexists _, _. by vm_compute.
    - injection Hf as <-. left. eexists _, _. by vm_compute.
    - destruct (st =? 200); [done|]. injection Hf as <-. unfold apiError.
      destruct (json_Unmarshal_error rt body) as [hfError|err];
        right; eexists "API error (", _; by vm_compute. }
  assert (forall q y, slice_to 1 q <> "c" -> q <> "" ->
                      q +:+ y <> Error (ctx_Err c)) as Hmsg.
  { intros [|a q] y Hq Hne; [done|]. intros Heq. apply Hq.
    destruct c; simpl in Heq; by injection Heq as -> _. }
  destruct Hshape as [(p & x & -> & Hp & Hne)|(p & y & -> & Hp & Hne)].
  - split; [by destruct c|]. simpl. by apply Hmsg.
  - split; [by destruct c|]. simpl. by apply Hmsg.
Qed.

(** C3: when the wait before attempt k > 0 is reached, that is the
    request marshals, its URL parses, the k attempts before it were
    retried and the waits before them were not interrupted, and the
    context is done during that wait, [makeRequest] returns the context's
    error after exactly k attempts, the last event being the interrupted
    wait: attempt k is not made.  The error returned (context canceled or
    deadline exceeded) differs, as a value and by its message, from every
    error the loop keeps from a failed attempt and returns on exhaustion. *)
Theorem cancellation_during_wait (rt : Runtime) (s : HuggingFaceService.t)
    (fuel : nat) (w : World) (modelName : string) (req : HuggingFaceRequest.t)
    (requestBody : string) (k : Z) (c : ctxErr) :
  0 < k <= HuggingFaceConfig.RetryAttempts (HuggingFaceService.config s) ->
  HuggingFaceConfig.RetryAttempts (HuggingFaceService.config s) <= GoInt.max_int ->
  json_Marshal rt req = Ok requestBody ->
  url_Parse rt (modelURL s modelName) = None ->
  (forall j, 0 <= j < k -> retried (Do w j) = true) ->
  (forall j, 0 < j < k -> Select w j = TimerFired) ->
  Select w k = CtxDone c ->
  (Z.to_nat k + 1 <= fuel)%nat ->
  exists tr : list Event,
    makeRequest rt s fuel w modelName req = Some (tr, ("", Some (ctx_Err c)))
    /\ tr = attemptsTrace s modelName (modelURL s modelName) requestBody 0 (Z.to_nat k)
            ++ [Interrupted
                  (HuggingFaceConfig.RetryDelay (HuggingFaceService.config s))]
    /\ attempts tr = Z.to_nat k
    /\ (forall (o : DoOutcome) (e : error),
          failure rt o = Some e ->
          e <> ctx_Err c /\ Error e <> Error (ctx_Err c)).
Proof.
  set (N := HuggingFaceConfig.RetryAttempts (HuggingFaceService.config s)).
  intros Hk HN Hm Hu Hall Hsel Hdone Hfuel.
  eexists. split; [|split; [reflexivity|split]].
  - rewrite (makeRequest_loop _ _ _ _ _ _ requestBody) by done.
    replace fuel with (Z.to_nat k + S (fuel - Z.to_nat k - 1))%nat by lia.
    rewrite retryLoop_retried; try done; try (fold N; lia).
    + cbn [retryLoop]. fold N.
      replace (0 + Z.of_nat (Z.to_nat k)) with k by lia.
      assert ((k <=? N) = true) as -> by (apply Z.leb_le; lia).
      unfold iteration.
      assert ((0 <? k) = true) as -> by (apply Z.ltb_lt; lia).
      rewrite Hdone. done.
    + intros j Hj. split; [apply Hall; lia | intros; apply Hsel; lia].
  - rewrite attempts_app, attempts_attemptsTrace. unfold attempts. simpl. lia.
  - intros o e. apply failure_is_not_ctx_Err.
Qed.

Lemma cancellation_during_wait_witness :
  exists tr : list Event,
    makeRequest (fixed_runtime (Ok []) (Ok [])) (demo_service 3) 3
      (cancelled_world (Responded 503 "loading") 2 Canceled) "gpt2"
      (HuggingFaceRequest.mk "Hi" ∅ ∅)
    = Some (tr, ("", Some context_Canceled))
    /\ attempts tr = 2%nat
    /\ last tr = Some (Interrupted 1000000000).
Proof.
  destruct (cancellation_during_wait (fixed_runtime (Ok []) (Ok []))
              (demo_service 3) 3
              (cancelled_world (Responded 503 "loading") 2 Canceled) "gpt2"
              (HuggingFaceRequest.mk "Hi" ∅ ∅) "Hi" 2 Canceled)
    as (tr & Hrun & Htr & Hattempts & _).
  - vm_compute. split; [reflexivity | discriminate].
  - vm_compute. discriminate.
  - reflexivity.
  - reflexivity.
  - intros j Hj. reflexivity.
  - intros j Hj. simpl. destruct (j =? 2) eqn:E; [|reflexivity].
    apply Z.eqb_eq in E. lia.
  - reflexivity.
  - vm_compute. lia.
  - exists tr. split; [exact Hrun|]. split; [exact Hattempts|].
    rewrite Htr. apply last_snoc.
Defined.

(** * Further properties of the service *)

(** ** The retry loop, for every world *)

Section RetryInvariants.

Variable rt : Runtime.
Variable s : HuggingFaceService.t.
Variable w : World.
Variables modelName url requestBody : string.

Local Abbreviation N := (HuggingFaceConfig.RetryAttempts (HuggingFaceService.config s)).
Local Abbreviation delay := (HuggingFaceConfig.RetryDelay (HuggingFaceService.config s)).

Hypothesis url_ok : url_Parse rt url = None.

Lemma iteration_cases (attempt : Z) :
  iteration rt s w modelName url requestBody attempt
  = match (if 0 <? attempt then Select w attempt else TimerFired) with
    | CtxDone c => Return [Interrupted delay] "" (Some (ctx_Err c))
    | TimerFired =>
        outcomeStep rt (attemptEvents s modelName url requestBody attempt)
          (Do w attempt)
    end.
Proof.
  unfold iteration, NewRequest, outcomeStep, attemptEvents. rewrite url_ok.
  destruct (if 0 <? attempt then Select w attempt else TimerFired); [|done].
  by destruct (Do w attempt).
Qed.

Lemma stepEvents_outcomeStep (ev : list Event) (o : DoOutcome) :
  stepEvents (outcomeStep rt ev o) = ev.
Proof.
  destruct o as [e|st e|st body]; simpl; try done.
  destruct (st =? 200); [done|]. by destruct ((400 <=? st) && (st <? 500)).
Qed.




(** One unfolding of the loop in terms of [outcomeStep]. *)
Lemma retryLoop_unfold (fuel : nat) (attempt : Z) (lastErr : option error) :
  retryLoop rt s (S fuel) w modelName url requestBody attempt lastErr
  = if attempt <=? N then
      match (if 0 <? attempt then Select w attempt else TimerFired) with
      | CtxDone c => Some ([Interrupted delay], ("", Some (ctx_Err c)))
      | TimerFired =>
          match outcomeStep rt (attemptEvents s modelName url requestBody attempt)
                  (Do w attempt) with
          | Return ev body err => Some (ev, (body, err))
          | Break ev e => Some (ev, ("", Some e))
          | Continue ev e =>
              match retryLoop rt s fuel w modelName url requestBody
                      (GoInt.add attempt 1) (Some e) with
              | Some (tr, r) => Some (ev ++ tr, r)
              | None => None
              end
          end
      end
    else Some ([], ("", lastErr)).
Proof.
  cbn [retryLoop]. rewrite iteration_cases.
  by destruct (if 0 <? attempt then Select w attempt else TimerFired).
Qed.

(** The three ways a pass that reaches the upstream can end, read off the
    outcome. *)
Lemma outcomeStep_cases (ev : list Event) (o : DoOutcome) :
  (exists body, o = Responded 200 body /\ outcomeStep rt ev o = Return ev body None)
  \/ (exists st body, o = Responded st body /\ 400 <= st < 500
        /\ outcomeStep rt ev o = Break ev (apiError rt st body))
  \/ (exists e, retried o = true /\ failure rt o = Some e
        /\ outcomeStep rt ev o = Continue ev e).
Proof.
  destruct o as [e|st e|st body]; simpl.
  - right; right. eauto.
  - right; right. eauto.
  - destruct (st =? 200) eqn:E2.
    + apply Z.eqb_eq in E2 as ->. left. eauto.
    + destruct ((400 <=? st) && (st <? 500)) eqn:E4.
      * right; left. apply andb_true_iff in E4 as [?%Z.leb_le ?%Z.ltb_lt].
        eexists _, _. repeat split; done.
      * right; right. eauto.
Qed.

Lemma retryLoop_terminates (fuel : nat) :
  forall (attempt : Z) (lastErr : option error),
    0 <= attempt -> N < GoInt.max_int ->
    (Z.to_nat (N + 1 - attempt) + 1 <= fuel)%nat ->
    exists tr r,
      retryLoop rt s fuel w modelName url requestBody attempt lastErr = Some (tr, r).
Proof.
  induction fuel as [|fuel IH]; intros attempt lastErr Hpos HN Hfuel; [lia|].
  rewrite retryLoop_unfold.
  destruct (attempt <=? N) eqn:E; [|eauto]. apply Z.leb_le in E.
  destruct (if 0 <? attempt then Select w attempt else TimerFired); [|eauto].
  destruct (outcomeStep rt _ (Do w attempt)) as [ev body err|ev e|ev e]; eauto.
  rewrite add_exact
    by (unfold GoInt.in_range, GoInt.min_int, GoInt.max_int in *; lia).
  destruct (IH (attempt + 1) (Some e)) as (tr & r & ->); [lia|lia|lia|]. eauto.
Qed.


Lemma retryLoop_sent (fuel : nat) :
  forall (attempt : Z) (lastErr : option error) (tr : list Event)
         (r : string * option error) (q : Request.t),
    retryLoop rt s fuel w modelName url requestBody attempt lastErr = Some (tr, r) ->
    Sent q ∈ tr -> q = sentRequest s url requestBody.
Proof.
  induction fuel as [|fuel IH]; intros attempt lastErr tr r q; [done|].
  rewrite retryLoop_unfold.
  assert (forall a, Sent q ∈ attemptEvents s modelName url requestBody a ->
                    q = sentRequest s url requestBody) as Hhere.
  { intros a. unfold attemptEvents, retryEvents.
    destruct (0 <? a); simpl; intros H;
      repeat (apply elem_of_cons in H as [H|H];
              [try discriminate H; by injection H as ->|]);
      by apply elem_of_nil in H. }
  destruct (attempt <=? N).
  - destruct (if 0 <? attempt then Select w attempt else TimerFired).
    + pose proof (stepEvents_outcomeStep
                    (attemptEvents s modelName url requestBody attempt)
                    (Do w attempt)) as Hev.
      destruct (outcomeStep rt _ (Do w attempt)) as [ev body err|ev e|ev e];
        simpl in Hev; subst ev.
      * intros [= <- <-]. apply Hhere.
      * destruct (retryLoop rt s fuel w modelName url requestBody
                    (GoInt.add attempt 1) (Some e)) as [[tr' r']|] eqn:Hrec; [|done].
        intros [= <- <-] [Hin|Hin]%elem_of_app; [by eapply Hhere | by eapply IH].
      * intros [= <- <-]. apply Hhere.
    + intros [= <- <-] Hin. apply elem_of_cons in Hin as [Hin|Hin]; [done|].
      by apply elem_of_nil in Hin.
  - intros [= <- <-] Hin. by apply elem_of_nil in Hin.
Qed.

(** Every way the loop can end: with the body of a 200 response, with
    the error of a response in [400,500), with the context's error, or,
    the attempts being used up, with the error it was entered with or
    the error of a retried attempt. *)
Lemma retryLoop_results (fuel : nat) :
  forall (attempt : Z) (lastErr : option error) (tr : list Event)
         (body : string) (err : option error),
    0 <= attempt -> N < GoInt.max_int ->
    retryLoop rt s fuel w modelName url requestBody attempt lastErr
    = Some (tr, (body, err)) ->
    (exists k, attempt <= k <= N /\ Do w k = Responded 200 body /\ err = None
               /\ attempts tr = Z.to_nat (k + 1 - attempt))
    \/ (body = ""
        /\ ((exists k st b, attempt <= k <= N /\ Do w k = Responded st b
                            /\ 400 <= st < 500 /\ err = Some (apiError rt st b))
            \/ (exists k c, 0 < k <= N /\ Select w k = CtxDone c
                            /\ err = Some (ctx_Err c))
            \/ (exists k e, attempt <= k <= N /\ retried (Do w k) = true
                            /\ failure rt (Do w k) = Some e /\ err = Some e)
            \/ (err = lastErr /\ tr = [] /\ N < attempt))).
Proof.
  induction fuel as [|fuel IH]; intros attempt lastErr tr body err Hpos HN; [done|].
  rewrite retryLoop_unfold.
  destruct (attempt <=? N) eqn:E.
  - apply Z.leb_le in E.
    destruct (if 0 <? attempt then Select w attempt else TimerFired) as [|c] eqn:Es.
    + destruct (outcomeStep_cases
                  (attemptEvents s modelName url requestBody attempt) (Do w attempt))
        as [(b & Hdo & ->)|[(st & b & Hdo & Hst & ->)|(e & Hret & Hf & ->)]].
      * intros [= <- <- <-]. left. exists attempt. rewrite attempts_attemptEvents.
        repeat split; try done; lia.
      * intros [= <- <- <-]. right. split; [done|]. left.
        exists attempt, st, b. repeat split; try done; lia.
      * rewrite add_exact
          by (unfold GoInt.in_range, GoInt.min_int, GoInt.max_int in *; lia).
        destruct (retryLoop rt s fuel w modelName url requestBody (attempt + 1)
                    (Some e)) as [[tr' [body' err']]|] eqn:Hrec; [|done].
        intros [= <- <- <-].
        apply IH in Hrec
          as [(k & Hk & Hdo & -> & Hat)
             |(-> & [(k & st & b & Hk & Hdo & Hst & ->)
                    |[(k & c & Hk & Hsel & ->)
                     |[(k & e' & Hk & Hret' & Hf' & ->)|(-> & -> & Hend)]]])];
          [ | | | | |lia|lia].
        -- left. exists k. rewrite attempts_app, attempts_attemptEvents, Hat.
           repeat split; try done; lia.
        -- right. split; [done|]. left. exists k, st, b. repeat split; try done; lia.
        -- right. split; [done|]. right; left. eauto.
        -- right. split; [done|]. right; right; left.
           exists k, e'. repeat split; try done; lia.
        -- right. split; [done|]. right; right; left.
           exists attempt, e. repeat split; try done; lia.
    + destruct (0 <? attempt) eqn:Ea; [|done]. apply Z.ltb_lt in Ea.
      intros [= <- <- <-]. right. split; [done|]. right; left.
      exists attempt, c. repeat split; try done; lia.
  - apply Z.leb_gt in E.
    intros [= <- <- <-]. right. split; [done|]. right; right; right. done.
Qed.

End RetryInvariants.

(** ** [makeRequest], for every world *)

Lemma makeRequest_cases (rt : Runtime) (s : HuggingFaceService.t) (fuel : nat)
    (w : World) (modelName : string) (req : HuggingFaceRequest.t) :
  (exists c, json_Marshal rt req = Err c
             /\ makeRequest rt s fuel w modelName req
                = Some ([], ("", Some (Wrapf "failed to marshal request: " c))))
  \/ (exists requestBody c,
        json_Marshal rt req = Ok requestBody
        /\ url_Parse rt (modelURL s modelName) = Some c
        /\ makeRequest rt s fuel w modelName req
           = Some ([], ("", Some (Wrapf "failed to create request: " c))))
  \/ (exists requestBody,
        json_Marshal rt req = Ok requestBody
        /\ url_Parse rt (modelURL s modelName) = None
        /\ makeRequest rt s fuel w modelName req
           = retryLoop rt s fuel w modelName (modelURL s modelName) requestBody 0 None).
Proof.
  unfold makeRequest, NewRequest. fold (modelURL s modelName).
  destruct (json_Marshal rt req) as [requestBody|c]; [|left; eauto].
  destruct (url_Parse rt (modelURL s modelName)) as [c|] eqn:Hu.
  - right; left. eauto.
  - right; right. eauto.
Qed.

(** X1: the retry loop ends.  For every world, request and runtime, when
    RetryAttempts is below the largest int, [makeRequest] returns once it
    is given fuel for RetryAttempts + 2 passes (one pass when
    RetryAttempts is negative). *)
Theorem makeRequest_terminates (rt : Runtime) (s : HuggingFaceService.t)
    (fuel : nat) (w : World) (modelName : string) (req : HuggingFaceRequest.t) :
  HuggingFaceConfig.RetryAttempts (HuggingFaceService.config s) < GoInt.max_int ->
  (Z.to_nat (HuggingFaceConfig.RetryAttempts (HuggingFaceService.config s) + 1) + 1
   <= fuel)%nat ->
  exists tr r, makeRequest rt s fuel w modelName req = Some (tr, r).
Proof.
  intros HN Hfuel.
  destruct (makeRequest_cases rt s fuel w modelName req)
    as [(c & _ & ->)|[(b & c & _ & _ & ->)|(b & _ & Hu & ->)]]; eauto.
  apply retryLoop_terminates; try done. by rewrite Z.sub_0_r.
Qed.

Lemma makeRequest_terminates_witness :
  exists tr r,
    makeRequest demo_runtime (demo_service 2) 4
      (cancelled_world (DoFailed (Foreign "connection refused")) 7 Canceled)
      "gpt2" demo_payload = Some (tr, r).
Proof.
  apply makeRequest_terminates.
  - vm_compute. reflexivity.
  - vm_compute. lia.
Defined.



(** X3: every HTTP request [makeRequest] sends, first attempt or retry,
    is the same: a POST to BaseURL/models/modelName whose body is the
    marshalled payload and whose headers are exactly the bearer
    authorization built from the API key, the JSON content type and the
    user agent. *)
Theorem sent_requests_uniform (rt : Runtime) (s : HuggingFaceService.t)
    (fuel : nat) (w : World) (modelName : string) (req : HuggingFaceRequest.t)
    (tr : list Event) (r : string * option error) (q : Request.t) :
  makeRequest rt s fuel w modelName req = Some (tr, r) ->
  Sent q ∈ tr ->
  json_Marshal rt req = Ok (Request.Body q)
  /\ Request.Method q = "POST"
  /\ Request.URL q
     = HuggingFaceConfig.BaseURL (HuggingFaceService.config s)
       +:+ "/models/" +:+ modelName
  /\ Request.Header q
     = <["User-Agent" := "go-ai-huggingface/1.0"]>
         (<["Content-Type" := "application/json"]>
           (<["Authorization" :=
                "Bearer " +:+ HuggingFaceConfig.APIKey (HuggingFaceService.config s)]>
             ∅)).
Proof.
  intros Hrun Hin.
  destruct (makeRequest_cases rt s fuel w modelName req)
    as [(c & _ & Heq)|[(b & c & _ & _ & Heq)|(b & Hm & Hu & Heq)]];
    rewrite Heq in Hrun.
  - injection Hrun as <- <-. by apply elem_of_nil in Hin.
  - injection Hrun as <- <-. by apply elem_of_nil in Hin.
  - eapply retryLoop_sent in Hrun; [|done|exact Hin]. subst q. done.
Qed.

Lemma sent_requests_uniform_witness :
  exists tr r q,
    makeRequest demo_runtime (demo_service 3) 5
      (steady_world (Responded 500 "oops")) "gpt2" demo_payload = Some (tr, r)
    /\ tr !! 3%nat = Some (Sent q)
    /\ Request.Body q = "Hi"
    /\ Request.URL q = "https://api-inference.huggingface.co/models/gpt2"
    /\ Request.Header q !! "Authorization" = Some "Bearer hf_key".
Proof.
  eexists _, _, _. split; [vm_compute; reflexivity|]. split; [reflexivity|].
  match goal with
  | |- context [Request.Body ?q] =>
      destruct (sent_requests_uniform demo_runtime (demo_service 3) 5
                  (steady_world (Responded 500 "oops")) "gpt2" demo_payload
                  _ _ q ltac:(vm_compute; reflexivity))
        as (Hbody & _ & Hurl & Hheader)
  end.
  - apply (list_elem_of_lookup_2 _ 3%nat). reflexivity.
  - split; [reflexivity|]. split; [exact Hurl|]. rewrite Hheader. reflexivity.
Defined.

(** X4: a body comes from a 200 response only.  When [makeRequest]
    returns without an error, either some attempt k within the budget was
    answered with status 200 and the body returned is the body of that
    response, k + 1 attempts having been made, or RetryAttempts is
    negative, no attempt was made and the body is empty. *)
Theorem returned_body_is_upstream_200 (rt : Runtime) (s : HuggingFaceService.t)
    (fuel : nat) (w : World) (modelName : string) (req : HuggingFaceRequest.t)
    (tr : list Event) (body : string) :
  makeRequest rt s fuel w modelName req = Some (tr, (body, None)) ->
  HuggingFaceConfig.RetryAttempts (HuggingFaceService.config s) < GoInt.max_int ->
  (exists k,
     0 <= k <= HuggingFaceConfig.RetryAttempts (HuggingFaceService.config s)
     /\ Do w k = Responded 200 body
     /\ attempts tr = Z.to_nat (k + 1))
  \/ (HuggingFaceConfig.RetryAttempts (HuggingFaceService.config s) < 0
      /\ body = "" /\ tr = []).
Proof.
  intros Hrun HN.
  destruct (makeRequest_cases rt s fuel w modelName req)
    as [(c & _ & Heq)|[(b & c & _ & _ & Heq)|(b & _ & Hu & Heq)]];
    rewrite Heq in Hrun; try discriminate Hrun.
  eapply retryLoop_results in Hrun
    as [(k & Hk & Hdo & _ & Hat)
       |(-> & [(k & st & b' & _ & _ & _ & [=])
              |[(k & c & _ & _ & [=])
               |[(k & e & _ & _ & _ & [=])|(_ & -> & Hend)]]])];
    try done.
  - left. exists k. rewrite Z.sub_0_r in Hat. done.
  - right. done.
Qed.

Lemma returned_body_is_upstream_200_witness :
  exists tr k,
    makeRequest demo_runtime (demo_service 3) 5
      (recovering_world (Responded 503 "loading") 2 (Responded 200 "[]"))
      "gpt2" demo_payload = Some (tr, ("[]", None))
    /\ Do (recovering_world (Responded 503 "loading") 2 (Responded 200 "[]")) k
       = Responded 200 "[]"
    /\ attempts tr = Z.to_nat (k + 1).
Proof.
  assert (exists tr,
            makeRequest demo_runtime (demo_service 3) 5
              (recovering_world (Responded 503 "loading") 2 (Responded 200 "[]"))
              "gpt2" demo_payload = Some (tr, ("[]", None))) as [tr Hrun]
    by (eexists; vm_compute; reflexivity).
  destruct (returned_body_is_upstream_200 _ _ _ _ _ _ _ _ Hrun)
    as [(k & _ & Hdo & Hat)|(Hneg & _)].
  - vm_compute. reflexivity.
  - exists tr, k. split; [exact Hrun|]. split; [exact Hdo|exact Hat].
  - vm_compute in Hneg. discriminate Hneg.
Defined.

(** X5: the errors of the transport.  An error returned by [makeRequest]
    comes without a body and is one of five: the wrapped marshalling
    error or the wrapped request-creation error, both before any attempt;
    the API error of an attempt answered with a status in [400,500); the
    context's error, of a wait that was interrupted; or the error of a
    retried attempt (failed exchange, unreadable body, or status neither
    200 nor in [400,500)). *)
Theorem makeRequest_error_kinds (rt : Runtime) (s : HuggingFaceService.t)
    (fuel : nat) (w : World) (modelName : string) (req : HuggingFaceRequest.t)
    (tr : list Event) (body : string) (e : error) :
  makeRequest rt s fuel w modelName req = Some (tr, (body, Some e)) ->
  HuggingFaceConfig.RetryAttempts (HuggingFaceService.config s) < GoInt.max_int ->
  body = ""
  /\ ((exists c, json_Marshal rt req = Err c
                 /\ e = Wrapf "failed to marshal request: " c /\ tr = [])
      \/ (exists c, url_Parse rt (modelURL s modelName) = Some c
                    /\ e = Wrapf "failed to create request: " c /\ tr = [])
      \/ (exists k st b,
            0 <= k <= HuggingFaceConfig.RetryAttempts (HuggingFaceService.config s)
            /\ Do w k = Responded st b /\ 400 <= st < 500
            /\ e = apiError rt st b)
      \/ (exists k c,
            0 < k <= HuggingFaceConfig.RetryAttempts (HuggingFaceService.config s)
            /\ Select w k = CtxDone c /\ e = ctx_Err c)
      \/ (exists k,
            0 <= k <= HuggingFaceConfig.RetryAttempts (HuggingFaceService.config s)
            /\ retried (Do w k) = true /\ failure rt (Do w k) = Some e)).
Proof.
  intros Hrun HN.
  destruct (makeRequest_cases rt s fuel w modelName req)
    as [(c & Hm & Heq)|[(b & c & _ & Hu & Heq)|(b & _ & Hu & Heq)]];
    rewrite Heq in Hrun.
  - injection Hrun as <- <- <-. split; [done|]. left. eauto.
  - injection Hrun as <- <- <-. split; [done|]. right; left. eauto.
  - eapply retryLoop_results in Hrun
      as [(k & _ & _ & [=] & _)
         |(-> & [(k & st & b' & Hk & Hdo & Hst & [= ->])
                |[(k & c & Hk & Hsel & [= ->])
                 |[(k & e' & Hk & Hret & Hf & [= ->])|([=] & _)]]])];
      try done; (split; [done|]).
    + right; right; left. exists k, st, b'. done.
    + right; right; right; left. exists k, c. done.
    + right; right; right; right. exists k. done.
Qed.

Lemma makeRequest_error_kinds_witness :
  exists tr k,
    makeRequest demo_runtime (demo_service 1) 3
      (steady_world (ReadFailed 404 (Foreign "unexpected EOF"))) "gpt2" demo_payload
    = Some (tr, ("", Some (Wrapf "failed to read response: " (Foreign "unexpected EOF"))))
    /\ attempts tr = 2%nat
    /\ retried (Do (steady_world (ReadFailed 404 (Foreign "unexpected EOF"))) k) = true.
Proof.
  assert (exists tr,
            makeRequest demo_runtime (demo_service 1) 3
              (steady_world (ReadFailed 404 (Foreign "unexpected EOF"))) "gpt2"
              demo_payload
            = Some (tr, ("", Some (Wrapf "failed to read response: "
                                     (Foreign "unexpected EOF"))))
            /\ attempts tr = 2%nat) as (tr & Hrun & Hat)
    by (eexists; split; vm_compute; reflexivity).
  destruct (makeRequest_error_kinds _ _ _ _ _ _ _ _ _ Hrun)
    as (_ & [(c & [=] & _)|[(c & [=] & _)|[(k & st & b & _ & [=] & _)
            |[(k & c & _ & [=] & _)|(k & _ & Hret & _)]]]]).
  - vm_compute. reflexivity.
  - exists tr, k. done.
Defined.

(** X6: recovery.  When the request marshals, its URL parses, the
    attempts before attempt k (0 <= k <= RetryAttempts) are retried, no
    wait up to it is interrupted and the upstream answers attempt k with
    status 200, [makeRequest] returns the body of that response
    unchanged, without an error, after exactly k + 1 attempts. *)
Theorem retry_then_success (rt : Runtime) (s : HuggingFaceService.t) (fuel : nat)
    (w : World) (modelName : string) (req : HuggingFaceRequest.t)
    (requestBody : string) (k : Z) (body : string) :
  0 <= k <= HuggingFaceConfig.RetryAttempts (HuggingFaceService.config s) ->
  HuggingFaceConfig.RetryAttempts (HuggingFaceService.config s) <= GoInt.max_int ->
  json_Marshal rt req = Ok requestBody ->
  url_Parse rt (modelURL s modelName) = None ->
  (forall j, 0 <= j < k -> retried (Do w j) = true) ->
  (forall j, 0 < j <= k -> Select w j = TimerFired) ->
  Do w k = Responded 200 body ->
  (Z.to_nat k + 1 <= fuel)%nat ->
  exists tr : list Event,
    makeRequest rt s fuel w modelName req = Some (tr, (body, None))
    /\ tr = attemptsTrace s modelName (modelURL s modelName) requestBody 0
              (Z.to_nat (k + 1))
    /\ attempts tr = Z.to_nat (k + 1).
Proof.
  set (N := HuggingFaceConfig.RetryAttempts (HuggingFaceService.config s)).
  intros Hk HN Hm Hu Hall Hsel Hdo Hfuel.
  eexists. split; [|split; [reflexivity|apply attempts_attemptsTrace]].
  rewrite (makeRequest_loop _ _ _ _ _ _ requestBody) by done.
  replace fuel with (Z.to_nat k + S (fuel - Z.to_nat k - 1))%nat by lia.
  rewrite retryLoop_retried; try done; try (fold N; lia).
  - rewrite retryLoop_unfold by done. fold N.
    replace (0 + Z.of_nat (Z.to_nat k)) with k by lia.
    assert ((k <=? N) = true) as -> by (apply Z.leb_le; lia).
    assert ((if 0 <? k then Select w k else TimerFired) = TimerFired) as ->.
    { destruct (0 <? k) eqn:E; [|done]. apply Hsel. apply Z.ltb_lt in E. lia. }
    rewrite Hdo. simpl. do 2 f_equal.
    replace (Z.to_nat (k + 1)) with (Z.to_nat k + 1)%nat by lia.
    rewrite attemptsTrace_snoc. do 2 f_equal. lia.
  - intros j Hj. split; [apply Hall; lia | intros; apply Hsel; lia].
Qed.

Lemma retry_then_success_witness :
  exists tr : list Event,
    makeRequest demo_runtime (demo_service 3) 3
      (recovering_world (DoFailed (Foreign "connection reset")) 2
         (Responded 200 "[1]")) "gpt2" demo_payload
    = Some (tr, ("[1]", None))
    /\ attempts tr = 3%nat.
Proof.
  destruct (retry_then_success demo_runtime (demo_service 3) 3
              (recovering_world (DoFailed (Foreign "connection reset")) 2
                 (Responded 200 "[1]")) "gpt2" demo_payload "Hi" 2 "[1]")
    as (tr & Hrun & _ & Hat).
  - vm_compute. split; discriminate.
  - vm_compute. discriminate.
  - reflexivity.
  - reflexivity.
  - intros j Hj. simpl. destruct (j =? 2) eqn:E; [|reflexivity].
    apply Z.eqb_eq in E. lia.
  - intros j Hj. reflexivity.
  - reflexivity.
  - vm_compute. lia.
  - exists tr. split; [exact Hrun|exact Hat].
Defined.

(** X7: a negative retry budget.  With RetryAttempts below zero the loop
    body never runs: [makeRequest] makes no attempt and returns neither a
    body nor an error, so that [GenerateText], for a valid request, makes
    no HTTP attempt and fails with the error of decoding an empty body,
    wrapped as a parse failure. *)
Theorem negative_retry_budget (rt : Runtime) (s : HuggingFaceService.t)
    (fuel : nat) (w : World) (req : AIRequest.t) (requestBody : string)
    (e : error) :
  HuggingFaceConfig.RetryAttempts (HuggingFaceService.config s) < 0 ->
  Validate req = None ->
  json_Marshal rt (generationPayload req) = Ok requestBody ->
  url_Parse rt (modelURL s (AIRequest.Model req)) = None ->
  json_Unmarshal_responses rt "" = Err e ->
  (1 <= fuel)%nat ->
  makeRequest rt s fuel w (AIRequest.Model req) (generationPayload req)
  = Some ([], ("", None))
  /\ exists tr : list Event,
       GenerateText rt s fuel w req
       = Some (tr, Err (Wrapf "failed to parse response: " e))
       /\ attempts tr = 0%nat.
Proof.
  intros HN Hv Hm Hu Hdec Hfuel.
  assert (makeRequest rt s fuel w (AIRequest.Model req) (generationPayload req)
          = Some ([], ("", None))) as Hrun.
  { rewrite (makeRequest_loop _ _ _ _ _ _ requestBody) by done.
    destruct fuel as [|fuel]; [lia|]. cbn [retryLoop].
    assert ((0 <=? HuggingFaceConfig.RetryAttempts (HuggingFaceService.config s))
            = false) as -> by (apply Z.leb_gt; lia).
    done. }
  split; [exact Hrun|].
  unfold GenerateText. rewrite Hv, Hrun, Hdec. eexists. split; [reflexivity|].
  by rewrite attempts_cons.
Qed.

Lemma negative_retry_budget_witness :
  exists tr : list Event,
    GenerateText
      (fixed_runtime (Err (Foreign "unexpected end of JSON input")) (Ok []))
      (demo_service (-1)) 1 (steady_world (Responded 200 "[]"))
      (demo_request "Hello" (1 # 2) ∅)
    = Some (tr, Err (Wrapf "failed to parse response: "
                       (Foreign "unexpected end of JSON input")))
    /\ attempts tr = 0%nat.
Proof.
  destruct (negative_retry_budget
              (fixed_runtime (Err (Foreign "unexpected end of JSON input")) (Ok []))
              (demo_service (-1)) 1 (steady_world (Responded 200 "[]"))
              (demo_request "Hello" (1 # 2) ∅) "Hello"
              (Foreign "unexpected end of JSON input"))
    as (_ & tr & Hrun & Hat).
  - vm_compute. reflexivity.
  - reflexivity.
  - reflexivity.
  - reflexivity.
  - reflexivity.
  - lia.
  - exists tr. split; [exact Hrun|exact Hat].
Defined.

(** ** Validation, read both ways *)

Lemma eqb_empty_false (x : string) : String.eqb x "" = false <-> x <> "".
Proof. rewrite <- eqb_empty. by destruct (String.eqb x ""). Qed.

Lemma Validate_None_fields (r : AIRequest.t) :
  Validate r = None -> AIRequest.Prompt r <> "" /\ AIRequest.Model r <> "".
Proof.
  unfold Validate.
  destruct (String.eqb (AIRequest.Prompt r) "") eqn:Ep; [done|].
  destruct (String.eqb (AIRequest.Model r) "") eqn:Em; [done|].
  intros _. by apply eqb_empty_false in Ep, Em.
Qed.

(** X8: [Validate] accepts a request exactly when its prompt and model
    are not empty, max tokens is not negative and the temperature lies in
    [0,1]; every rejection has code 400, type validation_error and no
    details. *)
Theorem Validate_accepts_iff (r : AIRequest.t) :
  (Validate r = None
   <-> AIRequest.Prompt r <> "" /\ AIRequest.Model r <> ""
       /\ 0 <= AIRequest.MaxTokens r
       /\ (0 <= AIRequest.Temperature r)%Q /\ (AIRequest.Temperature r <= 1)%Q)
  /\ (forall e, Validate r = Some e ->
        ErrorResponse.Code e = 400
        /\ ErrorResponse.Type_ e = "validation_error"
        /\ ErrorResponse.Details e = VNil).
Proof.
  unfold Validate.
  destruct (String.eqb (AIRequest.Prompt r) "") eqn:Ep.
  { apply eqb_empty in Ep. split; [|by intros e [= <-]].
    split; [done|]. by intros (H & _). }
  destruct (String.eqb (AIRequest.Model r) "") eqn:Em.
  { apply eqb_empty in Em. split; [|by intros e [= <-]].
    split; [done|]. by intros (_ & H & _). }
  destruct (AIRequest.MaxTokens r <? 0) eqn:Et.
  { apply Z.ltb_lt in Et. split; [|by intros e [= <-]].
    split; [done|]. intros (_ & _ & H & _). lia. }
  apply eqb_empty_false in Ep, Em. apply Z.ltb_ge in Et.
  destruct (Qltb (AIRequest.Temperature r) 0) eqn:E0; simpl.
  { apply Qltb_lt in E0. split; [|by intros e [= <-]].
    split; [done|]. intros (_ & _ & _ & H & _). by apply Qlt_not_le in E0. }
  destruct (Qgtb (AIRequest.Temperature r) 1) eqn:E1.
  { unfold Qgtb in E1. apply Qltb_lt in E1. split; [|by intros e [= <-]].
    split; [done|]. intros (_ & _ & _ & _ & H). by apply Qlt_not_le in E1. }
  split; [|done]. split; [|done]. intros _.
  apply Qgtb_false in E1. repeat split; try done.
  apply Qnot_lt_le. intros H. apply Qltb_lt in H. congruence.
Qed.

(** ** The generation path, read backwards *)

(** X9: a response is returned for a valid request only.  Whenever
    [GenerateText] returns a response, the request has a prompt and a
    model, the response echoes the request's id and model, has at least
    one choice, and every choice has its position as index, finish reason
    "stop" and no log probabilities. *)
Theorem generation_response_shape (rt : Runtime) (s : HuggingFaceService.t)
    (fuel : nat) (w : World) (req : AIRequest.t) (tr : list Event)
    (resp : AIResponse.t) :
  GenerateText rt s fuel w req = Some (tr, Ok resp) ->
  AIRequest.Prompt req <> "" /\ AIRequest.Model req <> ""
  /\ AIResponse.ID resp = AIRequest.ID req
  /\ AIResponse.Model resp = AIRequest.Model req
  /\ AIResponse.Choices resp <> []
  /\ (forall i c, AIResponse.Choices resp !! i = Some c ->
        Choice.Index c = Z.of_nat i /\ Choice.FinishReason c = "stop"
        /\ Choice.LogProbs c = None).
Proof.
  intros Hrun.
  destruct (GenerateText_Ok_inv _ _ _ _ _ _ _ Hrun)
    as (tr0 & response & hfResponses & Hv & Hm & Hu & Hne).
  destruct (GenerateText_returns _ _ _ _ _ _ _ _ Hv Hm Hu Hne) as (tr' & Hrun' & _).
  rewrite Hrun in Hrun'. injection Hrun' as _ ->.
  cbn [AIResponse.ID AIResponse.Model AIResponse.Choices].
  destruct (Validate_None_fields req Hv) as (Hp & Hmo).
  repeat split; try done.
  - destruct hfResponses; [done|]. simpl. done.
  - apply list_lookup_imap_Some in H as (y & _ & ->). done.
  - apply list_lookup_imap_Some in H as (y & _ & ->). done.
  - apply list_lookup_imap_Some in H as (y & _ & ->). done.
Qed.

Lemma generation_response_shape_witness :
  exists tr resp,
    GenerateText (fixed_runtime (Ok [generated "Hi there!"; generated "Hi"]) (Ok []))
      (demo_service 3) 1 (steady_world (Responded 200 "body"))
      (demo_request "Hi" (1 # 2) ∅) = Some (tr, Ok resp)
    /\ AIResponse.ID resp = "req-1"
    /\ AIResponse.Model resp = "gpt2"
    /\ AIResponse.Choices resp <> [].
Proof.
  eexists _, _. split; [vm_compute; reflexivity|].
  match goal with
  | |- context [AIResponse.ID ?r] =>
      destruct (generation_response_shape
                  (fixed_runtime (Ok [generated "Hi there!"; generated "Hi"]) (Ok []))
                  (demo_service 3) 1 (steady_world (Responded 200 "body"))
                  (demo_request "Hi" (1 # 2) ∅) _ r
                  ltac:(vm_compute; reflexivity))
        as (_ & _ & Hid & Hmodel & Hne & _)
  end.
  split; [exact Hid|]. split; [exact Hmodel|exact Hne].
Defined.

Lemma prompt_share (prompt : string) (hfResponses : list HuggingFaceResponse.t) :
  Z.of_nat (length hfResponses) * (len prompt / 4)
  <= Zsum ((fun r => (len prompt + len (trimmed prompt r)) / 4) <$> hfResponses).
Proof.
  induction hfResponses as [|r rest IH]; [simpl; lia|].
  rewrite fmap_cons, Zsum_cons. cbn [length].
  pose proof (len_nonneg (trimmed prompt r)).
  pose proof (Z.div_le_mono (len prompt) (len prompt + len (trimmed prompt r)) 4).
  lia.
Qed.

(** X10: the prompt is counted once per choice.  For every response
    [GenerateText] returns with n choices whose counted characters fit an
    int, total_tokens is at least n times prompt_tokens, so that
    completion_tokens is at least (n - 1) times prompt_tokens, and none of
    the three is negative. *)
Theorem usage_counts_prompt_per_choice (rt : Runtime) (s : HuggingFaceService.t)
    (fuel : nat) (w : World) (req : AIRequest.t) (tr : list Event)
    (resp : AIResponse.t) :
  GenerateText rt s fuel w req = Some (tr, Ok resp) ->
  countedChars (AIRequest.Prompt req) (AIResponse.Choices resp) <= GoInt.max_int ->
  0 <= Usage.PromptTokens (AIResponse.Usage resp)
  /\ Z.of_nat (length (AIResponse.Choices resp))
     * Usage.PromptTokens (AIResponse.Usage resp)
     <= Usage.TotalTokens (AIResponse.Usage resp)
  /\ (Z.of_nat (length (AIResponse.Choices resp)) - 1)
     * Usage.PromptTokens (AIResponse.Usage resp)
     <= Usage.CompletionTokens (AIResponse.Usage resp)
  /\ 0 <= Usage.CompletionTokens (AIResponse.Usage resp).
Proof.
  intros Hrun.
  destruct (GenerateText_Ok_inv _ _ _ _ _ _ _ Hrun)
    as (tr0 & response & hfResponses & Hv & Hm & Hu & Hne).
  destruct (GenerateText_returns _ _ _ _ _ _ _ _ Hv Hm Hu Hne) as (tr' & Hrun' & _).
  rewrite Hrun in Hrun'. injection Hrun' as _ ->.
  cbn [AIResponse.Usage AIResponse.Choices Usage.PromptTokens
       Usage.CompletionTokens Usage.TotalTokens].
  set (prompt := AIRequest.Prompt req).
  unfold countedChars.
  rewrite (choices_fmap (fun t => len prompt + len t)), length_imap.
  intros Hfit.
  pose proof (estimate_covers_prompt prompt hfResponses Hne) as [Hq Hp].
  pose proof (estimate_bounds prompt hfResponses) as Hb.
  pose proof (prompt_share prompt hfResponses) as Hshare.
  pose proof (len_nonneg prompt) as Hl.
  pose proof (Z.div_pos (len prompt) 4) as Hd.
  assert (1 <= Z.of_nat (length hfResponses)) as Hn
    by (destruct hfResponses; [done | simpl; lia]).
  rewrite (totalFrom_exact prompt hfResponses 0) by lia.
  rewrite div4_floor by lia.
  unfold GoInt.sub. rewrite wrap_in_range
    by (unfold GoInt.in_range, GoInt.min_int, GoInt.max_int in *; lia).
  repeat split; lia.
Qed.

Lemma usage_counts_prompt_per_choice_witness :
  exists tr resp,
    GenerateText
      (fixed_runtime (Ok [generated "12345678a"; generated "12345678b"]) (Ok []))
      (demo_service 3) 1 (steady_world (Responded 200 "body"))
      (demo_request "12345678" (1 # 2) ∅) = Some (tr, Ok resp)
    /\ AIResponse.Usage resp = Usage.mk 2 2 4
    /\ (2 - 1) * 2 <= Usage.CompletionTokens (AIResponse.Usage resp).
Proof.
  eexists _, _. split; [vm_compute; reflexivity|]. split; [reflexivity|].
  match goal with
  | |- context [AIResponse.Usage ?r] =>
      destruct (usage_counts_prompt_per_choice
                  (fixed_runtime (Ok [generated "12345678a"; generated "12345678b"])
                     (Ok []))
                  (demo_service 3) 1 (steady_world (Responded 200 "body"))
                  (demo_request "12345678" (1 # 2) ∅) _ r
                  ltac:(vm_compute; reflexivity))
        as (_ & _ & Hshare & _)
  end.
  - vm_compute. discriminate.
  - exact Hshare.
Defined.

(** X13: the errors of [GenerateText].  An error it returns is the
    validation error, with no effect on the outside; or the transport's
    error, unchanged, after the attempts the transport made and one error
    log line; or the wrapped decoding error of the body; or "no response
    generated" for a body decoding to an empty array. *)
Theorem GenerateText_error_kinds (rt : Runtime) (s : HuggingFaceService.t)
    (fuel : nat) (w : World) (req : AIRequest.t) (tr : list Event) (e : error) :
  GenerateText rt s fuel w req = Some (tr, Err e) ->
  (exists v, Validate req = Some v /\ e = Validation v /\ tr = [])
  \/ (exists tr0 body,
        makeRequest rt s fuel w (AIRequest.Model req) (generationPayload req)
        = Some (tr0, (body, Some e))
        /\ attempts tr = attempts tr0
        /\ last tr
           = Some (Logged ErrorLevel "Failed to generate text"
                     (<["request_id" := VString (AIRequest.ID req)]>
                        (<["error" := VString (Error e)]> ∅))))
  \/ (exists tr0 body,
        makeRequest rt s fuel w (AIRequest.Model req) (generationPayload req)
        = Some (tr0, (body, None))
        /\ attempts tr = attempts tr0
        /\ ((exists c, json_Unmarshal_responses rt body = Err c
                       /\ e = Wrapf "failed to parse response: " c)
            \/ (json_Unmarshal_responses rt body = Ok []
                /\ e = Errorf "no response generated"))).
Proof.
  unfold GenerateText. intros H.
  destruct (Validate req) as [v|] eqn:Hv.
  { injection H as <- <-. left. eauto. }
  destruct (makeRequest rt s fuel w (AIRequest.Model req) (generationPayload req))
    as [[tr0 [body [err|]]]|] eqn:Hm; try discriminate.
  - injection H as <- <-. right; left. exists tr0, body.
    split; [done|]. split.
    + rewrite attempts_cons, attempts_app, attempts_cons. simpl.
      unfold attempts at 2. simpl. lia.
    + rewrite app_comm_cons. apply last_snoc.
  - right; right.
    destruct (json_Unmarshal_responses rt body) as [[|hfResp rest]|c] eqn:Hu.
    + injection H as <- <-. exists tr0, body.
      split; [done|]. split; [by rewrite attempts_cons|]. by right.
    + destruct (fillChoices _ _ _ _ _). discriminate H.
    + injection H as <- <-. exists tr0, body.
      split; [done|]. split; [by rewrite attempts_cons|]. left. eauto.
Qed.

Lemma GenerateText_error_kinds_witness :
  exists tr tr0 body,
    GenerateText demo_runtime (demo_service 3) 1
      (steady_world (Responded 200 "[]")) (demo_request "Hello" (1 # 2) ∅)
    = Some (tr, Err (Errorf "no response generated"))
    /\ makeRequest demo_runtime (demo_service 3) 1
         (steady_world (Responded 200 "[]")) "gpt2"
         (generationPayload (demo_request "Hello" (1 # 2) ∅))
       = Some (tr0, (body, None))
    /\ attempts tr = attempts tr0.
Proof.
  assert (exists tr,
            GenerateText demo_runtime (demo_service 3) 1
              (steady_world (Responded 200 "[]")) (demo_request "Hello" (1 # 2) ∅)
            = Some (tr, Err (Errorf "no response generated"))) as [tr Hrun]
    by (eexists; vm_compute; reflexivity).
  destruct (GenerateText_error_kinds _ _ _ _ _ _ _ Hrun)
    as [(v & [=] & _)|[(tr0 & body & Hm & _)|(tr0 & body & Hm & Hat & _)]].
  - vm_compute in Hm. discriminate Hm.
  - exists tr, tr0, body. split; [exact Hrun|]. split; [exact Hm|exact Hat].
Defined.

(** ** The sentiment path, read backwards *)

Lemma scanBest_elem (results : list HuggingFaceResponse.t) :
  forall best : HuggingFaceResponse.t,
    scanBest best results = best \/ scanBest best results ∈ results.
Proof.
  unfold scanBest.
  induction results as [|x rest IH]; intros best; simpl; [by left|].
  destruct (IH (if Qgtb (score x) (score best) then x else best)) as [->|Hin].
  - destruct (Qgtb (score x) (score best)); [right; left | by left].
  - right. by right.
Qed.

(** X11: a sentiment comes from the upstream only.  Whenever
    [AnalyzeSentiment] returns a response, the transport returned a body
    without error, the body decoded to an outer array whose first inner
    array holds an element with the label and the score of the response;
    the confidence equals the score and the text is the input. *)
Theorem sentiment_response_origin (rt : Runtime) (s : HuggingFaceService.t)
    (fuel : nat) (w : World) (text : string) (tr : list Event)
    (resp : SentimentResponse.t) :
  AnalyzeSentiment rt s fuel w text = Some (tr, Ok resp) ->
  exists tr0 body results others r,
    makeRequest rt s fuel w sentimentModel (sentimentPayload text)
    = Some (tr0, (body, None))
    /\ json_Unmarshal_nested rt body = Ok (results :: others)
    /\ r ∈ results
    /\ SentimentResponse.Sentiment resp = HuggingFaceResponse.Label r
    /\ SentimentResponse.Score resp = score r
    /\ SentimentResponse.Confidence resp = SentimentResponse.Score resp
    /\ SentimentResponse.Text resp = text
    /\ attempts tr = attempts tr0.
Proof.
  unfold AnalyzeSentiment. intros H.
  destruct (makeRequest rt s fuel w sentimentModel (sentimentPayload text))
    as [[tr0 [body [err|]]]|] eqn:Hm; try discriminate.
  destruct (json_Unmarshal_nested rt body) as [[|[|first rest] others]|c] eqn:Hu;
    try discriminate.
  injection H as <- <-.
  exists tr0, body, (first :: rest), others, (scanBest first (first :: rest)).
  split; [done|]. split; [done|]. split.
  { destruct (scanBest_elem (first :: rest) first) as [->|Hin]; [by left|done]. }
  repeat split; done.
Qed.

Lemma sentiment_response_origin_witness :
  exists tr resp r,
    AnalyzeSentiment
      (fixed_runtime (Ok [])
         (Ok [[labelled "neg" (1 # 10); labelled "pos" (9 # 10)]; []]))
      (demo_service 3) 1 (steady_world (Responded 200 "body")) "great"
    = Some (tr, Ok resp)
    /\ r ∈ [labelled "neg" (1 # 10); labelled "pos" (9 # 10)]
    /\ SentimentResponse.Sentiment resp = HuggingFaceResponse.Label r
    /\ SentimentResponse.Confidence resp = SentimentResponse.Score resp.
Proof.
  assert (exists tr resp,
            AnalyzeSentiment
              (fixed_runtime (Ok [])
                 (Ok [[labelled "neg" (1 # 10); labelled "pos" (9 # 10)]; []]))
              (demo_service 3) 1 (steady_world (Responded 200 "body")) "great"
            = Some (tr, Ok resp)) as (tr & resp & Hrun)
    by (eexists _, _; vm_compute; reflexivity).
  destruct (sentiment_response_origin _ _ _ _ _ _ _ Hrun)
    as (tr0 & body & results & others & r & _ & Hu & Hin & Hl & _ & Hc & _).
  simpl in Hu. injection Hu as <- _.
  exists tr, resp, r. split; [exact Hrun|]. split; [exact Hin|].
  split; [exact Hl|exact Hc].
Defined.

(** ** [ValidateModel] *)

(** X12: [ValidateModel] rejects the empty name and nothing else: it
    returns an error exactly for the empty model name, and logs one
    warning, still accepting, exactly for a non-empty name outside its
    list of eight supported models. *)
Theorem ValidateModel_rejects_only_empty (modelName : string) :
  (snd (ValidateModel modelName) = None <-> modelName <> "")
  /\ (snd (ValidateModel modelName) = Some (Errorf "model name cannot be empty")
      <-> modelName = "")
  /\ (fst (ValidateModel modelName)
      = [Logged WarnLevel "Using unvalidated model"
           (<["model" := VString modelName]> ∅)]
      <-> modelName <> "" /\ modelName ∉ supportedModels)
  /\ (fst (ValidateModel modelName) = []
      <-> modelName = "" \/ modelName ∈ supportedModels).
Proof.
  unfold ValidateModel.
  destruct (String.eqb modelName "") eqn:E.
  { apply eqb_empty in E. simpl. repeat split; try done; try by intros [? ?].
    by left. }
  apply eqb_empty_false in E.
  assert (existsb (String.eqb modelName) supportedModels = true
          <-> modelName ∈ supportedModels) as Hin.
  { rewrite existsb_exists. split.
    - intros (x & Hx & ->%String.eqb_eq). by apply list_elem_of_In.
    - intros Hx. exists modelName. split; [by apply list_elem_of_In|].
      apply String.eqb_refl. }
  destruct (existsb (String.eqb modelName) supportedModels) eqn:Ex; simpl.
  - assert (modelName ∈ supportedModels) as Hs by (by apply Hin).
    repeat split; try done; try by intros [? ?]. by right.
  - assert (modelName ∉ supportedModels) as Hs.
    { intros Hs. apply Hin in Hs. done. }
    repeat split; try done. by intros [?|?].
Qed.

(** * The rate limiter *)

Lemma validTimes_sublist (now : Z) (times : list Z) :
  validTimes now times `sublist_of` times.
Proof.
  induction times as [|t rest IH]; simpl; [constructor|].
  destruct (now - t <? Minute); by constructor.
Qed.

Lemma validTimes_mono (now : Z) (l1 l2 : list Z) :
  l1 `sublist_of` l2 -> validTimes now l1 `sublist_of` validTimes now l2.
Proof.
  induction 1 as [|x l1 l2 _ IH|x l1 l2 _ IH]; simpl.
  - constructor.
  - destruct (now - x <? Minute); [by constructor | done].
  - destruct (now - x <? Minute); [by constructor | done].
Qed.

Lemma validTimes_app (now : Z) (l1 l2 : list Z) :
  validTimes now (l1 ++ l2) = validTimes now l1 ++ validTimes now l2.
Proof.
  induction l1 as [|t rest IH]; simpl; [done|].
  destruct (now - t <? Minute); simpl; by rewrite IH.
Qed.

Lemma validTimes_later (now later : Z) (times : list Z) :
  now <= later -> validTimes now (validTimes later times) = validTimes later times.
Proof.
  intros Hle. induction times as [|t rest IH]; simpl; [done|].
  destruct (later - t <? Minute) eqn:E; [|done]. simpl.
  assert ((now - t <? Minute) = true) as ->.
  { apply Z.ltb_lt in E. apply Z.ltb_lt. lia. }
  by rewrite IH.
Qed.

Lemma validTimes_old (now : Z) (times : list Z) :
  Forall (fun t => Minute <= now - t) times -> validTimes now times = [].
Proof.
  induction 1 as [|t rest Ht _ IH]; simpl; [done|].
  assert ((now - t <? Minute) = false) as -> by (apply Z.ltb_ge; lia). done.
Qed.

Lemma timesOf_insert (requests : gmap string (list Z)) (c c' : string)
    (times : list Z) :
  timesOf (<[c := times]> requests) c'
  = if decide (c = c') then times else timesOf requests c'.
Proof. unfold timesOf. rewrite lookup_insert. by case_decide. Qed.

(** What the critical section does to the entry of the requesting
    client. *)
Lemma rateLimit_own (rpm : Z) (requests : gmap string (list Z)) (c : string)
    (now : Z) :
  let kept := validTimes now (timesOf requests c) in
  (rpm <= Z.of_nat (length kept)
   /\ snd (rateLimit rpm requests c now) = false
   /\ timesOf (fst (rateLimit rpm requests c now)) c = kept)
  \/ (Z.of_nat (length kept) < rpm
      /\ snd (rateLimit rpm requests c now) = true
      /\ timesOf (fst (rateLimit rpm requests c now)) c = kept ++ [now]).
Proof.
  unfold rateLimit. simpl.
  assert (timesOf
            match requests !! c with
            | Some times => <[c := validTimes now times]> requests
            | None => requests
            end c = validTimes now (timesOf requests c)) as Hkept.
  { unfold timesOf at 2. destruct (requests !! c) as [times|] eqn:E; simpl.
    - rewrite timesOf_insert. by case_decide.
    - unfold timesOf. by rewrite E. }
  rewrite Hkept.
  destruct (rpm <=? Z.of_nat (length (validTimes now (timesOf requests c)))) eqn:E.
  - left. apply Z.leb_le in E. simpl. done.
  - right. apply Z.leb_gt in E. simpl. rewrite timesOf_insert.
    case_decide; done.
Qed.

(** The entries of the other clients are left alone. *)
Lemma rateLimit_other (rpm : Z) (requests : gmap string (list Z)) (c c' : string)
    (now : Z) :
  c <> c' -> fst (rateLimit rpm requests c now) !! c' = requests !! c'.
Proof.
  intros Hne. unfold rateLimit.
  destruct (requests !! c) as [times|] eqn:E;
    destruct (rpm <=? _); simpl; by rewrite ?lookup_insert_ne.
Qed.

Lemma serveAll_cons (rpm : Z) (requests : gmap string (list Z)) (c : string)
    (now : Z) (rest : list (string * Z)) :
  serveAll rpm requests ((c, now) :: rest)
  = (fst (serveAll rpm (fst (rateLimit rpm requests c now)) rest),
     snd (rateLimit rpm requests c now)
     :: snd (serveAll rpm (fst (rateLimit rpm requests c now)) rest)).
Proof.
  simpl. destruct (rateLimit rpm requests c now) as [requests' ok]. simpl.
  by destruct (serveAll rpm requests' rest).
Qed.

Lemma eqb_decide (c c' : string) :
  String.eqb c c' = if decide (c = c') then true else false.
Proof.
  case_decide as H; [by apply String.eqb_eq | by apply String.eqb_neq].
Qed.

(** X14: bounded history.  Starting from the empty map, whatever
    requests arrive and at whatever times, the limiter never keeps more
    than requestsPerMinute times for a client (none when
    requestsPerMinute is not positive). *)
Theorem limiter_history_bounded (rpm : Z) (arrivals : list (string * Z))
    (c : string) :
  Z.of_nat (length (timesOf (fst (serveAll rpm ∅ arrivals)) c)) <= Z.max 0 rpm.
Proof.
  assert (forall requests,
            (forall c', Z.of_nat (length (timesOf requests c')) <= Z.max 0 rpm) ->
            forall c',
              Z.of_nat (length (timesOf (fst (serveAll rpm requests arrivals)) c'))
              <= Z.max 0 rpm) as Hgen.
  { induction arrivals as [|[c0 now] rest IH]; intros requests Hinv c'; [apply Hinv|].
    rewrite serveAll_cons. simpl. apply IH. intros c''.
    destruct (decide (c0 = c'')) as [<-|Hne].
    - pose proof (Hinv c0) as H0.
      pose proof (sublist_length _ _ (validTimes_sublist now (timesOf requests c0))).
      destruct (rateLimit_own rpm requests c0 now) as [(Hfull & _ & ->)|(Hroom & _ & ->)].
      + lia.
      + rewrite length_app. simpl. lia.
    - unfold timesOf. rewrite rateLimit_other by done. apply Hinv. }
  apply Hgen. intros c'. unfold timesOf. rewrite lookup_empty. simpl. lia.
Qed.

(** X15: nothing passes a limit that is not positive.  With
    requestsPerMinute <= 0 every request is refused, whatever the map
    holds. *)
Theorem limiter_refuses_all (rpm : Z) (requests : gmap string (list Z))
    (c : string) (now : Z) :
  rpm <= 0 -> snd (rateLimit rpm requests c now) = false.
Proof.
  intros Hrpm.
  destruct (rateLimit_own rpm requests c now) as [(_ & -> & _)|(Hroom & _ & _)];
    [done|lia].
Qed.

Lemma limiter_refuses_all_witness :
  snd (rateLimit 0 ∅ "10.0.0.1:4242" 1000) = false.
Proof. apply limiter_refuses_all. lia. Defined.

(** X16: the window slides.  With a positive limit, a client none of
    whose recorded requests is less than a minute old (in particular a
    client not seen before) is let through, and its history becomes that
    one request. *)
Theorem limiter_window_slides (rpm : Z) (requests : gmap string (list Z))
    (c : string) (now : Z) :
  1 <= rpm ->
  Forall (fun t => Minute <= now - t) (timesOf requests c) ->
  snd (rateLimit rpm requests c now) = true
  /\ timesOf (fst (rateLimit rpm requests c now)) c = [now].
Proof.
  intros Hrpm Hold.
  destruct (rateLimit_own rpm requests c now) as [(Hfull & _ & _)|(_ & -> & ->)];
    rewrite (validTimes_old _ _ Hold) in *; simpl in *; [lia|done].
Qed.

Lemma limiter_window_slides_witness :
  snd (rateLimit 2 (<["10.0.0.1:4242" := [0; 1000]]> ∅) "10.0.0.1:4242"
         (Minute + 1000)) = true
  /\ timesOf (fst (rateLimit 2 (<["10.0.0.1:4242" := [0; 1000]]> ∅)
                     "10.0.0.1:4242" (Minute + 1000))) "10.0.0.1:4242"
     = [Minute + 1000].
Proof.
  apply limiter_window_slides; [lia|].
  apply (bool_decide_unpack _). vm_compute. exact I.
Defined.

Lemma serveAll_window_inv (rpm : Z) (c : string) (arrivals : list (string * Z)) :
  forall (requests : gmap string (list Z)) (acc : list Z) (lb : Z),
    (forall T, lb <= T -> validTimes T acc `sublist_of` timesOf requests c) ->
    StronglySorted Z.le (arrivals.*2) ->
    Forall (fun a => lb <= a.2) arrivals ->
    forall T,
      Forall (fun a => a.2 <= T) arrivals -> lb <= T ->
      validTimes T
        (acc ++ allowedTimes c arrivals (snd (serveAll rpm requests arrivals)))
      `sublist_of` timesOf (fst (serveAll rpm requests arrivals)) c.
Proof.
  induction arrivals as [|[c0 now] rest IH];
    intros requests acc lb Hinv Hsorted Hlb T HT HlbT.
  - simpl. rewrite app_nil_r. by apply Hinv.
  - rewrite serveAll_cons. cbn [fst snd allowedTimes].
    rewrite fmap_cons in Hsorted.
    apply StronglySorted_inv in Hsorted as [Hsorted Hhead].
    apply Forall_cons in Hlb as [Hlb0 _]. apply Forall_cons in HT as [HT0 HT].
    cbn [snd] in Hlb0, HT0, Hhead.
    set (ok := snd (rateLimit rpm requests c0 now)).
    set (requests1 := fst (rateLimit rpm requests c0 now)).
    assert (acc ++ (if ok && String.eqb c0 c
                    then now :: allowedTimes c rest (snd (serveAll rpm requests1 rest))
                    else allowedTimes c rest (snd (serveAll rpm requests1 rest)))
            = (acc ++ (if ok && String.eqb c0 c then [now] else []))
              ++ allowedTimes c rest (snd (serveAll rpm requests1 rest))) as ->.
    { destruct (ok && String.eqb c0 c); simpl; by rewrite <- ?app_assoc, ?app_nil_r. }
    apply (IH requests1 _ now); try done.
    + intros T' HT'. rewrite eqb_decide.
      destruct (decide (c0 = c)) as [->|Hne].
      * rewrite andb_true_r. subst ok requests1.
        assert (validTimes T' acc
                `sublist_of` validTimes now (timesOf requests c)) as Hacc.
        { rewrite <- (validTimes_later now T' acc) by done.
          apply validTimes_mono, Hinv. lia. }
        destruct (rateLimit_own rpm requests c now)
          as [(_ & -> & ->)|(_ & -> & ->)].
        -- by rewrite app_nil_r.
        -- rewrite validTimes_app. apply sublist_app; [done|].
           apply validTimes_sublist.
      * rewrite andb_false_r, app_nil_r. subst requests1.
        unfold timesOf. rewrite rateLimit_other by done. apply Hinv. lia.
    + apply Forall_forall. intros [c1 t1] Hin.
      rewrite Forall_forall in Hhead. apply (Hhead t1).
      apply list_elem_of_fmap. by exists (c1, t1).
Qed.

(** X17: the limit holds.  When requests are served in the order of
    their times, a request of a client is let through only if fewer than
    requestsPerMinute of that client's requests were let through during
    the minute before it. *)
Theorem limiter_window_guarantee (rpm : Z) (history : list (string * Z))
    (c : string) (now : Z) :
  StronglySorted Z.le (history.*2) ->
  Forall (fun a => a.2 <= now) history ->
  snd (rateLimit rpm (fst (serveAll rpm ∅ history)) c now) = true ->
  Z.of_nat
    (length (validTimes now
               (allowedTimes c history (snd (serveAll rpm ∅ history)))))
  < rpm.
Proof.
  intros Hsorted Hpast Hok.
  assert (validTimes now (allowedTimes c history (snd (serveAll rpm ∅ history)))
          `sublist_of` timesOf (fst (serveAll rpm ∅ history)) c) as Hsub.
  { destruct history as [|[c0 t0] rest]; [apply sublist_nil_l|].
    apply (serveAll_window_inv rpm c ((c0, t0) :: rest) ∅ [] t0); try done.
    - pose proof Hsorted as Hs. rewrite fmap_cons in Hs.
      apply StronglySorted_inv in Hs as [_ Hhead].
      constructor; [cbn [snd]; lia|].
      apply Forall_forall. intros [c1 t1] Hin.
      rewrite Forall_forall in Hhead. apply (Hhead t1).
      apply list_elem_of_fmap. by exists (c1, t1).
    - apply Forall_cons in Hpast as [H0 _]. done. }
  apply (validTimes_mono now) in Hsub.
  rewrite validTimes_later in Hsub by lia.
  apply sublist_length in Hsub.
  destruct (rateLimit_own rpm (fst (serveAll rpm ∅ history)) c now)
    as [(_ & Hno & _)|(Hroom & _ & _)]; [congruence|lia].
Qed.

Lemma limiter_window_guarantee_witness :
  snd (serveAll 2 ∅ [("a", 0); ("b", 5); ("a", 10); ("a", 20)])
  = [true; true; true; false]
  /\ Z.of_nat
       (length (validTimes 10
                  (allowedTimes "a" [("a", 0); ("b", 5)]
                     (snd (serveAll 2 ∅ [("a", 0); ("b", 5)])))))
     < 2.
Proof.
  split; [vm_compute; reflexivity|].
  apply limiter_window_guarantee.
  - apply (bool_decide_unpack _). vm_compute. exact I.
  - apply (bool_decide_unpack _). vm_compute. exact I.
  - vm_compute. reflexivity.
Defined.

Lemma rateLimit_local (rpm : Z) (r1 r2 : gmap string (list Z)) (c : string)
    (now : Z) :
  timesOf r1 c = timesOf r2 c ->
  snd (rateLimit rpm r1 c now) = snd (rateLimit rpm r2 c now)
  /\ timesOf (fst (rateLimit rpm r1 c now)) c
     = timesOf (fst (rateLimit rpm r2 c now)) c.
Proof.
  intros Heq.
  destruct (rateLimit_own rpm r1 c now) as [(H1 & -> & ->)|(H1 & -> & ->)];
    destruct (rateLimit_own rpm r2 c now) as [(H2 & -> & ->)|(H2 & -> & ->)];
    rewrite Heq in *; try done; lia.
Qed.

(** X18: clients do not interfere.  The decisions taken for the requests
    of one client are those the limiter would take if the requests of
    that client were the only ones. *)
Theorem limiter_isolation (rpm : Z) (arrivals : list (string * Z)) (c : string) :
  decisionsFor c arrivals (snd (serveAll rpm ∅ arrivals))
  = snd (serveAll rpm ∅ (arrivalsOf c arrivals)).
Proof.
  assert (forall r1 r2,
            timesOf r1 c = timesOf r2 c ->
            decisionsFor c arrivals (snd (serveAll rpm r1 arrivals))
            = snd (serveAll rpm r2 (arrivalsOf c arrivals))) as Hgen.
  { induction arrivals as [|[c0 now] rest IH]; intros r1 r2 Heq; [done|].
    rewrite serveAll_cons. cbn [snd decisionsFor arrivalsOf].
    rewrite eqb_decide. destruct (decide (c0 = c)) as [->|Hne].
    - rewrite serveAll_cons. cbn [snd].
      destruct (rateLimit_local rpm r1 r2 c now Heq) as [-> Hnext].
      f_equal. by apply IH.
    - apply IH. unfold timesOf. by rewrite rateLimit_other. }
  by apply Hgen.
Qed.

(** * The HTTP handlers *)

Lemma Validate_rejection_code (r : AIRequest.t) (e : ErrorResponse.t) :
  Validate r = Some e -> ErrorResponse.Code e = 400.
Proof.
  unfold Validate.
  repeat match goal with
         | |- context [if ?b then _ else _] => destruct b
         end; by intros [= <-].
Qed.

Lemma calls_cons (e : HEvent) (ev : list HEvent) :
  calls (e :: ev) = ((if is_Called e then 1 else 0) + calls ev)%nat.
Proof.
  unfold calls. rewrite filter_cons.
  destruct (decide (is_Called e)) as [H|H]; destruct (is_Called e); simpl; done.
Qed.

Lemma calls_app (ev1 ev2 : list HEvent) :
  calls (ev1 ++ ev2) = (calls ev1 + calls ev2)%nat.
Proof. unfold calls. by rewrite filter_app, length_app. Qed.

Lemma calls_Service (sev : list Event) : calls (Service <$> sev) = 0%nat.
Proof.
  induction sev as [|e sev IH]; [done|]. rewrite fmap_cons, calls_cons. by rewrite IH.
Qed.

Section HandlerFacts.

Variable env : AIHandler.Env.
Variable ctx : gmap string value.

Lemma handleError_fresh (errResp : ErrorResponse.t) :
  ErrorResponse.Code errResp <> 200 ->
  jsonResponse (ErrorResponse.Code errResp)
    (snd (AIHandler.handleError env ctx ResponseWriter.fresh errResp))
  /\ calls (fst (AIHandler.handleError env ctx ResponseWriter.fresh errResp)) = 0%nat.
Proof.
  intros Hcode. unfold AIHandler.handleError, AIHandler.encode, jsonResponse.
  destruct (AIHandler.json_Encode env (PError errResp)); simpl.
  - repeat split; try done. by left.
  - repeat split; try done. right. eexists. split; [done|]. done.
Qed.

Lemma sendJSONResponse_fresh (data : Payload) :
  (forall e, data <> PError e) ->
  jsonResponse 200
    (snd (AIHandler.sendJSONResponse env ctx ResponseWriter.fresh 200 data))
  /\ calls (fst (AIHandler.sendJSONResponse env ctx ResponseWriter.fresh 200 data))
     = 0%nat.
Proof.
  intros Hdata. unfold AIHandler.sendJSONResponse, AIHandler.encode, jsonResponse.
  destruct (AIHandler.json_Encode env data); simpl.
  - repeat split; try done. by left.
  - repeat split; try done. right. eexists. split; [done|].
    destruct data; try done. by destruct (Hdata e).
Qed.

Lemma serviceFailed_fresh (message : string) (err : error) :
  jsonResponse 500
    (snd (AIHandler.serviceFailed env ctx ResponseWriter.fresh message err))
  /\ calls (fst (AIHandler.serviceFailed env ctx ResponseWriter.fresh message err))
     = 0%nat.
Proof.
  unfold AIHandler.serviceFailed.
  destruct (handleError_fresh
              (ErrorResponse.mk 500 message "service_error" (VString (Error err))))
    as [Hw Hc]; [done|].
  destruct (AIHandler.handleError env ctx ResponseWriter.fresh _) as [ev w'].
  simpl in *. split; [done|]. rewrite calls_cons. simpl. done.
Qed.

End HandlerFacts.

Lemma generation_outcome (env : AIHandler.Env) (ep : AIHandler.Endpoint)
    (received failed : string) (call : AIRequest.t -> Call)
    (method : gmap string value -> AIRequest.t
              -> option (list Event * result AIResponse.t))
    (r : HTTPRequest.t) (ev : list HEvent) (w' : ResponseWriter.t) :
  ep <> AIHandler.ModelsValidate ->
  AIHandler.generation env received failed call method ResponseWriter.fresh r
  = Some (ev, w') ->
  Outcome ep ev w'.
Proof.
  intros Hep. unfold AIHandler.generation.
  set (ctx := AIHandler.setRequestID env (HTTPRequest.Context r)).
  destruct (AIHandler.decode_AIRequest env (HTTPRequest.Body r)) as [req|err].
  - set (req' := AIRequest.mk _ _ _ _ _ _ _ _).
    destruct (Validate req') as [errResp|] eqn:Hv.
    + pose proof (Validate_rejection_code _ _ Hv) as Hcode.
      destruct (handleError_fresh env ctx errResp) as [Hw Hc]; [lia|].
      rewrite Hcode in Hw.
      destruct (AIHandler.handleError env ctx ResponseWriter.fresh errResp).
      intros [= <- <-]. apply Refused; rewrite ?calls_cons; simpl in *; auto; lia.
    + destruct (method ctx req') as [[sev [response|err]]|]; [| |done].
      * destruct (sendJSONResponse_fresh env ctx (PGeneration response)) as [Hw Hc];
          [done|].
        destruct (AIHandler.sendJSONResponse env ctx ResponseWriter.fresh 200 _).
        intros [= <- <-]. apply Answered; [done|].
        rewrite !calls_cons, calls_app, calls_Service. simpl in *. lia.
      * destruct (serviceFailed_fresh env ctx failed err) as [Hw Hc].
        destruct (AIHandler.serviceFailed env ctx ResponseWriter.fresh failed err).
        intros [= <- <-]. apply Failed; [done| |done].
        rewrite !calls_cons, calls_app, calls_Service. simpl in *. lia.
  - destruct (handleError_fresh env ctx (AIHandler.invalidJSON err)) as [Hw Hc];
      [done|].
    destruct (AIHandler.handleError env ctx ResponseWriter.fresh _).
    intros [= <- <-]. apply Refused; rewrite ?calls_cons; simpl in *; auto; lia.
Qed.

(** X19: what a client can receive.  Each of the five AI endpoints, on a
    fresh response writer, answers with content type application/json, a
    status among 200, 400 and 500, and at most one JSON value: an error
    body whose code is the status when the status is not 200, a result
    otherwise.  Status 200 and status 500 come after exactly one call of
    the service; status 400 comes without any call, except for the model
    validation endpoint, which answers a refusal of the service with
    400. *)
Theorem endpoint_responses (env : AIHandler.Env) (aiService : AIService)
    (ep : AIHandler.Endpoint) (r : HTTPRequest.t) (ev : list HEvent)
    (w' : ResponseWriter.t) :
  AIHandler.serve env aiService ep ResponseWriter.fresh r = Some (ev, w') ->
  (jsonResponse 400 w'
   /\ (calls ev = 0%nat \/ ep = AIHandler.ModelsValidate) /\ (calls ev <= 1)%nat)
  \/ (jsonResponse 500 w' /\ calls ev = 1%nat /\ ep <> AIHandler.ModelsValidate)
  \/ (jsonResponse 200 w' /\ calls ev = 1%nat).
Proof.
  intros Hrun.
  assert (Outcome ep ev w') as [H4 Hc Hle|H5 Hc Hep|H2 Hc]; [|auto..].
  destruct ep; simpl in Hrun.
  - by eapply generation_outcome.
  - by eapply generation_outcome.
  - unfold AIHandler.AnalyzeSentiment in Hrun.
    set (ctx := AIHandler.setRequestID env (HTTPRequest.Context r)) in *.
    destruct (AIHandler.decode_Text env (HTTPRequest.Body r)) as [text|err].
    + destruct (String.eqb text "").
      * destruct (handleError_fresh env ctx AIHandler.textRequired) as [Hw Hc];
          [done|].
        destruct (AIHandler.handleError env ctx ResponseWriter.fresh _).
        injection Hrun as <- <-.
        apply Refused; rewrite ?calls_cons; simpl in *; auto; lia.
      * destruct (svc_AnalyzeSentiment aiService ctx text)
          as [[sev [response|err]]|]; [| |done].
        -- destruct (sendJSONResponse_fresh env ctx (PSentiment response))
             as [Hw Hc]; [done|].
           destruct (AIHandler.sendJSONResponse env ctx ResponseWriter.fresh 200 _).
           injection Hrun as <- <-. apply Answered; [done|].
           rewrite !calls_cons, calls_app, calls_Service. simpl in *. lia.
        -- destruct (serviceFailed_fresh env ctx "Failed to analyze sentiment" err)
             as [Hw Hc].
           destruct (AIHandler.serviceFailed env ctx ResponseWriter.fresh _ err).
           injection Hrun as <- <-. apply Failed; [done| |done].
           rewrite !calls_cons, calls_app, calls_Service. simpl in *. lia.
    + destruct (handleError_fresh env ctx (AIHandler.invalidJSON err)) as [Hw Hc];
        [done|].
      destruct (AIHandler.handleError env ctx ResponseWriter.fresh _).
      injection Hrun as <- <-.
      apply Refused; rewrite ?calls_cons; simpl in *; auto; lia.
  - unfold AIHandler.SummarizeText in Hrun.
    set (ctx := AIHandler.setRequestID env (HTTPRequest.Context r)) in *.
    destruct (AIHandler.decode_TextMaxLength env (HTTPRequest.Body r))
      as [[text maxLength]|err].
    + destruct (String.eqb text "").
      * destruct (handleError_fresh env ctx AIHandler.textRequired) as [Hw Hc];
          [done|].
        destruct (AIHandler.handleError env ctx ResponseWriter.fresh _).
        injection Hrun as <- <-.
        apply Refused; rewrite ?calls_cons; simpl in *; auto; lia.
      * destruct (svc_SummarizeText aiService ctx text _)
          as [[sev [response|err]]|]; [| |done].
        -- destruct (sendJSONResponse_fresh env ctx (PSummary response))
             as [Hw Hc]; [done|].
           destruct (AIHandler.sendJSONResponse env ctx ResponseWriter.fresh 200 _).
           injection Hrun as <- <-. apply Answered; [done|].
           rewrite !calls_cons, calls_app, calls_Service. simpl in *. lia.
        -- destruct (serviceFailed_fresh env ctx "Failed to summarize text" err)
             as [Hw Hc].
           destruct (AIHandler.serviceFailed env ctx ResponseWriter.fresh _ err).
           injection Hrun as <- <-. apply Failed; [done| |done].
           rewrite !calls_cons, calls_app, calls_Service. simpl in *. lia.
    + destruct (handleError_fresh env ctx (AIHandler.invalidJSON err)) as [Hw Hc];
        [done|].
      destruct (AIHandler.handleError env ctx ResponseWriter.fresh _).
      injection Hrun as <- <-.
      apply Refused; rewrite ?calls_cons; simpl in *; auto; lia.
  - unfold AIHandler.ValidateModel in Hrun.
    set (ctx := AIHandler.setRequestID env (HTTPRequest.Context r)) in *.
    destruct (String.eqb (HTTPRequest.Query_Get "model" r) "").
    + destruct (handleError_fresh env ctx
                  (ErrorResponse.mk 400 "Model parameter is required"
                     "validation_error" VNil)) as [Hw Hc]; [done|].
      destruct (AIHandler.handleError env ctx ResponseWriter.fresh _).
      injection Hrun as <- <-. apply Refused; simpl in *; auto; lia.
    + destruct (svc_ValidateModel aiService (HTTPRequest.Query_Get "model" r))
        as [sev [err|]].
      * destruct (handleError_fresh env ctx
                    (ErrorResponse.mk 400 ("Invalid model: " +:+ Error err)
                       "validation_error" VNil)) as [Hw Hc]; [done|].
        destruct (AIHandler.handleError env ctx ResponseWriter.fresh _).
        injection Hrun as <- <-.
        apply Refused; rewrite ?calls_cons, ?calls_app, ?calls_Service;
          simpl in *; auto; lia.
      * destruct (sendJSONResponse_fresh env ctx
                    (PObject (<["model" := VString (HTTPRequest.Query_Get "model" r)]>
                                (<["valid" := VBool true]> ∅)))) as [Hw Hc]; [done|].
        destruct (AIHandler.sendJSONResponse env ctx ResponseWriter.fresh 200 _).
        injection Hrun as <- <-. apply Answered; [done|].
        rewrite !calls_cons, calls_app, calls_Service. simpl in *. lia.
Qed.

Lemma endpoint_responses_witness :
  exists ev w',
    AIHandler.serve
      (demo_env (Err (Foreign "unexpected EOF")) (Ok ("so-so", 0)))
      (huggingFace
         (fixed_runtime (Ok []) (Ok [[labelled "neg" (1 # 2); labelled "pos" (1 # 2)]]))
         (demo_service 3) 1 (steady_world (Responded 200 "body")))
      AIHandler.TextSentiment ResponseWriter.fresh (demo_http "POST" ∅)
    = Some (ev, w')
    /\ jsonResponse 200 w' /\ calls ev = 1%nat.
Proof.
  eexists _, _. split; [vm_compute; reflexivity|].
  match goal with
  | |- jsonResponse 200 ?w /\ calls ?ev = _ =>
      destruct (endpoint_responses
                  (demo_env (Err (Foreign "unexpected EOF")) (Ok ("so-so", 0)))
                  (huggingFace
                     (fixed_runtime (Ok [])
                        (Ok [[labelled "neg" (1 # 2); labelled "pos" (1 # 2)]]))
                     (demo_service 3) 1 (steady_world (Responded 200 "body")))
                  AIHandler.TextSentiment (demo_http "POST" ∅) ev w
                  ltac:(vm_compute; reflexivity))
        as [((_ & H & _) & _)|[((_ & H & _) & _)|(Hw & Hc)]]
  end.
  - discriminate H.
  - discriminate H.
  - split; [exact Hw|exact Hc].
Defined.

Lemma calls_zero (ev : list HEvent) (c : Call) :
  calls ev = 0%nat -> Called c ∉ ev.
Proof.
  induction ev as [|e ev IH]; intros Hz Hin; [by apply elem_of_nil in Hin|].
  rewrite calls_cons in Hz. apply elem_of_cons in Hin as [<-|Hin].
  - simpl in Hz. lia.
  - apply IH; [lia|done].
Qed.

Section HandlerCalls.

Variable env : AIHandler.Env.
Variable ctx : gmap string value.
Variable w : ResponseWriter.t.

Lemma handleError_calls (errResp : ErrorResponse.t) :
  calls (fst (AIHandler.handleError env ctx w errResp)) = 0%nat.
Proof. done. Qed.

Lemma sendJSONResponse_calls (code : Z) (data : Payload) :
  calls (fst (AIHandler.sendJSONResponse env ctx w code data)) = 0%nat.
Proof.
  unfold AIHandler.sendJSONResponse, AIHandler.encode.
  by destruct (AIHandler.json_Encode env data).
Qed.

Lemma serviceFailed_calls (message : string) (err : error) :
  calls (fst (AIHandler.serviceFailed env ctx w message err)) = 0%nat.
Proof. done. Qed.

(** A trace made of a received line, one call, what the service did and
    the lines of the answer holds that call only. *)
Lemma single_call (received : HEvent) (c0 c : Call) (sev : list Event)
    (ev : list HEvent) :
  is_Called received = false -> calls ev = 0%nat ->
  Called c ∈ received :: Called c0 :: (Service <$> sev) ++ ev -> c = c0.
Proof.
  intros Hr Hz Hin.
  apply elem_of_cons in Hin as [<-|Hin]; [done|].
  apply elem_of_cons in Hin as [[= ->]|Hin]; [done|].
  apply elem_of_app in Hin as [Hin|Hin].
  - apply list_elem_of_fmap in Hin as (e & [=] & _).
  - by apply calls_zero with (c := c) in Hz.
Qed.

Lemma no_call (pre : list HEvent) (c : Call) (ev : list HEvent) :
  calls pre = 0%nat -> calls ev = 0%nat -> Called c ∉ pre ++ ev.
Proof.
  intros Hp Hz Hin. apply elem_of_app in Hin as [Hin|Hin];
    by eapply calls_zero in Hin.
Qed.

End HandlerCalls.

(** X20: the service is called with checked input only.  Whatever the
    request, the decoders and the service, an endpoint calls the service
    at most with a generation request that passes [Validate] (stamped
    with the current time, and with an id when it had none), a non-empty
    text, a non-empty text and a positive maximum length, or a non-empty
    model name. *)
Theorem service_called_with_valid_input (env : AIHandler.Env)
    (aiService : AIService) (ep : AIHandler.Endpoint) (w : ResponseWriter.t)
    (r : HTTPRequest.t) (ev : list HEvent) (w' : ResponseWriter.t) (c : Call) :
  AIHandler.serve env aiService ep w r = Some (ev, w') ->
  Called c ∈ ev ->
  callValid c /\ stamped env c.
Proof.
  intros Hrun Hin.
  assert (forall received failed call method,
            (forall req, callValid (call req) <-> Validate req = None) ->
            (forall req, stamped env (call req)
                         <-> AIRequest.CreatedAt req = AIHandler.time_Now env
                             /\ (AIHandler.uuid_New env 1 <> ""
                                 -> AIRequest.ID req <> "")) ->
            AIHandler.generation env received failed call method w r
            = Some (ev, w') ->
            callValid c /\ stamped env c) as Hgen.
  { intros received failed call method Hvalid Hstamp.
    unfold AIHandler.generation.
    set (ctx := AIHandler.setRequestID env (HTTPRequest.Context r)).
    destruct (AIHandler.decode_AIRequest env (HTTPRequest.Body r)) as [req|err].
    - set (req' := AIRequest.mk _ _ _ _ _ _ _ _).
      assert (stamped env (call req')) as Hst.
      { apply Hstamp. split; [done|]. subst req'. simpl.
        destruct (String.eqb (AIRequest.ID req) "") eqn:E; [done|].
        intros _. by apply eqb_empty_false. }
      destruct (Validate req') as [errResp|] eqn:Hv.
      + destruct (AIHandler.handleError env ctx w errResp) as [ev0 w0] eqn:He.
        intros [= <- <-].
        pose proof (handleError_calls env ctx w errResp) as Hz. rewrite He in Hz.
        by apply (no_call [_]) in Hin.
      + destruct (method ctx req') as [[sev [response|err]]|]; [| |done].
        * destruct (AIHandler.sendJSONResponse env ctx w 200 _) as [ev0 w0] eqn:He.
          intros [= <- <-].
          pose proof (sendJSONResponse_calls env ctx w 200 (PGeneration response))
            as Hz. rewrite He in Hz.
          apply single_call in Hin as ->; [|done..]. split; [by apply Hvalid|done].
        * destruct (AIHandler.serviceFailed env ctx w failed err) as [ev0 w0] eqn:He.
          intros [= <- <-].
          pose proof (serviceFailed_calls env ctx w failed err) as Hz.
          rewrite He in Hz.
          apply single_call in Hin as ->; [|done..]. split; [by apply Hvalid|done].
    - destruct (AIHandler.handleError env ctx w _) as [ev0 w0] eqn:He.
      intros [= <- <-].
      pose proof (handleError_calls env ctx w (AIHandler.invalidJSON err)) as Hz.
      rewrite He in Hz. by apply (no_call [_]) in Hin. }
  destruct ep; simpl in Hrun.
  - eapply Hgen; [| |exact Hrun]; done.
  - eapply Hgen; [| |exact Hrun]; done.
  - unfold AIHandler.AnalyzeSentiment in Hrun.
    set (ctx := AIHandler.setRequestID env (HTTPRequest.Context r)) in *.
    destruct (AIHandler.decode_Text env (HTTPRequest.Body r)) as [text|err].
    + destruct (String.eqb text "") eqn:Et.
      * injection Hrun as <- <-. by apply (no_call [_]) in Hin.
      * apply eqb_empty_false in Et.
        destruct (svc_AnalyzeSentiment aiService ctx text)
          as [[sev [response|err]]|]; [| |done].
        -- destruct (AIHandler.sendJSONResponse env ctx w 200 _) as [ev0 w0] eqn:He.
           injection Hrun as <- <-.
           pose proof (sendJSONResponse_calls env ctx w 200 (PSentiment response))
             as Hz. rewrite He in Hz.
           by apply single_call in Hin as ->.
        -- injection Hrun as <- <-. by apply single_call in Hin as ->.
    + injection Hrun as <- <-. by apply (no_call [_]) in Hin.
  - unfold AIHandler.SummarizeText in Hrun.
    set (ctx := AIHandler.setRequestID env (HTTPRequest.Context r)) in *.
    destruct (AIHandler.decode_TextMaxLength env (HTTPRequest.Body r))
      as [[text maxLength]|err].
    + destruct (String.eqb text "") eqn:Et.
      * injection Hrun as <- <-. by apply (no_call [_]) in Hin.
      * apply eqb_empty_false in Et.
        assert (0 < (if maxLength <=? 0 then 130 else maxLength)) as Hmax.
        { destruct (maxLength <=? 0) eqn:E; [lia|]. by apply Z.leb_gt in E. }
        destruct (svc_SummarizeText aiService ctx text _)
          as [[sev [response|err]]|]; [| |done].
        -- destruct (AIHandler.sendJSONResponse env ctx w 200 _) as [ev0 w0] eqn:He.
           injection Hrun as <- <-.
           pose proof (sendJSONResponse_calls env ctx w 200 (PSummary response))
             as Hz. rewrite He in Hz.
           by apply single_call in Hin as ->.
        -- injection Hrun as <- <-. by apply single_call in Hin as ->.
    + injection Hrun as <- <-. by apply (no_call [_]) in Hin.
  - unfold AIHandler.ValidateModel in Hrun.
    set (ctx := AIHandler.setRequestID env (HTTPRequest.Context r)) in *.
    destruct (String.eqb (HTTPRequest.Query_Get "model" r) "") eqn:Em.
    + injection Hrun as <- <-. by apply (no_call []) in Hin.
    + apply eqb_empty_false in Em.
      destruct (svc_ValidateModel aiService (HTTPRequest.Query_Get "model" r))
        as [sev [err|]].
      * injection Hrun as <- <-.
        apply elem_of_cons in Hin as [[= ->]|Hin]; [done|].
        apply elem_of_app in Hin as [Hin|Hin].
        -- apply list_elem_of_fmap in Hin as (e & [=] & _).
        -- by apply (no_call []) in Hin.
      * destruct (AIHandler.sendJSONResponse env ctx w 200 _) as [ev0 w0] eqn:He.
        injection Hrun as <- <-.
        pose proof (sendJSONResponse_calls env ctx w 200
                      (PObject (<["model" := VString (HTTPRequest.Query_Get "model" r)]>
                                  (<["valid" := VBool true]> ∅)))) as Hz.
        rewrite He in Hz.
        apply elem_of_cons in Hin as [[= ->]|Hin]; [done|].
        apply elem_of_app in Hin as [Hin|Hin].
        -- apply list_elem_of_fmap in Hin as (e & [=] & _).
        -- by apply calls_zero with (c := c) in Hz.
Qed.

Lemma service_called_with_valid_input_witness :
  exists ev w',
    AIHandler.serve
      (demo_env (Err (Foreign "unexpected EOF")) (Ok ("abcdefghijkl", 0)))
      (huggingFace (fixed_runtime (Ok [summarized "abc"]) (Ok []))
         (demo_service 3) 1 (steady_world (Responded 200 "body")))
      AIHandler.TextSummarize ResponseWriter.fresh (demo_http "POST" ∅)
    = Some (ev, w')
    /\ ev !! 1%nat = Some (Called (CallSummarizeText "abcdefghijkl" 130))
    /\ callValid (CallSummarizeText "abcdefghijkl" 130).
Proof.
  eexists _, _. split; [vm_compute; reflexivity|]. split; [reflexivity|].
  match goal with
  | |- callValid ?c =>
      eapply (service_called_with_valid_input
                (demo_env (Err (Foreign "unexpected EOF")) (Ok ("abcdefghijkl", 0)))
                (huggingFace (fixed_runtime (Ok [summarized "abc"]) (Ok []))
                   (demo_service 3) 1 (steady_world (Responded 200 "body")))
                AIHandler.TextSummarize ResponseWriter.fresh (demo_http "POST" ∅)
                _ _ c)
  end.
  - vm_compute. reflexivity.
  - apply (list_elem_of_lookup_2 _ 1%nat). reflexivity.
Defined.


(** ** Handlers over the Hugging Face service *)




(** X23: the model validation endpoint accepts every name.  Over the
    Hugging Face service, a request with a non-empty model parameter is
    answered with status 200, and what is written is the object with
    that model name and valid: true, whatever the name. *)
Theorem model_validation_endpoint (env : AIHandler.Env) (rt : Runtime)
    (s : HuggingFaceService.t) (fuel : nat) (w : World) (r : HTTPRequest.t) :
  HTTPRequest.Query_Get "model" r <> "" ->
  exists ev w',
    AIHandler.ValidateModel env (huggingFace rt s fuel w) ResponseWriter.fresh r
    = Some (ev, w')
    /\ ResponseWriter.StatusCode w' = Some 200
    /\ (forall p, p ∈ ResponseWriter.Body w' ->
          p = PObject (<["model" := VString (HTTPRequest.Query_Get "model" r)]>
                         (<["valid" := VBool true]> ∅)))
    /\ (AIHandler.json_Encode env
          (PObject (<["model" := VString (HTTPRequest.Query_Get "model" r)]>
                      (<["valid" := VBool true]> ∅))) = None ->
        length (ResponseWriter.Body w') = 1%nat).
Proof.
  intros Hname. unfold AIHandler.ValidateModel.
  apply eqb_empty_false in Hname. rewrite Hname.
  cbn [svc_ValidateModel huggingFace]. unfold ValidateModel. rewrite Hname.
  unfold AIHandler.sendJSONResponse, AIHandler.encode.
  destruct (existsb _ supportedModels);
    destruct (AIHandler.json_Encode env _); simpl;
    eexists _, _; (split; [reflexivity|]); simpl;
    (split; [done|]); split; try done;
    intros p Hp; try (by apply elem_of_nil in Hp);
    apply elem_of_cons in Hp as [->|Hp]; try done; by apply elem_of_nil in Hp.
Qed.

Lemma model_validation_endpoint_witness :
  exists ev w',
    AIHandler.ValidateModel (demo_env (Err (Foreign "EOF")) (Ok ("", 0)))
      (huggingFace demo_runtime (demo_service 3) 1
         (steady_world (Responded 200 "body")))
      ResponseWriter.fresh
      (demo_http "GET" (<["model" := "no-such-model"]> ∅))
    = Some (ev, w')
    /\ ResponseWriter.StatusCode w' = Some 200
    /\ length (ResponseWriter.Body w') = 1%nat.
Proof.
  destruct (model_validation_endpoint
              (demo_env (Err (Foreign "EOF")) (Ok ("", 0)))
              demo_runtime (demo_service 3) 1
              (steady_world (Responded 200 "body"))
              (demo_http "GET" (<["model" := "no-such-model"]> ∅)))
    as (ev & w' & Hrun & Hcode & _ & Hlen).
  - vm_compute. discriminate.
  - exists ev, w'. split; [exact Hrun|]. split; [exact Hcode|].
    apply Hlen. reflexivity.
Defined.

(** ** The middleware *)

(** X24: the limiter stands before CORS.  In the chain of
    [setupRoutes], where [RateLimiter] wraps [EnableCORS], a request the
    limiter refuses is answered 429 with the rate-limit error and
    without any CORS header, and the inner handler is not run; a request
    it lets through gets the three CORS headers, and then either, for
    method OPTIONS, status 200 with nothing written and the inner handler
    not run, or the inner handler's own answer. *)
Theorem limiter_before_cors (env : AIHandler.Env) (rpm : Z)
    (requests : gmap string (list Z)) (now : Z)
    (next : ResponseWriter.t -> HTTPRequest.t
            -> option (list HEvent * ResponseWriter.t))
    (r : HTTPRequest.t) :
  fst (AIHandler.RateLimiter env rpm requests now (AIHandler.EnableCORS next)
         ResponseWriter.fresh r)
  = fst (rateLimit rpm requests (HTTPRequest.RemoteAddr r) now)
  /\ if snd (rateLimit rpm requests (HTTPRequest.RemoteAddr r) now)
     then
       snd (AIHandler.RateLimiter env rpm requests now (AIHandler.EnableCORS next)
              ResponseWriter.fresh r)
       = if String.eqb (HTTPRequest.Method r) "OPTIONS"
         then Some ([], ResponseWriter.WriteHeader 200
                          (corsHeaders ResponseWriter.fresh))
         else next (corsHeaders ResponseWriter.fresh) r
     else
       exists ev w',
         snd (AIHandler.RateLimiter env rpm requests now
                (AIHandler.EnableCORS next) ResponseWriter.fresh r)
         = Some (ev, w')
         /\ jsonResponse 429 w'
         /\ (forall p, p ∈ ResponseWriter.Body w'
                       -> p = PError AIHandler.rateLimitExceeded)
         /\ ResponseWriter.Header w' !! "Access-Control-Allow-Origin" = None
         /\ calls ev = 0%nat.
Proof.
  unfold AIHandler.RateLimiter.
  destruct (rateLimit rpm requests (HTTPRequest.RemoteAddr r) now) as [requests' ok].
  destruct ok; cbn [fst snd]; (split; [reflexivity|]).
  { unfold AIHandler.EnableCORS, corsHeaders. reflexivity. }
  destruct (handleError_fresh env (HTTPRequest.Context r)
              AIHandler.rateLimitExceeded) as [Hw Hc]; [done|].
  exists (fst (AIHandler.handleError env (HTTPRequest.Context r)
                 ResponseWriter.fresh AIHandler.rateLimitExceeded)),
         (snd (AIHandler.handleError env (HTTPRequest.Context r)
                 ResponseWriter.fresh AIHandler.rateLimitExceeded)).
  split; [reflexivity|]. split; [exact Hw|].
  split; [|split; [|exact Hc]].
  - unfold AIHandler.handleError, AIHandler.encode.
    destruct (AIHandler.json_Encode env _); cbn [snd ResponseWriter.Body];
      intros p Hp.
    + unfold ResponseWriter.WriteHeader, ResponseWriter.Header_Set,
        ResponseWriter.fresh in Hp. cbn [ResponseWriter.StatusCode
        ResponseWriter.Body] in Hp. by apply elem_of_nil in Hp.
    + unfold ResponseWriter.Write, ResponseWriter.WriteHeader,
        ResponseWriter.Header_Set, ResponseWriter.fresh in Hp.
      cbn [ResponseWriter.StatusCode ResponseWriter.Body app] in Hp.
      apply elem_of_cons in Hp as [->|Hp]; [done | by apply elem_of_nil in Hp].
  - destruct Hw as (-> & _). by rewrite lookup_insert_ne, lookup_empty.
Qed.

(** ** The logger *)

Lemma copyInto_union (src dst : gmap string value) :
  Logger.copyInto src dst = src ∪ dst.
Proof.
  unfold Logger.copyInto.
  apply (map_fold_weak_ind (fun r m => r = m ∪ dst)).
  - by rewrite (left_id_L ∅ (∪)).
  - intros i x m r _ ->. apply insert_union_l.
Qed.

Lemma mergeFields_union (l : Logger.StructuredLogger) (given : gmap string value) :
  Logger.mergeFields l given = given ∪ Logger.fields l.
Proof.
  unfold Logger.mergeFields.
  by rewrite !copyInto_union, (right_id_L ∅ (∪)).
Qed.

Lemma log_one_line (env : Logger.Env) (l : Logger.StructuredLogger)
    (ctx : option (gmap string value)) (now : string) (lvl : Z) (message : string)
    (given : gmap string value) :
  length (Logger.log env l ctx now lvl message given) = 1%nat.
Proof.
  unfold Logger.log, Logger.logStructured, Logger.logPlain.
  destruct (Logger.structured l); [|done].
  by destruct (Logger.json_MarshalEntry env _).
Qed.

Lemma levelOf_range (lvl : LogLevel) : 0 <= Logger.levelOf lvl <= 3.
Proof. destruct lvl; simpl; lia. Qed.

(** Membership in a list of literal names. *)
Ltac split_names :=
  repeat match goal with
         | H : _ ∈ _ :: _ |- _ =>
             let E := fresh in
             apply elem_of_cons in H as [E|H]; [first [discriminate E|subst]|]
         | H : _ ∈ [] |- _ => by apply elem_of_nil in H
         end.
Ltac in_names := solve [repeat constructor].

Lemma ParseLogLevel_cases (name : string) :
  (Logger.ParseLogLevel name = Logger.levelOf DebugLevel
   /\ name ∈ ["debug"; "DEBUG"])
  \/ (Logger.ParseLogLevel name = Logger.levelOf WarnLevel
      /\ name ∈ ["warn"; "WARN"; "warning"; "WARNING"])
  \/ (Logger.ParseLogLevel name = Logger.levelOf ErrorLevel
      /\ name ∈ ["error"; "ERROR"])
  \/ (Logger.ParseLogLevel name = Logger.levelOf InfoLevel
      /\ name ∉ ["debug"; "DEBUG"; "warn"; "WARN"; "warning"; "WARNING";
                  "error"; "ERROR"]).
Proof.
  unfold Logger.ParseLogLevel.
  repeat match goal with
         | |- context [String.eqb name ?k] =>
             destruct (String.eqb_spec name k) as [->|?];
             [cbn [orb];
              first [left; split; [reflexivity|in_names]
                    |right; left; split; [reflexivity|in_names]
                    |right; right; left; split; [reflexivity|in_names]
                    |do 3 right; split; [reflexivity|]; intros Hin; split_names;
                     done]|]
         end.
  cbn [orb]. do 3 right. split; [done|]. intros Hin. split_names; done.
Qed.

(** X25: level names.  [ParseLogLevel] inverts [String] on the four
    levels; it yields one of the four levels for every name, and
    [InfoLevel] for every name other than the ten it lists; [String]
    answers UNKNOWN exactly for the ints that are none of the four
    levels. *)
Theorem ParseLogLevel_String (name : string) (n : Z) :
  (forall lvl, Logger.ParseLogLevel (Logger.LogLevel_String (Logger.levelOf lvl))
               = Logger.levelOf lvl)
  /\ (exists lvl, Logger.ParseLogLevel name = Logger.levelOf lvl)
  /\ (Logger.ParseLogLevel name = Logger.levelOf InfoLevel
      \/ name ∈ ["debug"; "DEBUG"; "warn"; "WARN"; "warning"; "WARNING";
                  "error"; "ERROR"])
  /\ (Logger.LogLevel_String n = "UNKNOWN"
      <-> forall lvl, n <> Logger.levelOf lvl).
Proof.
  split; [by intros []|].
  split.
  { destruct (ParseLogLevel_cases name) as [[-> _]|[[-> _]|[[-> _]|[-> _]]]];
      by eexists. }
  split.
  { destruct (ParseLogLevel_cases name) as [[_ H]|[[_ H]|[[_ H]|[H _]]]];
      [right|right|right|by left]; split_names; in_names. }
  unfold Logger.LogLevel_String. split.
  - intros H lvl ->. by destruct lvl.
  - intros H.
    destruct (Z.eqb_spec n (Logger.levelOf DebugLevel)); [by edestruct H|].
    destruct (Z.eqb_spec n (Logger.levelOf InfoLevel)); [by edestruct H|].
    destruct (Z.eqb_spec n (Logger.levelOf WarnLevel)); [by edestruct H|].
    destruct (Z.eqb_spec n (Logger.levelOf ErrorLevel)); [by edestruct H|].
    done.
Qed.

(** X26: the level filter.  A call at level [lvl] prints one line when
    the logger's level is at most [lvl] and nothing otherwise, in either
    format and whatever the marshaller does.  So a logger that prints at
    some level prints at every higher one, and a logger set to a level
    above [ErrorLevel] prints nothing. *)
Theorem level_filter (env : Logger.Env) (l : Logger.StructuredLogger)
    (ctx : option (gmap string value)) (now : string) (message : string)
    (given : gmap string value) :
  (forall lvl,
     length (Logger.logAt env lvl l ctx now message given)
     = if Logger.level l <=? Logger.levelOf lvl then 1%nat else 0%nat)
  /\ (forall lvl lvl' ctx' now' message' given',
        Logger.levelOf lvl <= Logger.levelOf lvl' ->
        Logger.logAt env lvl l ctx now message given <> [] ->
        Logger.logAt env lvl' l ctx' now' message' given' <> [])
  /\ (forall n lvl,
        Logger.levelOf ErrorLevel < n ->
        Logger.logAt env lvl (Logger.SetLevel l n) ctx now message given = []).
Proof.
  split; [|split].
  - intros lvl. unfold Logger.logAt.
    destruct (Logger.level l <=? Logger.levelOf lvl); [apply log_one_line|done].
  - intros lvl lvl' ctx' now' message' given' Hle. unfold Logger.logAt.
    destruct (Z.leb_spec (Logger.level l) (Logger.levelOf lvl)); [|done].
    destruct (Z.leb_spec (Logger.level l) (Logger.levelOf lvl')); [|lia].
    intros _ Hnil.
    pose proof (log_one_line env l ctx' now' (Logger.levelOf lvl') message' given')
      as Hone.
    by rewrite Hnil in Hone.
  - intros n lvl Hn. unfold Logger.logAt, Logger.SetLevel.
    cbn [Logger.level]. pose proof (levelOf_range lvl).
    destruct (Z.leb_spec n (Logger.levelOf lvl)); [|done].
    simpl in Hn. lia.
Qed.

(** X27: the configured level.  A logger made from a level name, whatever
    the name, prints every error line; it prints debug lines exactly for
    the names debug and DEBUG, and info lines unless the name is one of
    those of the warning and error levels. *)
Theorem configured_level (env : Logger.Env) (name : string) (structured : bool)
    (ctx : option (gmap string value)) (now : string) (message : string)
    (given : gmap string value) :
  length (Logger.Error env (Logger.NewLogger (Logger.ParseLogLevel name) structured)
            ctx now message given) = 1%nat
  /\ (Logger.Debug env (Logger.NewLogger (Logger.ParseLogLevel name) structured)
        ctx now message given <> []
      <-> name ∈ ["debug"; "DEBUG"])
  /\ (Logger.Info env (Logger.NewLogger (Logger.ParseLogLevel name) structured)
        ctx now message given = []
      <-> name ∈ ["warn"; "WARN"; "warning"; "WARNING"; "error"; "ERROR"]).
Proof.
  unfold Logger.Error, Logger.Debug, Logger.Info, Logger.logAt, Logger.NewLogger.
  cbn [Logger.level].
  pose proof (log_one_line env
                (Logger.mkLogger (Logger.ParseLogLevel name) ∅ structured)
                ctx now) as Hone.
  assert (forall lvl,
            Logger.log env
              (Logger.mkLogger (Logger.ParseLogLevel name) ∅ structured)
              ctx now lvl message given <> []) as Hne.
  { intros lvl Hnil. specialize (Hone lvl message given). by rewrite Hnil in Hone. }
  destruct (ParseLogLevel_cases name) as [[E H]|[[E H]|[[E H]|[E H]]]];
    rewrite E in *;
    cbv [Logger.levelOf Z.leb Z.compare Pos.compare Pos.compare_cont];
    (split; [apply Hone|]); split; split; intros H';
    try (by apply Hne); try (by destruct (Hne _ H')); try done;
    try (split_names; in_names); try (destruct H; split_names; in_names).
Qed.

(** X28: precedence of fields.  In the entry of a line, a field given to
    the call overrides the logger's field of that name, and a field
    added by [WithFields] overrides the one the logger had; [WithFields]
    keeps level and format. *)
Theorem field_precedence (l : Logger.StructuredLogger)
    (added given : gmap string value) (ctx : option (gmap string value))
    (now : string) (lvl : Z) (message : string) (k : string) :
  Logger.Fields (Logger.entryOf (Logger.WithFields l added) ctx now lvl message given)
    !! k
  = match given !! k with
    | Some v => Some v
    | None => match added !! k with
              | Some v => Some v
              | None => Logger.fields l !! k
              end
    end
  /\ Logger.level (Logger.WithFields l added) = Logger.level l
  /\ Logger.structured (Logger.WithFields l added) = Logger.structured l.
Proof.
  split; [|done].
  assert (Logger.Fields
            (Logger.entryOf (Logger.WithFields l added) ctx now lvl message given)
          = Logger.mergeFields (Logger.WithFields l added) given) as ->.
  { unfold Logger.entryOf. destruct ctx as [values|]; [|done].
    by repeat match goal with |- context [if ?b then _ else _] => destruct b end. }
  rewrite mergeFields_union. unfold Logger.WithFields. cbn [Logger.fields].
  rewrite !copyInto_union, (right_id_L ∅ (∪)), !lookup_union.
  destruct (given !! k), (added !! k), (Logger.fields l !! k); done.
Qed.

Lemma string_app_assoc (a b c : string) : (a +:+ b) +:+ c = a +:+ (b +:+ c).
Proof.
  induction a as [|ch a IH]; [done|].
  change (String ch ((a +:+ b) +:+ c) = String ch (a +:+ (b +:+ c))).
  by rewrite IH.
Qed.

Lemma string_app_empty_r (a : string) : a +:+ "" = a.
Proof.
  induction a as [|ch a IH]; [done|].
  change (String ch (a +:+ "") = String ch a). by rewrite IH.
Qed.

Lemma setRequestID_id (env : AIHandler.Env) (ctx : gmap string value) :
  AIHandler.uuid_New env 0 <> "" ->
  exists id, AIHandler.setRequestID env ctx !! "request_id" = Some (VString id)
             /\ id <> "".
Proof.
  intros Hu. unfold AIHandler.setRequestID.
  destruct (ctx !! "request_id") as [v|] eqn:E.
  2: { eexists. by rewrite lookup_insert_eq. }
  destruct v; try (eexists; by rewrite lookup_insert_eq).
  destruct (String.eqb_spec s ""); [eexists; by rewrite lookup_insert_eq|].
  by exists s.
Qed.

(** X29: the lines of a handler carry the request id.  When UUIDs are
    not empty, the entry of a line logged with the context a handler
    makes with [setRequestID] has the request id of that context, which
    is not empty; in the plain format the printed line is the time, the
    level and the message followed by that id. *)
Theorem handler_lines_carry_request_id (henv : AIHandler.Env) (env : Logger.Env)
    (l : Logger.StructuredLogger) (ctx : gmap string value) (now : string)
    (lvl : Z) (message : string) (given : gmap string value) :
  AIHandler.uuid_New henv 0 <> "" ->
  exists id,
    id <> ""
    /\ AIHandler.setRequestID henv ctx !! "request_id" = Some (VString id)
    /\ Logger.RequestID
         (Logger.entryOf l (Some (AIHandler.setRequestID henv ctx)) now lvl
            message given) = id
    /\ (Logger.structured l = false ->
        exists rest,
          Logger.log env l (Some (AIHandler.setRequestID henv ctx)) now lvl
            message given
          = ["[" +:+ now +:+ "] " +:+ Logger.LogLevel_String lvl +:+ ": "
             +:+ message +:+ " [request_id=" +:+ id +:+ "]" +:+ rest]).
Proof.
  intros Hu. destruct (setRequestID_id henv ctx Hu) as (id & Hid & Hne).
  exists id. split; [done|]. split; [done|].
  assert (Logger.getStringFromContext (Some (AIHandler.setRequestID henv ctx))
            "request_id" = id) as Hget.
  { unfold Logger.getStringFromContext. by rewrite Hid. }
  apply String.eqb_neq in Hne.
  assert (Logger.RequestID
            (Logger.entryOf l (Some (AIHandler.setRequestID henv ctx)) now lvl
               message given) = id) as Hentry.
  { unfold Logger.entryOf. rewrite Hget, Hne. cbn [negb].
    by destruct (negb _). }
  split; [done|].
  intros Hplain. unfold Logger.log. rewrite Hplain. unfold Logger.logPlain.
  set (e := Logger.entryOf l (Some (AIHandler.setRequestID henv ctx)) now lvl
              message given) in *.
  rewrite Hentry, Hne. cbn [negb].
  assert (Logger.Timestamp e = now /\ Logger.Level e = Logger.LogLevel_String lvl
          /\ Logger.Message e = message) as (-> & -> & ->).
  { unfold e, Logger.entryOf. rewrite Hget, Hne. cbn [negb]. by destruct (negb _). }
  exists ((if negb (String.eqb (Logger.TraceID e) "")
           then " [trace_id=" +:+ Logger.TraceID e +:+ "]" else "")
          +:+ (if (0 <? size (Logger.Fields e))%nat
               then " " +:+ match Logger.json_MarshalFields env (Logger.Fields e) with
                            | Ok fieldsStr => fieldsStr
                            | Err _ => ""
                            end
               else "")).
  destruct (negb _), (0 <? _)%nat;
    rewrite ?string_app_assoc, ?string_app_empty_r; reflexivity.
Qed.

Lemma handler_lines_carry_request_id_witness :
  exists id,
    id <> ""
    /\ AIHandler.setRequestID (demo_env (Err (Foreign "EOF")) (Err (Foreign "EOF")))
         ∅ !! "request_id" = Some (VString id)
    /\ Logger.RequestID
         (Logger.entryOf (Logger.NewLogger 1 false)
            (Some (AIHandler.setRequestID
                     (demo_env (Err (Foreign "EOF")) (Err (Foreign "EOF"))) ∅))
            "2024-01-01T00:00:00Z" 1 "Request started" ∅) = id
    /\ (Logger.structured (Logger.NewLogger 1 false) = false ->
        exists rest,
          Logger.log demo_logger_env (Logger.NewLogger 1 false)
            (Some (AIHandler.setRequestID
                     (demo_env (Err (Foreign "EOF")) (Err (Foreign "EOF"))) ∅))
            "2024-01-01T00:00:00Z" 1 "Request started" ∅
          = ["[" +:+ "2024-01-01T00:00:00Z" +:+ "] " +:+ Logger.LogLevel_String 1
             +:+ ": " +:+ "Request started" +:+ " [request_id=" +:+ id +:+ "]"
             +:+ rest]).
Proof.
  apply handler_lines_carry_request_id. vm_compute. discriminate.
Defined.
